(** * AccessibilityValidator: a shallow embedding of [AccessibilityValidator.ts]

    The validator is a class whose methods read and write three things: the
    host document (DOM), the JavaScript heap (the configuration object and
    the string arrays it points to) and the validator's own fields.  The
    embedding threads one [World] value through every method, in a small
    state-and-exception monad.

    Modelling conventions.
    - DOM elements, heap locations, timers: natural-number identities.
    - JavaScript numbers that the code uses as counters and delays: [Z].
    - [document.querySelectorAll] on caller-supplied selector strings and
      [axe.run] belong to the platform, not to this file: they are the two
      methods of the class [Platform], and every theorem holds for each
      behaviour they may have.
    - One audit ([recheckAll]) runs to completion before the next operation
      starts: tasks interleaved at its [await] points are not modelled.
    - The class names of the validator's UI come from the configuration
      without a check.  The DOM calls that take them ([classList],
      [className] and the selectors built from them) are modelled for valid
      class names, for which they cannot raise; the theorems that depend on
      what these calls do carry the hypothesis [wellFormedUI]. *)

From Stdlib Require Import ZArith Lia Ascii.
From stdpp Require Import base option list gmap strings sorting.

Open Scope string_scope.
Open Scope list_scope.

(** ** Outcomes of fallible calls *)

Inductive Exn :=
| SyntaxError                 (* DOMException raised by a selector query *)
| AxeError (msg : string).    (* rejection of the promise of [axe.run] *)

Inductive Outcome (A : Type) :=
| Ok (a : A)
| Throw (e : Exn).
Arguments Ok {A} a.
Arguments Throw {A} e.

(** ** The host document *)

Module Dom.

(** What [innerHTML] / [textContent] of an element holds.  The markup the
    validator writes is kept as the data it is built from. *)
Record PopupItem := {
  item_rule : string;     (* violation.id *)
  item_impact : string;   (* violation.impact ?? '' *)
  item_msg : string       (* violation.help || violation.description || '' *)
}.

Inductive Content :=
| HostContent
| BadgeContent (violationCount : Z) (label : string)
| PopupContent (items : list PopupItem)
| StyleContent (defaultCSS : list (string * string)) (customCSS : string).

(** A document-level listener function.  Each call of [setupUIInteractions]
    creates a fresh closure over its button, popup and widget. *)
Inductive Handler :=
| OutsideClick (btn popup widget : nat).

#[global] Instance Handler_eq_dec : EqDecision Handler.
Proof. solve_decision. Defined.

Record Element := {
  tagName : string;
  idAttr : string;
  classList : list string;
  attributes : list (string * string);
  parentNode : option nat;
  content : Content;
  outsideClickHandler : option Handler   (* PopupElement._outsideClickHandler *)
}.

(** The DOM writes: the mutating calls made on nodes that already exist,
    in the order in which they are made. *)
Inductive DomWrite :=
| WClassRemove (e : nat) (c : string)
| WClassAdd (e : nat) (c : string)
| WAppendChild (parent child : nat)
| WRemove (e : nat).

Record t := {
  elems : gmap nat Element;
  nextElem : nat;
  documentElement : nat;
  head : nat;
  docListeners : list (string * Handler);
  domWrites : list DomWrite
}.

Definition with_elems (f : gmap nat Element -> gmap nat Element) (d : t) : t :=
  {| elems := f (elems d); nextElem := nextElem d;
     documentElement := documentElement d; head := head d;
     docListeners := docListeners d; domWrites := domWrites d |}.

Definition with_listeners (f : list (string * Handler) -> list (string * Handler))
    (d : t) : t :=
  {| elems := elems d; nextElem := nextElem d;
     documentElement := documentElement d; head := head d;
     docListeners := f (docListeners d); domWrites := domWrites d |}.

Definition log_write (w : DomWrite) (d : t) : t :=
  {| elems := elems d; nextElem := nextElem d;
     documentElement := documentElement d; head := head d;
     docListeners := docListeners d; domWrites := domWrites d ++ [w] |}.

Definition set_classList (cs : list string) (e : Element) : Element :=
  {| tagName := tagName e; idAttr := idAttr e; classList := cs;
     attributes := attributes e; parentNode := parentNode e;
     content := content e; outsideClickHandler := outsideClickHandler e |}.

Definition set_parentNode (p : option nat) (e : Element) : Element :=
  {| tagName := tagName e; idAttr := idAttr e; classList := classList e;
     attributes := attributes e; parentNode := p;
     content := content e; outsideClickHandler := outsideClickHandler e |}.

Definition set_handler (h : option Handler) (e : Element) : Element :=
  {| tagName := tagName e; idAttr := idAttr e; classList := classList e;
     attributes := attributes e; parentNode := parentNode e;
     content := content e; outsideClickHandler := h |}.

Definition has_class (c : string) (e : Element) : bool :=
  bool_decide (c ∈ classList e).

(** A class name that the DOM takes as one token and as a class selector:
    ASCII letters, digits, [-] and [_], starting with a letter or [_].  For
    such a name [classList.add] and [classList.remove] do not raise (they
    raise on the empty string and on a string with whitespace),
    [className = name] gives the element the single token [name], and
    [.name] is a selector that matches the elements carrying that token.
    The class operations below are the DOM's for these names. *)
Definition nameStart (c : ascii) : bool :=
  let n := nat_of_ascii c in
  (((65 <=? n) && (n <=? 90)) || ((97 <=? n) && (n <=? 122)) || (n =? 95))%nat.

Definition nameChar (c : ascii) : bool :=
  let n := nat_of_ascii c in
  (nameStart c || ((48 <=? n) && (n <=? 57)) || (n =? 45))%nat.

Fixpoint nameChars (s : string) : bool :=
  match s with
  | EmptyString => true
  | String c s' => nameChar c && nameChars s'
  end.

Definition validClassName (s : string) : bool :=
  match s with
  | EmptyString => false
  | String c s' => nameStart c && nameChars s'
  end.

(** [element.classList.remove(c)], for a valid class name [c]. *)
Definition classList_remove (i : nat) (c : string) (d : t) : t :=
  log_write (WClassRemove i c)
    (with_elems (alter (fun e => set_classList (filter (fun x => x ≠ c) (classList e)) e) i) d).

(** [element.classList.add(c)], for a valid class name [c]. *)
Definition classList_add (i : nat) (c : string) (d : t) : t :=
  log_write (WClassAdd i c)
    (with_elems (alter (fun e =>
       if has_class c e then e else set_classList (classList e ++ [c]) e) i) d).

(** [document.createElement]: a fresh, detached element. *)
Definition createElement (e : Element) (d : t) : nat * t :=
  (nextElem d,
   {| elems := <[nextElem d := set_parentNode None e]> (elems d);
      nextElem := S (nextElem d);
      documentElement := documentElement d; head := head d;
      docListeners := docListeners d; domWrites := domWrites d |}).

(** [parent.appendChild(child)] *)
Definition appendChild (p c : nat) (d : t) : t :=
  log_write (WAppendChild p c) (with_elems (alter (set_parentNode (Some p)) c) d).

(** [node.remove()] *)
Definition remove (i : nat) (d : t) : t :=
  log_write (WRemove i) (with_elems (alter (set_parentNode None) i) d).

(** [document.addEventListener(type, h)]: a listener already registered
    for the type is not registered twice. *)
Definition addEventListener (ty : string) (h : Handler) (d : t) : t :=
  with_listeners (fun l => if bool_decide ((ty, h) ∈ l) then l else l ++ [(ty, h)]) d.

(** [document.removeEventListener(type, h)] *)
Definition removeEventListener (ty : string) (h : Handler) (d : t) : t :=
  with_listeners (filter (fun x => x ≠ (ty, h))) d.

Definition parent_of (d : t) (i : nat) : option nat :=
  e ← elems d !! i; parentNode e.

(** [w.contains(e)]: [e] is [w] or a descendant of [w].  The walk up the
    parent chain is bounded by the number of elements. *)
Fixpoint has_ancestor (fuel : nat) (d : t) (w i : nat) : bool :=
  match fuel with
  | 0 => false
  | S fuel' =>
      match parent_of d i with
      | None => false
      | Some p => bool_decide (p = w) || has_ancestor fuel' d w p
      end
  end.

Definition contains (d : t) (w i : nat) : bool :=
  bool_decide (w = i) || has_ancestor (size (elems d)) d w i.

(** An element is in the document when the root contains it. *)
Definition connected (d : t) (i : nat) : bool :=
  contains d (documentElement d) i.

(** The elements of the store that satisfy [p], as a static list, in the
    order in which the store enumerates them.  The validator's own queries
    below iterate over the answer with effects that do not depend on its
    order, or take the one element of it. *)
Definition select (p : nat -> Element -> bool) (d : t) : list nat :=
  (filter (fun ie => p ie.1 ie.2 = true) (map_to_list (elems d))).*1.

(** [document.querySelectorAll('.' + c)] for a valid class name [c]. *)
Definition byClass (c : string) (d : t) : list nat :=
  select (fun i e => connected d i && has_class c e) d.

(** [w.querySelectorAll(':scope > .a, :scope > .b')] for valid class names
    [a] and [b]: the children of [w] that carry one of the two tokens. *)
Definition scopeChildren (w : nat) (a b : string) (d : t) : list nat :=
  select (fun _ e => bool_decide (parentNode e = Some w)
                     && (has_class a e || has_class b e)) d.

(** [document.getElementById(s)] *)
Definition getElementById (s : string) (d : t) : option nat :=
  List.head (select (fun i e => connected d i && bool_decide (idAttr e = s)) d).

End Dom.

(** ** The rule engine's data (axe-core) *)

Inductive Impact := minor | moderate | serious | critical.

Record AxeNode := {
  node_html : string;
  target : list string
}.

Record AxeViolation := {
  violation_id : string;
  impact : option Impact;
  tags : list string;
  description : string;
  help : string;
  helpUrl : string;
  nodes : list AxeNode
}.

Inductive RunOnlyType := rule | tag.

Record RunOnly := {
  type : RunOnlyType;
  values : list string
}.

Record AxeRunOptions := {
  runOnly : option RunOnly
}.

(** ** Configuration *)

Record UIClasses := {
  OUTLINE : string;
  BADGE : string;
  POPUP : string;
  CLOSE : string
}.

(** The four names are valid class names.  [createUIClasses] takes the
    names from the configuration as they are, without a check; the methods
    below that hand them to [classList], [className] and the selector
    queries are modelled for names that are well formed, as the default
    names are. *)
Definition wellFormedUI (ui : UIClasses) : Prop :=
  Dom.validClassName (OUTLINE ui) = true
  /\ Dom.validClassName (BADGE ui) = true
  /\ Dom.validClassName (POPUP ui) = true
  /\ Dom.validClassName (CLOSE ui) = true.

Record PartialUIClasses := {
  OUTLINE' : option string;
  BADGE' : option string;
  POPUP' : option string;
  CLOSE' : option string
}.

(** [AccessibilityValidatorConfig].  String arrays are references into the
    heap of arrays; an optional field that is absent is [None]. *)
Record AccessibilityValidatorConfig := {
  widgetSelectors : nat;
  axeRules : option nat;
  axeTags : option nat;
  debounceDelay : option Z;
  enableMutationObserver : option bool;
  maxRetries : option Z;
  uiClassesOverride : option PartialUIClasses;
  cmsEvents : option nat;
  customCSS : option string;
  enableDebugLogging : option bool
}.

(** [Partial<AccessibilityValidatorConfig>] *)
Record PartialConfig := {
  widgetSelectors' : option nat;
  axeRules' : option nat;
  axeTags' : option nat;
  debounceDelay' : option Z;
  enableMutationObserver' : option bool;
  maxRetries' : option Z;
  uiClassesOverride' : option PartialUIClasses;
  cmsEvents' : option nat;
  customCSS' : option string;
  enableDebugLogging' : option bool
}.

(** [b || a] on values that are truthy whenever present. *)
Definition orElse {A} (b a : option A) : option A :=
  match b with Some x => Some x | None => a end.

(** [{ ...c, ...p }] *)
Definition spread (c : AccessibilityValidatorConfig) (p : PartialConfig)
    : AccessibilityValidatorConfig :=
  {| widgetSelectors := default (widgetSelectors c) (widgetSelectors' p);
     axeRules := orElse (axeRules' p) (axeRules c);
     axeTags := orElse (axeTags' p) (axeTags c);
     debounceDelay := orElse (debounceDelay' p) (debounceDelay c);
     enableMutationObserver := orElse (enableMutationObserver' p) (enableMutationObserver c);
     maxRetries := orElse (maxRetries' p) (maxRetries c);
     uiClassesOverride := orElse (uiClassesOverride' p) (uiClassesOverride c);
     cmsEvents := orElse (cmsEvents' p) (cmsEvents c);
     customCSS := orElse (customCSS' p) (customCSS c);
     enableDebugLogging := orElse (enableDebugLogging' p) (enableDebugLogging c) |}.

(** ** Validator state and the world it runs in *)

Record WidgetState := {
  lastViolationCount : Z;
  hasUI : bool
}.

(** [Partial<WidgetState>] *)
Record PartialWidgetState := {
  lastViolationCount' : option Z;
  hasUI' : option bool
}.

(** What a timer runs when it fires. *)
Inductive Callback :=
| CbRecheckAll            (* [() => this.recheckAll()] *)
| CbOther (n : nat).      (* a timer of the host page *)

#[global] Instance Callback_eq_dec : EqDecision Callback.
Proof. solve_decision. Defined.

Record ViolationSummary := {
  summary_id : string;
  summary_nodes : nat;
  summary_description : string
}.

(** The three shapes of the [ruleInfo] text of the debug log. *)
Inductive RuleInfo :=
| SpecificRules (n : nat)
| Tags (tags : list string)
| AllRules.

(** What an audit does outside the document. *)
Inductive EngineEvent :=
| AxeRun (options : AxeRunOptions)
| Backoff (ms : Z)
| ConsoleLog (ruleInfo : RuleInfo) (summary : list ViolationSummary)
| ConsoleWarn (err : Exn).

Record Validator := {
  config : nat;                           (* reference to the configuration object *)
  widgetCache : gmap nat WidgetState;
  recheckTimeout : option nat;
  mutationObserver : bool;                (* an observer exists and observes *)
  isInitialized : bool;
  uiClasses : UIClasses
}.

Record World := {
  dom : Dom.t;
  arrays : gmap nat (list string);
  objects : gmap nat AccessibilityValidatorConfig;
  nextLoc : nat;
  timers : gmap nat (Z * Callback);       (* pending timers: due time, callback *)
  nextTimer : nat;
  now : Z;
  hostname : string;                      (* window.location.hostname *)
  trace : list EngineEvent;
  this : Validator
}.

Definition with_dom (f : Dom.t -> Dom.t) (W : World) : World :=
  {| dom := f (dom W); arrays := arrays W; objects := objects W;
     nextLoc := nextLoc W; timers := timers W; nextTimer := nextTimer W;
     now := now W; hostname := hostname W; trace := trace W; this := this W |}.

Definition with_this (f : Validator -> Validator) (W : World) : World :=
  {| dom := dom W; arrays := arrays W; objects := objects W;
     nextLoc := nextLoc W; timers := timers W; nextTimer := nextTimer W;
     now := now W; hostname := hostname W; trace := trace W; this := f (this W) |}.

Definition with_arrays (f : gmap nat (list string) -> gmap nat (list string))
    (W : World) : World :=
  {| dom := dom W; arrays := f (arrays W); objects := objects W;
     nextLoc := nextLoc W; timers := timers W; nextTimer := nextTimer W;
     now := now W; hostname := hostname W; trace := trace W; this := this W |}.

Definition with_objects
    (f : gmap nat AccessibilityValidatorConfig -> gmap nat AccessibilityValidatorConfig)
    (W : World) : World :=
  {| dom := dom W; arrays := arrays W; objects := f (objects W);
     nextLoc := nextLoc W; timers := timers W; nextTimer := nextTimer W;
     now := now W; hostname := hostname W; trace := trace W; this := this W |}.

Definition with_timers (f : gmap nat (Z * Callback) -> gmap nat (Z * Callback))
    (W : World) : World :=
  {| dom := dom W; arrays := arrays W; objects := objects W;
     nextLoc := nextLoc W; timers := f (timers W); nextTimer := nextTimer W;
     now := now W; hostname := hostname W; trace := trace W; this := this W |}.

Definition emit (ev : EngineEvent) (W : World) : World :=
  {| dom := dom W; arrays := arrays W; objects := objects W;
     nextLoc := nextLoc W; timers := timers W; nextTimer := nextTimer W;
     now := now W; hostname := hostname W; trace := trace W ++ [ev]; this := this W |}.

(** Allocation of a fresh heap location. *)
Definition alloc (W : World) : nat * World :=
  (nextLoc W,
   {| dom := dom W; arrays := arrays W; objects := objects W;
      nextLoc := S (nextLoc W); timers := timers W; nextTimer := nextTimer W;
      now := now W; hostname := hostname W; trace := trace W; this := this W |}).

Definition set_config (l : nat) (v : Validator) : Validator :=
  {| config := l; widgetCache := widgetCache v; recheckTimeout := recheckTimeout v;
     mutationObserver := mutationObserver v; isInitialized := isInitialized v;
     uiClasses := uiClasses v |}.

Definition set_widgetCache (c : gmap nat WidgetState) (v : Validator) : Validator :=
  {| config := config v; widgetCache := c; recheckTimeout := recheckTimeout v;
     mutationObserver := mutationObserver v; isInitialized := isInitialized v;
     uiClasses := uiClasses v |}.

Definition set_recheckTimeout (t : option nat) (v : Validator) : Validator :=
  {| config := config v; widgetCache := widgetCache v; recheckTimeout := t;
     mutationObserver := mutationObserver v; isInitialized := isInitialized v;
     uiClasses := uiClasses v |}.

Definition set_mutationObserver (b : bool) (v : Validator) : Validator :=
  {| config := config v; widgetCache := widgetCache v; recheckTimeout := recheckTimeout v;
     mutationObserver := b; isInitialized := isInitialized v;
     uiClasses := uiClasses v |}.

Definition set_uiClasses (u : UIClasses) (v : Validator) : Validator :=
  {| config := config v; widgetCache := widgetCache v; recheckTimeout := recheckTimeout v;
     mutationObserver := mutationObserver v; isInitialized := isInitialized v;
     uiClasses := u |}.

(** Reading through references.  A reference always points to a live object
    in JavaScript; the defaults below are never reached from a world built by
    the operations of this file. *)
Definition readArray (W : World) (l : nat) : list string :=
  default [] (arrays W !! l).

Definition DEFAULT_AXE_RULES : nat := 0.
Definition DEFAULT_CMS_EVENTS : nat := 1.

(** [AccessibilityValidator.DEFAULT_CONFIG]: its two arrays live at fixed
    locations of the heap and are shared by every configuration that falls
    back to them. *)
Definition DEFAULT_CONFIG : PartialConfig :=
  {| widgetSelectors' := None;
     axeRules' := Some DEFAULT_AXE_RULES;
     axeTags' := None;
     debounceDelay' := Some 300%Z;
     enableMutationObserver' := Some true;
     maxRetries' := Some 1%Z;
     uiClassesOverride' := None;
     cmsEvents' := Some DEFAULT_CMS_EVENTS;
     customCSS' := None;
     enableDebugLogging' := None |}.

Definition staticArrays : gmap nat (list string) :=
  <[DEFAULT_CMS_EVENTS :=
      ["sf:contentModified"; "sf:widgetUpdated"; "sf:propertyChanged";
       "sf:designerClosed"; "sf:contentSaved"]]>
  (<[DEFAULT_AXE_RULES := []]> ∅).

Definition noConfig : AccessibilityValidatorConfig :=
  {| widgetSelectors := DEFAULT_AXE_RULES; axeRules := None; axeTags := None;
     debounceDelay := None; enableMutationObserver := None; maxRetries := None;
     uiClassesOverride := None; cmsEvents := None; customCSS := None;
     enableDebugLogging := None |}.

(** [this.config] *)
Definition cfg (W : World) : AccessibilityValidatorConfig :=
  default noConfig (objects W !! config (this W)).

(** ** The platform

    The two collaborators the validator calls but does not implement. *)

Class Platform := {
  (** [document.querySelectorAll(selector)] of the host: the matching
      elements in document order, or the [SyntaxError] the DOM raises for a
      string that is not a selector list. *)
  querySelectorAll : string -> Dom.t -> Outcome (list nat);
  (** [axe.run(document, options)]: the violations of the resolved promise,
      or its rejection.  The first argument counts the earlier invocations,
      so that the engine may fail on one call and answer on the next. *)
  axe_run : nat -> Dom.t -> AxeRunOptions -> Outcome (list AxeViolation)
}.

(** ** The methods of [AccessibilityValidator] *)

Section Validator.

Context `{Platform}.

(** [document.querySelector(selector)]: the first match, or null. *)
Definition querySelector (s : string) (d : Dom.t) : Outcome (option nat) :=
  match querySelectorAll s d with
  | Ok l => Ok (List.head l)
  | Throw e => Throw e
  end.

Definition is_AxeRun (ev : EngineEvent) : bool :=
  match ev with AxeRun _ => true | _ => false end.

Definition engineCalls (W : World) : nat :=
  length (List.filter is_AxeRun (trace W)).

(** *** Configuration *)

Definition includes (needle s : string) : bool :=
  match String.index 0 needle s with Some _ => true | None => false end.

(** The object that [mergeConfig] builds. *)
Definition merged (hostname : string) (userConfig : AccessibilityValidatorConfig)
    : AccessibilityValidatorConfig :=
  {| widgetSelectors := widgetSelectors userConfig;
     axeRules := orElse (axeRules userConfig) (axeRules' DEFAULT_CONFIG);
     axeTags := orElse (axeTags userConfig) (axeTags' DEFAULT_CONFIG);
     debounceDelay := orElse (debounceDelay userConfig) (debounceDelay' DEFAULT_CONFIG);
     enableMutationObserver :=
       orElse (enableMutationObserver userConfig) (enableMutationObserver' DEFAULT_CONFIG);
     maxRetries := orElse (maxRetries userConfig) (maxRetries' DEFAULT_CONFIG);
     uiClassesOverride := orElse (uiClassesOverride userConfig) (uiClassesOverride' DEFAULT_CONFIG);
     cmsEvents := orElse (cmsEvents userConfig) (cmsEvents' DEFAULT_CONFIG);
     customCSS := orElse (customCSS userConfig) (customCSS' DEFAULT_CONFIG);
     enableDebugLogging :=
       match enableDebugLogging userConfig with
       | Some b => Some b
       | None => Some (bool_decide (hostname = "localhost") || includes "dev" hostname)
       end |}.

(** [mergeConfig(userConfig)]: allocates the merged object. *)
Definition mergeConfig (userConfig : AccessibilityValidatorConfig) (W : World)
    : nat * World :=
  let (l, W1) := alloc W in
  (l, with_objects (insert l (merged (hostname W) userConfig)) W1).

Definition defaultUIClasses : UIClasses :=
  {| OUTLINE := "wa11y-outline"; BADGE := "wa11y-badge";
     POPUP := "wa11y-popup"; CLOSE := "wa11y-close" |}.

(** [createUIClasses()] *)
Definition createUIClasses (W : World) : UIClasses :=
  match uiClassesOverride (cfg W) with
  | None => defaultUIClasses
  | Some o =>
      {| OUTLINE := default (OUTLINE defaultUIClasses) (OUTLINE' o);
         BADGE := default (BADGE defaultUIClasses) (BADGE' o);
         POPUP := default (POPUP defaultUIClasses) (POPUP' o);
         CLOSE := default (CLOSE defaultUIClasses) (CLOSE' o) |}
  end.

(** *** Widget registry *)

Definition getCombinedSelector (W : World) : string :=
  String.concat ", " (readArray W (widgetSelectors (cfg W))).

Definition getAllWidgets (W : World) : Outcome (list nat) :=
  querySelectorAll (getCombinedSelector W) (dom W).

(** *** Widget state store *)

Definition defaultWidgetState : WidgetState :=
  {| lastViolationCount := (-1)%Z; hasUI := false |}.

Definition getWidgetState (W : World) (widget : nat) : WidgetState :=
  default defaultWidgetState (widgetCache (this W) !! widget).

Definition setWidgetState (widget : nat) (state : PartialWidgetState) (W : World) : World :=
  let old := getWidgetState W widget in
  with_this (fun v => set_widgetCache
    (<[widget :=
        {| lastViolationCount := default (lastViolationCount old) (lastViolationCount' state);
           hasUI := default (hasUI old) (hasUI' state) |}]> (widgetCache v)) v) W.

(** *** UI elements *)

(** [btn.className = BADGE] gives the button the single token [BADGE], for
    a valid class name.  The markup assigned to [innerHTML] is kept as the
    data it is built from: the count and its label. *)
Definition createBadge (W : World) (violationCount : Z) : Dom.Element :=
  {| Dom.tagName := "button";
     Dom.idAttr := "";
     Dom.classList := [BADGE (uiClasses (this W))];
     Dom.attributes :=
       [("type", "button"); ("aria-haspopup", "dialog"); ("aria-expanded", "false");
        ("title", "Show accessibility issues for this widget")];
     Dom.parentNode := None;
     Dom.content :=
       Dom.BadgeContent violationCount
         (if (violationCount =? 1)%Z then "issue" else "issues");
     Dom.outsideClickHandler := None |}.

Definition impactText (i : option Impact) : string :=
  match i with
  | Some minor => "minor"
  | Some moderate => "moderate"
  | Some serious => "serious"
  | Some critical => "critical"
  | None => ""
  end.

Definition formatViolation (violation : AxeViolation) : Dom.PopupItem :=
  {| Dom.item_rule := violation_id violation;
     Dom.item_impact := impactText (impact violation);
     Dom.item_msg :=
       if bool_decide (help violation = "")
       then description violation
       else help violation |}.

(** [popup.className = POPUP] likewise.  The markup assigned to
    [innerHTML] is kept as the data it is built from, one entry per
    violation; the elements the host parses out of it (the close button, the
    list items, whatever markup a help text carries) are not elements of the
    document store. *)
Definition createPopup (W : World) (violations : list AxeViolation) : Dom.Element :=
  {| Dom.tagName := "div";
     Dom.idAttr := "";
     Dom.classList := [POPUP (uiClasses (this W))];
     Dom.attributes := [("role", "dialog"); ("aria-modal", "false"); ("hidden", "")];
     Dom.parentNode := None;
     Dom.content := Dom.PopupContent (map formatViolation violations);
     Dom.outsideClickHandler := None |}.

(** [setupUIInteractions]: the part that reaches outside the two new
    elements, namely the click listener registered on the document and the
    reference to it stored on the popup.  (The click listeners of the badge
    and of the close button live on those elements and go with them; the
    lookup [popup.querySelector('.' + CLOSE)] that finds the close button
    completes for a valid class name.) *)
Definition setupUIInteractions (btn popup widget : nat) (W : World) : World :=
  let outsideClickHandler := Dom.OutsideClick btn popup widget in
  with_dom (fun d =>
    Dom.with_elems (alter (Dom.set_handler (Some outsideClickHandler)) popup)
      (Dom.addEventListener "click" outsideClickHandler d)) W.

(** *** UI management *)

(** [clearWidgetUI], for well-formed UI class names: then neither
    [classList.remove] nor the selector built from [BADGE] and [POPUP]
    raises, and the selector matches the children carrying these tokens. *)
Definition clearWidgetUI (widget : nat) (W : World) : World :=
  let ui := uiClasses (this W) in
  let W1 := with_dom (Dom.classList_remove widget (OUTLINE ui)) W in
  let W2 := with_dom (fun d =>
              foldl (fun d n => Dom.remove n d) d
                    (Dom.scopeChildren widget (BADGE ui) (POPUP ui) d)) W1 in
  setWidgetState widget {| hasUI' := Some false; lastViolationCount' := Some 0%Z |} W2.

(** The early return of [renderWidgetUI]. *)
Definition unchanged (currentState : WidgetState) (violationCount : Z) : bool :=
  (lastViolationCount currentState =? violationCount)%Z
  && bool_decide (hasUI currentState = (0 <? violationCount)%Z).

Definition renderWidgetUI (widget : nat) (violations : list AxeViolation) (W : World)
    : World :=
  let currentState := getWidgetState W widget in
  let violationCount := Z.of_nat (length violations) in
  if unchanged currentState violationCount then W
  else if (violationCount =? 0)%Z then clearWidgetUI widget W
  else
    let W1 := clearWidgetUI widget W in
    let W2 := with_dom (Dom.classList_add widget (OUTLINE (uiClasses (this W1)))) W1 in
    let (btn, d3) := Dom.createElement (createBadge W2 violationCount) (dom W2) in
    let (popup, d4) := Dom.createElement (createPopup W2 violations) d3 in
    let W4 := with_dom (fun _ => Dom.appendChild widget popup (Dom.appendChild widget btn d4)) W2 in
    let W5 := setupUIInteractions btn popup widget W4 in
    setWidgetState widget
      {| hasUI' := Some true; lastViolationCount' := Some violationCount |} W5.

(** *** CSS injection

    The stylesheet text is kept as its rules (selector, declarations),
    followed by the custom CSS. *)

Definition defaultCSS (ui : UIClasses) : list (string * string) :=
  [("." +:+ OUTLINE ui, "outline:2px solid #e33;outline-offset:2px;position:relative");
   ("." +:+ BADGE ui,
    "position:absolute;top:6px;right:6px;z-index:99998;display:inline-flex;"
    +:+ "align-items:center;gap:6px;background:#111;color:#fff;border:1px solid #333;"
    +:+ "border-radius:999px;font:12px/1 system-ui,-apple-system,Segoe UI,Roboto,Arial;"
    +:+ "padding:4px 8px;cursor:pointer;box-shadow:0 2px 8px rgba(0,0,0,.2)");
   ("." +:+ BADGE ui +:+ "__icon", "width:14px;height:14px;display:inline-block");
   ("." +:+ BADGE ui +:+ "__icon svg", "width:14px;height:14px;display:block");
   ("." +:+ POPUP ui,
    "position:absolute;top:36px;right:6px;z-index:99999;width:320px;"
    +:+ "max-width:calc(100vw - 32px);background:#1a1a1a;color:#fff;"
    +:+ "border:1px solid #333;padding:10px;box-shadow:0 10px 24px rgba(0,0,0,.35)");
   ("." +:+ POPUP ui +:+ "[hidden]", "display:none");
   ("." +:+ POPUP ui +:+ " *", "margin-top:0");
   ("." +:+ POPUP ui +:+ "__hdr",
    "display:flex;align-items:center;justify-content:space-between;gap:8px;"
    +:+ "margin-bottom:6px");
   ("." +:+ POPUP ui +:+ "__ttl", "margin:0;font:600 12px/1.3 system-ui;color:#9ee6a7");
   ("." +:+ CLOSE ui,
    "min-height:0;background:none;border:none;color:#fff;cursor:pointer;padding:0;"
    +:+ "width:16px;height:16px;display:flex;align-items:center;justify-content:center");
   ("." +:+ CLOSE ui +:+ " svg", "width:12px;height:12px;stroke:currentColor");
   (".wa11y-list", "margin:0;padding:0;list-style:none;max-height:320px;overflow:auto");
   (".wa11y-item", "padding:0");
   (".wa11y-item+.wa11y-item", "margin-top:10px");
   (".wa11y-rule", "font:600 11px/1.2 system-ui;color:#ddd;margin-bottom:2px");
   (".wa11y-msg", "font:12px/1.35 system-ui;color:#cfcfcf")].

Definition styleElement (W : World) : Dom.Element :=
  {| Dom.tagName := "style";
     Dom.idAttr := "wa11y-style";
     Dom.classList := [];
     Dom.attributes := [];
     Dom.parentNode := None;
     Dom.content :=
       Dom.StyleContent (defaultCSS (uiClasses (this W))) (default "" (customCSS (cfg W)));
     Dom.outsideClickHandler := None |}.

Definition injectCSS (W : World) : World :=
  match Dom.getElementById "wa11y-style" (dom W) with
  | Some _ => W
  | None =>
      let (s, d1) := Dom.createElement (styleElement W) (dom W) in
      with_dom (fun _ => Dom.appendChild (Dom.head d1) s d1) W
  end.

(** *** Audit runner *)

(** [a.length > 0 ? a : undefined] for an optional array reference. *)
Definition nonEmpty (W : World) (a : option nat) : option (list string) :=
  match a with
  | Some l => if (0 <? length (readArray W l))%nat then Some (readArray W l) else None
  | None => None
  end.

(** The options object built at the head of the [try] block. *)
Definition axeOptions (W : World) : AxeRunOptions :=
  match nonEmpty W (axeRules (cfg W)) with
  | Some rules => {| runOnly := Some {| type := rule; values := rules |} |}
  | None =>
      match nonEmpty W (axeTags (cfg W)) with
      | Some tags => {| runOnly := Some {| type := tag; values := tags |} |}
      | None => {| runOnly := None |}
      end
  end.

Definition ruleInfo (W : World) : RuleInfo :=
  match nonEmpty W (axeRules (cfg W)) with
  | Some rules => SpecificRules (length rules)
  | None =>
      match nonEmpty W (axeTags (cfg W)) with
      | Some tags => Tags tags
      | None => AllRules
      end
  end.

Definition summarize (v : AxeViolation) : ViolationSummary :=
  {| summary_id := violation_id v;
     summary_nodes := length (nodes v);
     summary_description := description v |}.

Definition debug (W : World) : bool :=
  default false (enableDebugLogging (cfg W)).

(** [Array.prototype.some] and [Array.prototype.filter] over a callback
    that may throw: the first exception ends the traversal, and [some]
    stops at the first element that answers true. *)
Fixpoint some {A} (f : A -> Outcome bool) (l : list A) : Outcome bool :=
  match l with
  | [] => Ok false
  | x :: l' =>
      match f x with
      | Throw e => Throw e
      | Ok true => Ok true
      | Ok false => some f l'
      end
  end.

Fixpoint filterO {A} (f : A -> Outcome bool) (l : list A) : Outcome (list A) :=
  match l with
  | [] => Ok []
  | x :: l' =>
      match f x with
      | Throw e => Throw e
      | Ok b =>
          match filterO f l' with
          | Throw e => Throw e
          | Ok r => Ok (if b then x :: r else r)
          end
      end
  end.

(** The callback of [violation.nodes.some]. *)
Definition nodeInWidget (d : Dom.t) (widget : nat) (node : AxeNode) : Outcome bool :=
  match querySelector (String.concat " " (target node)) d with
  | Throw e => Throw e
  | Ok None => Ok false
  | Ok (Some element) => Ok (Dom.contains d widget element)
  end.

(** The violation mapper: [violations.filter(v => v.nodes.some(...))]. *)
Definition widgetViolations (d : Dom.t) (violations : list AxeViolation) (widget : nat)
    : Outcome (list AxeViolation) :=
  filterO (fun violation => some (nodeInWidget d widget) (nodes violation)) violations.

(** [widgets.forEach(widget => renderWidgetUI(widget, widgetViolations))],
    each lookup on the document as the earlier renders left it. *)
Fixpoint renderAll (violations : list AxeViolation) (widgets : list nat) (W : World)
    : Outcome unit * World :=
  match widgets with
  | [] => (Ok tt, W)
  | widget :: rest =>
      match widgetViolations (dom W) violations widget with
      | Throw e => (Throw e, W)
      | Ok vs => renderAll violations rest (renderWidgetUI widget vs W)
      end
  end.

(** The body of the [try] block. *)
Definition attempt (widgets : list nat) (W : World) : Outcome unit * World :=
  let options := axeOptions W in
  let W1 := emit (AxeRun options) W in
  match axe_run (engineCalls W) (dom W) options with
  | Throw e => (Throw e, W1)
  | Ok violations =>
      let W2 := if debug W1
                then emit (ConsoleLog (ruleInfo W1) (map summarize violations)) W1
                else W1 in
      renderAll violations widgets W2
  end.

(** Comparisons with [this.config.maxRetries!]; with [undefined] both are
    false. *)
Definition leMax (attempts : Z) (m : option Z) : bool :=
  match m with Some m => (attempts <=? m)%Z | None => false end.

Definition gtMax (attempts : Z) (m : option Z) : bool :=
  match m with Some m => (m <? attempts)%Z | None => false end.

(** The [catch] block, after [attempts++].  The 50 ms timer that the loop
    awaits before the next attempt is the event [Backoff 50]. *)
Definition onFailure (widgets : list nat) (attempts : Z) (err : Exn) (W : World) : World :=
  if gtMax attempts (maxRetries (cfg W)) then
    let W1 := if debug W then emit (ConsoleWarn err) W else W in
    foldl (fun W widget => renderWidgetUI widget [] W) W1 widgets
  else emit (Backoff 50) W.

(** The [while] loop.  [None]: the fuel ran out before the loop ended. *)
Fixpoint retryLoop (fuel : nat) (widgets : list nat) (attempts : Z) (W : World)
    : option World :=
  match fuel with
  | 0 => None
  | S fuel' =>
      if leMax attempts (maxRetries (cfg W)) then
        match attempt widgets W with
        | (Ok _, W') => Some W'
        | (Throw err, W') =>
            retryLoop fuel' widgets (attempts + 1)
                      (onFailure widgets (attempts + 1) err W')
        end
      else Some W
  end.

(** [recheckAll()].  The outcome is that of the returned promise. *)
Definition recheckAll (fuel : nat) (W : World) : option (Outcome unit * World) :=
  let W1 := injectCSS W in
  match getAllWidgets W1 with
  | Throw e => Some (Throw e, W1)
  | Ok widgets =>
      if (length widgets =? 0)%nat then Some (Ok tt, W1)
      else
        let W2 := foldl (fun W widget => clearWidgetUI widget W) W1 widgets in
        W' ← retryLoop fuel widgets 0 W2;
        Some (Ok tt, W')
  end.

(** A call [this.recheckAll()] whose promise is dropped: a rejection does
    not reach the caller. *)
Definition recheckAll_detached (fuel : nat) (W : World) : option World :=
  r ← recheckAll fuel W; Some r.2.

(** *** Public API *)

(** The timeout argument of the browser's [setTimeout] is a WebIDL [long]:
    the host takes the number modulo 2^32 and reads it as a signed 32-bit
    integer. *)
Definition toLong (z : Z) : Z :=
  ((z + 2147483648) mod 4294967296 - 2147483648)%Z.

(** [setTimeout(cb, delay)]: an absent delay is 0, the delay is
    converted to a [long], and a negative one counts as 0. *)
Definition setTimeout (cb : Callback) (delay : option Z) (W : World) : nat * World :=
  (nextTimer W,
   {| dom := dom W; arrays := arrays W; objects := objects W; nextLoc := nextLoc W;
      timers := <[nextTimer W := ((now W + Z.max 0 (toLong (default 0 delay)))%Z, cb)]>
                  (timers W);
      nextTimer := S (nextTimer W);
      now := now W; hostname := hostname W; trace := trace W; this := this W |}).

Definition clearTimeout (t : nat) (W : World) : World :=
  with_timers (delete t) W.

(** [delay || this.config.debounceDelay!] *)
Definition debounceArg (delay : option Z) (W : World) : option Z :=
  match delay with
  | Some d => if (d =? 0)%Z then debounceDelay (cfg W) else Some d
  | None => debounceDelay (cfg W)
  end.

Definition debounceRecheck (delay : option Z) (W : World) : World :=
  let W1 := match recheckTimeout (this W) with
            | Some t => clearTimeout t W
            | None => W
            end in
  let (t, W2) := setTimeout CbRecheckAll (debounceArg delay W1) W1 in
  with_this (set_recheckTimeout (Some t)) W2.

(** The observer is kept as the fact that it exists and observes; what its
    callback does with a batch of mutations ends in [debounceRecheck]. *)
Definition setupMutationObserver (W : World) : World :=
  if mutationObserver (this W) then W
  else with_this (set_mutationObserver true) W.

Definition startWatching (W : World) : World :=
  if default false (enableMutationObserver (cfg W)) then setupMutationObserver W else W.

Definition stopWatching (W : World) : World :=
  if mutationObserver (this W) then with_this (set_mutationObserver false) W else W.

Definition clearAll (W : World) : Outcome unit * World :=
  match getAllWidgets W with
  | Throw e => (Throw e, W)
  | Ok widgets => (Ok tt, foldl (fun W widget => clearWidgetUI widget W) W widgets)
  end.

(** [this.config.widgetSelectors.push(...selectors)]: the array is updated
    in place. *)
Definition addSelectors (fuel : nat) (selectors : list string) (W : World) : option World :=
  let a := widgetSelectors (cfg W) in
  recheckAll_detached fuel (with_arrays (insert a (readArray W a ++ selectors)) W).

Definition set_widgetSelectors (a : nat) (c : AccessibilityValidatorConfig)
    : AccessibilityValidatorConfig :=
  {| widgetSelectors := a; axeRules := axeRules c; axeTags := axeTags c;
     debounceDelay := debounceDelay c; enableMutationObserver := enableMutationObserver c;
     maxRetries := maxRetries c; uiClassesOverride := uiClassesOverride c;
     cmsEvents := cmsEvents c; customCSS := customCSS c;
     enableDebugLogging := enableDebugLogging c |}.

(** [this.config.widgetSelectors = this.config.widgetSelectors.filter(...)]:
    a new array, stored in the configuration object. *)
Definition removeSelectors (fuel : nat) (selectors : list string) (W : World) : option World :=
  let kept := filter (fun s => s ∉ selectors) (readArray W (widgetSelectors (cfg W))) in
  let (a, W1) := alloc W in
  let W2 := with_arrays (insert a kept) W1 in
  let W3 := with_objects (insert (config (this W2)) (set_widgetSelectors a (cfg W2))) W2 in
  recheckAll_detached fuel W3.

Definition updateConfig (fuel : nat) (newConfig : PartialConfig) (W : World) : option World :=
  let (l, W1) := mergeConfig (spread (cfg W) newConfig) W in
  let W2 := with_this (set_config l) W1 in
  let W3 := match uiClassesOverride' newConfig with
            | Some _ => with_this (set_uiClasses (createUIClasses W2)) W2
            | None => W2
            end in
  recheckAll_detached fuel W3.

Definition getWidgetStates (W : World) : Outcome (list (nat * WidgetState)) :=
  match getAllWidgets W with
  | Throw e => Throw e
  | Ok widgets => Ok (map (fun w => (w, getWidgetState W w)) widgets)
  end.

(** [{ ...this.config }]: a new object with the same field values. *)
Definition getConfig (W : World) : nat * World :=
  let (l, W1) := alloc W in
  (l, with_objects (insert l (cfg W)) W1).

(** The clean-up loop of [destroy] over the popups found in the document. *)
Definition detachHandlers (popups : list nat) (d : Dom.t) : Dom.t :=
  foldl (fun d popup =>
           match e ← Dom.elems d !! popup; Dom.outsideClickHandler e with
           | Some h => Dom.removeEventListener "click" h d
           | None => d
           end) d popups.

Definition destroy (W : World) : Outcome unit * World :=
  let W1 := stopWatching W in
  let W2 := match recheckTimeout (this W1) with
            | Some t => clearTimeout t W1
            | None => W1
            end in
  match clearAll W2 with
  | (Throw e, W3) => (Throw e, W3)
  | (Ok _, W3) =>
      let W4 := with_dom (fun d =>
                  detachHandlers (Dom.byClass (POPUP (uiClasses (this W3))) d) d) W3 in
      let W5 := match Dom.getElementById "wa11y-style" (dom W4) with
                | Some s => with_dom (Dom.remove s) W4
                | None => W4
                end in
      (Ok tt, W5)
  end.

(** *** The event loop and the callers

    Time passes by [dt]; the timers that are due are taken off the queue and
    their callbacks run.  Only the validator's own callback has an effect on
    the world; the order among timers that fire in the same step is that of
    the queue's enumeration. *)

Definition tick (t : Z) (W : World) : World :=
  {| dom := dom W; arrays := arrays W; objects := objects W; nextLoc := nextLoc W;
     timers := filter (fun x => (t < x.2.1)%Z) (timers W);
     nextTimer := nextTimer W;
     now := t; hostname := hostname W; trace := trace W; this := this W |}.

Definition dueAt (t : Z) (W : World) : list Callback :=
  map (fun x => x.2.2) (filter (fun x => (x.2.1 <= t)%Z) (map_to_list (timers W))).

Definition runCallback (fuel : nat) (cb : Callback) (W : World) : option World :=
  match cb with
  | CbRecheckAll => recheckAll_detached fuel W
  | CbOther _ => Some W
  end.

Fixpoint runCallbacks (fuel : nat) (cbs : list Callback) (W : World) : option World :=
  match cbs with
  | [] => Some W
  | cb :: cbs' => W' ← runCallback fuel cb W; runCallbacks fuel cbs' W'
  end.

(** The callbacks fired, and the world after they ran. *)
Definition advance (fuel : nat) (dt : Z) (W : World) : option (list Callback * World) :=
  let t := (now W + Z.max 0 dt)%Z in
  let fired := dueAt t W in
  W' ← runCallbacks fuel fired (tick t W);
  Some (fired, W').

(** A burst of schedule requests: each request is followed by the time
    that passes before the next one (before the end, for the last). *)
Fixpoint burst (fuel : nat) (delay : option Z) (gaps : list Z) (W : World)
    : option (list Callback * World) :=
  match gaps with
  | [] => Some ([], W)
  | g :: gaps' =>
      r ← advance fuel g (debounceRecheck delay W);
      r' ← burst fuel delay gaps' r.2;
      Some (r.1 ++ r'.1, r'.2)
  end.

Definition audits (fired : list Callback) : nat :=
  length (filter (fun cb => cb = CbRecheckAll) fired).

(** The pending timers that would start an audit. *)
Definition pendingAudits (W : World) : list nat :=
  (map_to_list (filter (fun x => x.2.2 = CbRecheckAll) (timers W))).*1.

(** What a client of the public API, or the passing of time, can do. *)
Inductive Op :=
| RecheckAll
| DebounceRecheck (delay : option Z)
| StartWatching
| StopWatching
| ClearAll
| AddSelectors (selectors : list string)
| RemoveSelectors (selectors : list string)
| UpdateConfig (newConfig : PartialConfig)
| GetWidgetStates
| GetConfig
| Destroy
| Advance (dt : Z).

Definition step (fuel : nat) (op : Op) (W : World) : option World :=
  match op with
  | RecheckAll => recheckAll_detached fuel W
  | DebounceRecheck delay => Some (debounceRecheck delay W)
  | StartWatching => Some (startWatching W)
  | StopWatching => Some (stopWatching W)
  | ClearAll => Some (clearAll W).2
  | AddSelectors selectors => addSelectors fuel selectors W
  | RemoveSelectors selectors => removeSelectors fuel selectors W
  | UpdateConfig newConfig => updateConfig fuel newConfig W
  | GetWidgetStates => Some W
  | GetConfig => Some (getConfig W).2
  | Destroy => Some (destroy W).2
  | Advance dt => r ← advance fuel dt W; Some r.2
  end.

Fixpoint run (fuel : nat) (ops : list Op) (W : World) : option World :=
  match ops with
  | [] => Some W
  | op :: ops' => W' ← step fuel op W; run fuel ops' W'
  end.

(** What the holder of a reference can do to the heap: [a.push(...xs)] on an
    array and an assignment to the fields of an object. *)
Definition push (a : nat) (xs : list string) (W : World) : World :=
  with_arrays (insert a (readArray W a ++ xs)) W.

Definition assign (l : nat)
    (f : AccessibilityValidatorConfig -> AccessibilityValidatorConfig) (W : World) : World :=
  with_objects (alter f l) W.

(** *** Observations on a widget *)

Definition outlined (W : World) (widget : nat) : bool :=
  match Dom.elems (dom W) !! widget with
  | Some e => Dom.has_class (OUTLINE (uiClasses (this W))) e
  | None => false
  end.

(** The badge and popup elements attached to the widget. *)
Definition uiChildren (W : World) (widget : nat) : list nat :=
  Dom.scopeChildren widget (BADGE (uiClasses (this W))) (POPUP (uiClasses (this W))) (dom W).

Definition clearedState : WidgetState :=
  {| lastViolationCount := 0%Z; hasUI := false |}.

(** Zero violations and no UI on the widget. *)
Definition noUI (W : World) (widget : nat) : Prop :=
  getWidgetState W widget = clearedState
  /\ outlined W widget = false
  /\ uiChildren W widget = [].

(** The relation between the two fields of a widget state. *)
Definition consistent (s : WidgetState) : Prop :=
  hasUI s = true <-> (0 < lastViolationCount s)%Z.

End Validator.

(** ** Vocabulary of the statements *)

Section Vocabulary.

Context `{Platform}.

(** Everything in the world but the document, the trace and the widget
    store: what an audit never writes. *)
Definition rest (W : World) :=
  (arrays W, objects W, nextLoc W, timers W, nextTimer W, now W, hostname W,
   config (this W), recheckTimeout (this W), mutationObserver (this W),
   isInitialized (this W), uiClasses (this W)).

(** [L.forEach(n => n.remove())] *)
Definition removeAll (L : list nat) (d : Dom.t) : Dom.t :=
  foldl (fun d n => Dom.remove n d) d L.

(** The document after the first statement of [clearWidgetUI]. *)
Definition unoutlined (w : nat) (ui : UIClasses) (d : Dom.t) : Dom.t :=
  Dom.classList_remove w (OUTLINE ui) d.

(** [widgets.forEach(widget => this.clearWidgetUI(widget))] *)
Definition clearEach (ws : list nat) (W : World) : World :=
  foldl (fun W widget => clearWidgetUI widget W) W ws.

(** The number of iterations the loop guard still allows. *)
Definition remaining (attempts : Z) (W : World) : nat :=
  match maxRetries (cfg W) with
  | Some m => Z.to_nat (m + 1 - attempts)
  | None => 0
  end.

(** The world with the events appended to its trace. *)
Definition emitAll (evs : list EngineEvent) (W : World) : World :=
  foldl (fun W ev => emit ev W) W evs.

(** [k] failed attempts, each followed by the backoff. *)
Fixpoint retries (o : AxeRunOptions) (k : nat) : list EngineEvent :=
  match k with
  | 0 => []
  | S k' => AxeRun o :: Backoff 50 :: retries o k'
  end.

(** The events of an audit in which [n] invocations are allowed and each
    one fails: the last failure is followed by the optional warning. *)
Definition failureTrace (o : AxeRunOptions) (n : nat) (warn : list EngineEvent)
    : list EngineEvent :=
  match n with
  | 0 => []
  | S k => retries o k ++ AxeRun o :: warn
  end.

(** The optional array [a] holds the non-empty list [vs]. *)
Definition configured (W : World) (a : option nat) (vs : list string) : Prop :=
  exists l, a = Some l /\ readArray W l = vs /\ vs <> [].

(** The optional array [a] is absent or empty. *)
Definition unconfigured (W : World) (a : option nat) : Prop :=
  a = None \/ exists l, a = Some l /\ readArray W l = [].

(** The descriptor resolves, via DOM lookup, to a live element inside the
    subtree of the widget. *)
Definition resolvesInto (d : Dom.t) (widget : nat) (node : AxeNode) : Prop :=
  exists element,
    querySelector (String.concat " " (target node)) d = Ok (Some element)
    /\ Dom.contains d widget element = true.

(** The lookup of every descriptor of the violations completes. *)
Definition lookupsComplete (d : Dom.t) (violations : list AxeViolation) : Prop :=
  forall v n, v ∈ violations -> n ∈ nodes v ->
    exists r, querySelector (String.concat " " (target n)) d = Ok r.

(** The state that a render with [n] violations leaves. *)
Definition renderedState (n : Z) : WidgetState :=
  {| lastViolationCount := n; hasUI := (0 <? n)%Z |}.

(** The number of engine invocations that [maxRetries] allows in one
    audit: [maxRetries + 1], or none when that is not positive. *)
Definition attemptsAllowed (W : World) : nat :=
  match maxRetries (cfg W) with
  | Some m => Z.to_nat (m + 1)
  | None => 0
  end.

(** Every stored widget state relates its two fields as [consistent] says. *)
Definition cacheConsistent (W : World) : Prop :=
  forall w s, widgetCache (this W) !! w = Some s -> consistent s.

(** From [W] to [W'], each stored state is kept or replaced by a consistent
    one. *)
Definition cacheStep (W W' : World) : Prop :=
  forall w s, widgetCache (this W') !! w = Some s ->
    widgetCache (this W) !! w = Some s \/ consistent s.

(** The part of the world that scheduling reads and writes. *)
Definition sched (W : World) := (timers W, nextTimer W, recheckTimeout (this W)).

(** The timer queue and the stored timer reference agree: a pending timer
    that would start an audit is the one the validator remembers, and timer
    identities in use are below the next one to be handed out. *)
Definition timersOk (W : World) : Prop :=
  (forall t due, timers W !! t = Some (due, CbRecheckAll) -> recheckTimeout (this W) = Some t)
  /\ (forall t x, timers W !! t = Some x -> t < nextTimer W)
  /\ (forall t, recheckTimeout (this W) = Some t -> t < nextTimer W).

(** The delay after which a request made with [delay] fires: what the
    host makes of the number handed to [setTimeout]. *)
Definition effectiveDelay (delay : option Z) (W : World) : Z :=
  Z.max 0 (toLong (default 0%Z (debounceArg delay W))).

(** A delay that the host takes as it is: a 32-bit signed integer. *)
Definition isLong (d : Z) : Prop := (-2147483648 <= d <= 2147483647)%Z.

(** Everything in the world but what scheduling reads and writes: the timer
    queue, the next timer identity, the clock and the stored timer
    reference. *)
Definition unscheduled (W : World) :=
  (dom W, arrays W, objects W, nextLoc W, hostname W, trace W,
   config (this W), widgetCache (this W), mutationObserver (this W),
   isInitialized (this W), uiClasses (this W)).

(** The clock after the given waits. *)
Definition elapsed (gaps : list Z) : Z := foldr Z.add 0%Z gaps.

End Vocabulary.

(** ** A concrete platform

    A selector engine for the fragment of CSS made of comma-separated class
    selectors ([.a, .b]).  On that fragment, and on the empty string, it
    answers as the DOM does, in document order; every other string it
    rejects.  It is used to run the validator on concrete documents. *)

Module Std.

Fixpoint splitComma (s : string) : list string :=
  match s with
  | EmptyString => [""]
  | String c s' =>
      if Ascii.eqb c ","%char then "" :: splitComma s'
      else match splitComma s' with
           | x :: xs => String c x :: xs
           | [] => [String c ""]
           end
  end.

Fixpoint trimLeft (s : string) : string :=
  match s with
  | String c s' => if Ascii.eqb c " "%char then trimLeft s' else s
  | EmptyString => s
  end.

Definition identChar (c : Ascii.ascii) : bool :=
  let n := Ascii.nat_of_ascii c in
  (((48 <=? n) && (n <=? 57)) || ((65 <=? n) && (n <=? 90))
   || ((97 <=? n) && (n <=? 122)) || (n =? 45) || (n =? 95))%nat.

Fixpoint allChars (p : Ascii.ascii -> bool) (s : string) : bool :=
  match s with
  | EmptyString => true
  | String c s' => p c && allChars p s'
  end.

(** [.name] with a non-empty name. *)
Definition parseClass (s : string) : option string :=
  match trimLeft s with
  | String c name =>
      if Ascii.eqb c "."%char && negb (bool_decide (name = "")) && allChars identChar name
      then Some name else None
  | EmptyString => None
  end.

Definition parseSelectorList (s : string) : option (list string) :=
  mapM parseClass (splitComma s).

(** The children of [p], eldest first.  Identities are handed out in the
    order of creation and [appendChild] puts the new child last, so among
    the children of one parent the order is that of the identities; the
    page below numbers its elements in document order. *)
Definition childrenOf (d : Dom.t) (p : nat) : list nat :=
  merge_sort Nat.le (Dom.select (fun _ e => bool_decide (Dom.parentNode e = Some p)) d).

(** The subtree of [i] in document order (depth first, parent before
    children), to the given depth. *)
Fixpoint subtree (fuel : nat) (d : Dom.t) (i : nat) : list nat :=
  match fuel with
  | 0 => []
  | S fuel' => i :: flat_map (subtree fuel' d) (childrenOf d i)
  end.

(** The elements of the document, in document order. *)
Definition documentOrder (d : Dom.t) : list nat :=
  match Dom.elems d !! Dom.documentElement d with
  | Some _ => subtree (size (Dom.elems d)) d (Dom.documentElement d)
  | None => []
  end.

Definition matchesAny (classes : list string) (d : Dom.t) (i : nat) : bool :=
  match Dom.elems d !! i with
  | Some e => existsb (fun c => Dom.has_class c e) classes
  | None => false
  end.

Definition selectAll (s : string) (d : Dom.t) : Outcome (list nat) :=
  match parseSelectorList s with
  | None => Throw SyntaxError
  | Some classes =>
      Ok (List.filter (matchesAny classes d) (documentOrder d))
  end.

(** An engine whose every invocation fails. *)
Definition failing : Platform :=
  {| querySelectorAll := selectAll;
     axe_run := fun _ _ _ => Throw (AxeError "axe failed") |}.

(** A lenient selector engine: it answers no element for a string it cannot
    parse, where the DOM raises. *)
Definition selectAllLenient (s : string) (d : Dom.t) : Outcome (list nat) :=
  match selectAll s d with
  | Ok l => Ok l
  | Throw _ => Ok []
  end.

Definition lenient : Platform :=
  {| querySelectorAll := selectAllLenient;
     axe_run := fun _ _ _ => Throw (AxeError "axe failed") |}.

(** An engine that reports the given violations on every invocation. *)
Definition reporting (violations : list AxeViolation) : Platform :=
  {| querySelectorAll := selectAll;
     axe_run := fun _ _ _ => Ok violations |}.

End Std.

(** ** A concrete page

    [<html><head/><body><div class=card-video><img class=thumb></div>
    <div class=card-audio><img class=cover></div></body></html>] *)

Module Page.

Definition element (tagName : string) (classes : list string) (parent : option nat)
    : Dom.Element :=
  {| Dom.tagName := tagName; Dom.idAttr := ""; Dom.classList := classes;
     Dom.attributes := []; Dom.parentNode := parent; Dom.content := Dom.HostContent;
     Dom.outsideClickHandler := None |}.

Definition document : Dom.t :=
  {| Dom.elems :=
       list_to_map
         [(0, element "html" [] None);
          (1, element "head" [] (Some 0));
          (2, element "body" [] (Some 0));
          (3, element "div" ["card-video"] (Some 2));
          (4, element "img" ["thumb"] (Some 3));
          (5, element "div" ["card-audio"] (Some 2));
          (6, element "img" ["cover"] (Some 5))];
     Dom.nextElem := 7;
     Dom.documentElement := 0;
     Dom.head := 1;
     Dom.docListeners := [];
     Dom.domWrites := [] |}.

(** The fields of a validator as the class initialises them. *)
Definition newValidator (config : nat) (ui : UIClasses) : Validator :=
  {| config := config; widgetCache := ∅; recheckTimeout := None;
     mutationObserver := false; isInitialized := false; uiClasses := ui |}.

(** The caller's configuration [{ widgetSelectors: selectors }], the array
    at location 2. *)
Definition userConfig : AccessibilityValidatorConfig :=
  {| widgetSelectors := 2; axeRules := None; axeTags := None;
     debounceDelay := None; enableMutationObserver := None; maxRetries := None;
     uiClassesOverride := None; cmsEvents := None; customCSS := None;
     enableDebugLogging := None |}.

(** The world in which a validator for [selectors] has its merged
    configuration and no audit has run yet. *)
Definition world (selectors : list string) : World :=
  let W0 :=
    {| dom := document;
       arrays := <[2 := selectors]> staticArrays;
       objects := ∅;
       nextLoc := 3;
       timers := ∅; nextTimer := 0; now := 0%Z;
       hostname := "www.example.org";
       trace := [];
       this := newValidator 0 defaultUIClasses |} in
  let (l, W1) := mergeConfig userConfig W0 in
  with_this (set_config l) W1.

Definition imageAlt : AxeViolation :=
  {| violation_id := "image-alt"; impact := Some critical;
     tags := ["wcag2a"]; description := "Images must have alternate text";
     help := "Images must have alternate text"; helpUrl := "";
     nodes := [ {| node_html := "<img class=thumb>"; target := [".thumb"] |} ] |}.


(** The platform on which the engine reports [imageAlt] on the thumbnail. *)
Definition reporting : Platform := Std.reporting [imageAlt].

End Page.

(** ** Further vocabulary *)

Section MoreVocabulary.

Context `{Platform}.

Definition is_Backoff (ev : EngineEvent) : bool :=
  match ev with Backoff _ => true | _ => false end.

(** The debug line of a successful attempt, when debug logging is on. *)
Definition debugLog (W : World) (violations : list AxeViolation) : list EngineEvent :=
  if debug W then [ConsoleLog (ruleInfo W) (map summarize violations)] else [].

(** Element identities in use are below the next one to be handed out. *)
Definition domFresh (d : Dom.t) : Prop :=
  forall i e, Dom.elems d !! i = Some e -> i < Dom.nextElem d.

(** [element.classList.add(c)] on the element itself. *)
Definition withClass (c : string) (e : Dom.Element) : Dom.Element :=
  if Dom.has_class c e then e else Dom.set_classList (Dom.classList e ++ [c]) e.

(** The badge and the popup as [renderWidgetUI] attaches them to the
    widget. *)
Definition attachedBadge (W : World) (widget : nat) (n : Z) : Dom.Element :=
  Dom.set_parentNode (Some widget) (createBadge W n).

Definition attachedPopup (W : World) (widget btn popup : nat)
    (violations : list AxeViolation) : Dom.Element :=
  Dom.set_handler (Some (Dom.OutsideClick btn popup widget))
    (Dom.set_parentNode (Some widget) (createPopup W violations)).

(** The outline class is not also the badge or the popup class. *)
Definition distinctUI (ui : UIClasses) : Prop :=
  OUTLINE ui <> BADGE ui /\ OUTLINE ui <> POPUP ui.

(** What an audit may do to an element [e] that is already there, giving
    [e']: add or remove the outline class, and detach it when it carries
    the badge or the popup class.  Nothing else of it changes. *)
Definition kept (ui : UIClasses) (e e' : Dom.Element) : Prop :=
  Dom.tagName e' = Dom.tagName e
  /\ Dom.idAttr e' = Dom.idAttr e
  /\ Dom.attributes e' = Dom.attributes e
  /\ Dom.content e' = Dom.content e
  /\ Dom.outsideClickHandler e' = Dom.outsideClickHandler e
  /\ filter (fun c => c ≠ OUTLINE ui) (Dom.classList e')
     = filter (fun c => c ≠ OUTLINE ui) (Dom.classList e)
  /\ (Dom.parentNode e' = Dom.parentNode e
      \/ (Dom.parentNode e' = None
          /\ (Dom.has_class (BADGE ui) e = true \/ Dom.has_class (POPUP ui) e = true))).

(** From [W] to [W']: what is outside the document, the trace and the
    widget store is unchanged; every element is still there and [kept];
    listeners are only added. *)
Definition auditStep (W W' : World) : Prop :=
  rest W' = rest W
  /\ Dom.nextElem (dom W) <= Dom.nextElem (dom W')
  /\ domFresh (dom W')
  /\ Dom.documentElement (dom W') = Dom.documentElement (dom W)
  /\ Dom.head (dom W') = Dom.head (dom W)
  /\ (exists l, Dom.docListeners (dom W') = Dom.docListeners (dom W) ++ l)
  /\ (forall i e, Dom.elems (dom W) !! i = Some e ->
        exists e', Dom.elems (dom W') !! i = Some e' /\ kept (uiClasses (this W)) e e').

(** The widget as a render with [n] violations leaves it: the count
    stored, outlined and with two UI children exactly when [n > 0]. *)
Definition rendered (W : World) (widget : nat) (n : nat) : Prop :=
  getWidgetState W widget = renderedState (Z.of_nat n)
  /\ outlined W widget = (if n is 0 then false else true)
  /\ length (uiChildren W widget) = (if n is 0 then 0 else 2).

(** The invariant of an audit over the widgets [ws]: each of them is in the
    document, is not its own parent, and its stored state, its outline and
    its UI children agree on some number of violations. *)
Definition coherentAt (ws : list nat) (W : World) : Prop :=
  domFresh (dom W)
  /\ distinctUI (uiClasses (this W))
  /\ forall w, w ∈ ws ->
       is_Some (Dom.elems (dom W) !! w)
       /\ Dom.parent_of (dom W) w <> Some w
       /\ exists n, rendered W w n.

(** The world in which attempt number [k] of the loop of [recheckAll]
    starts, counting from 0, when the loop is entered in [W] with
    [attempts = a] and the attempts before it have failed: the world that
    the [catch] block left after the attempt before. *)
Fixpoint attemptStart (ws : list nat) (k : nat) (a : Z) (W : World) : World :=
  match k with
  | 0 => W
  | S k' =>
      match attempt ws W with
      | (Throw err, W1) => attemptStart ws k' (a + 1) (onFailure ws (a + 1) err W1)
      | (Ok _, W1) => W1
      end
  end.

(** The update [{}]. *)
Definition emptyUpdate : PartialConfig :=
  {| widgetSelectors' := None; axeRules' := None; axeTags' := None;
     debounceDelay' := None; enableMutationObserver' := None; maxRetries' := None;
     uiClassesOverride' := None; cmsEvents' := None; customCSS' := None;
     enableDebugLogging' := None |}.

(** The selector list the validator reads. *)
Definition selectors (W : World) : list string :=
  readArray W (widgetSelectors (cfg W)).

(** The world after the first two statements of [destroy]: the observer
    stopped and the stored timer cancelled. *)
Definition halted (W : World) : World :=
  let W1 := stopWatching W in
  match recheckTimeout (this W1) with
  | Some t => clearTimeout t W1
  | None => W1
  end.

End MoreVocabulary.

(** ** The change watcher

    The callback that [setupMutationObserver] hands to the observer.  The
    three selector queries it makes on an element belong to the platform. *)

Class ElementQueries := {
  (** [element.matches(selector)] *)
  matches : string -> Dom.t -> nat -> Outcome bool;
  (** [element.querySelector(selector) !== null] *)
  hasDescendant : string -> Dom.t -> nat -> Outcome bool;
  (** [element.closest(selector) !== null] *)
  hasClosest : string -> Dom.t -> nat -> Outcome bool
}.

(** A node of a mutation record: an element of the store, or a node of
    another type (text, comment). *)
Inductive Node :=
| ElementNode (i : nat)
| OtherNode.

Inductive MutationType := childList | attributes | characterData.

#[global] Instance MutationType_eq_dec : EqDecision MutationType.
Proof. solve_decision. Defined.

Record MutationRecord := {
  mutationType : MutationType;
  mutationTarget : nat;
  addedNodes : list Node;
  removedNodes : list Node;
  attributeName : option string
}.

Definition A11Y_ATTRIBUTES : list string :=
  ["alt"; "src"; "href"; "title"; "aria-label"; "aria-labelledby"; "role"].

(** [element.closest('.' + c) !== null] for a valid class name [c] (for
    which the selector parses and matches the token): the element or one of
    its ancestors carries the class. *)
Fixpoint closestClass (fuel : nat) (d : Dom.t) (c : string) (i : nat) {struct fuel} : bool :=
  match Dom.elems d !! i with
  | Some e =>
      Dom.has_class c e
      || match fuel with
         | 0 => false
         | S fuel' =>
             match Dom.parentNode e with
             | Some p => closestClass fuel' d c p
             | None => false
             end
         end
  | None => false
  end.

(** [a || b] where the operands may throw. *)
Definition orO (a b : Outcome bool) : Outcome bool :=
  match a with
  | Ok false => b
  | _ => a
  end.

Section Watcher.

Context `{Platform} `{ElementQueries}.

Definition isTargetWidget (W : World) (element : nat) : Outcome bool :=
  some (fun selector => matches selector (dom W) element)
       (readArray W (widgetSelectors (cfg W))).

Definition containsWidget (W : World) (element : nat) : Outcome bool :=
  some (fun selector => hasDescendant selector (dom W) element)
       (readArray W (widgetSelectors (cfg W))).

Definition isInsideWidget (W : World) (element : nat) : Outcome bool :=
  some (fun selector => hasClosest selector (dom W) element)
       (readArray W (widgetSelectors (cfg W))).

(** [isOurUIElement(element)], with [None] for null. *)
Definition isOurUIElement (W : World) (element : option nat) : bool :=
  match element with
  | None => false
  | Some i =>
      match Dom.elems (dom W) !! i with
      | None => false
      | Some e =>
          let ui := uiClasses (this W) in
          let fuel := size (Dom.elems (dom W)) in
          Dom.has_class (BADGE ui) e
          || Dom.has_class (POPUP ui) e
          || closestClass fuel (dom W) (BADGE ui) i
          || closestClass fuel (dom W) (POPUP ui) i
      end
  end.

Definition affectsWidget (W : World) (mutation : MutationRecord) : Outcome bool :=
  let target := mutationTarget mutation in
  orO (isTargetWidget W target)
      (orO (containsWidget W target) (isInsideWidget W target)).

(** [node.nodeType === Node.ELEMENT_NODE && isOurUIElement(node)] *)
Definition isOurUINode (W : World) (node : Node) : bool :=
  match node with
  | ElementNode i => isOurUIElement W (Some i)
  | OtherNode => false
  end.

(** The second guard of the loop: a class change on an outlined target. *)
Definition isOutlineChange (W : World) (mutation : MutationRecord) : bool :=
  bool_decide (mutationType mutation = attributes)
  && bool_decide (attributeName mutation = Some "class")
  && outlined W (mutationTarget mutation).

(** The third guard: a child-list change that involves our own nodes. *)
Definition isOurChildList (W : World) (mutation : MutationRecord) : bool :=
  bool_decide (mutationType mutation = childList)
  && existsb (isOurUINode W) (addedNodes mutation ++ removedNodes mutation).

(** [A11Y_ATTRIBUTES.includes(mutation.attributeName)] *)
Definition isA11yAttribute (mutation : MutationRecord) : bool :=
  match attributeName mutation with
  | Some a => bool_decide (a ∈ A11Y_ATTRIBUTES)
  | None => false
  end.

(** The loop over the batch: the value of [shouldRecheck] when it ends. *)
Fixpoint shouldRecheck (W : World) (mutations : list MutationRecord) : Outcome bool :=
  match mutations with
  | [] => Ok false
  | mutation :: rest =>
      if isOurUIElement W (Some (mutationTarget mutation)) then shouldRecheck W rest
      else if isOutlineChange W mutation then shouldRecheck W rest
      else if isOurChildList W mutation then shouldRecheck W rest
      else
        match affectsWidget W mutation with
        | Throw e => Throw e
        | Ok false => shouldRecheck W rest
        | Ok true =>
            if bool_decide (mutationType mutation = childList) then Ok true
            else if bool_decide (mutationType mutation = attributes)
                    && isA11yAttribute mutation then Ok true
            else shouldRecheck W rest
        end
  end.

(** The observer's callback. *)
Definition observerCallback (mutations : list MutationRecord) (W : World)
    : Outcome unit * World :=
  match shouldRecheck W mutations with
  | Throw e => (Throw e, W)
  | Ok true => (Ok tt, debounceRecheck None W)
  | Ok false => (Ok tt, W)
  end.

(** A record that the loop passes over before any selector query: its
    target is one of our UI elements, it is a class change on an outlined
    target, or it is a child-list change involving one of our nodes. *)
Definition skipped (W : World) (mutation : MutationRecord) : bool :=
  isOurUIElement W (Some (mutationTarget mutation))
  || isOutlineChange W mutation
  || isOurChildList W mutation.

(** A record of a kind that can schedule a re-audit. *)
Definition triggering (mutation : MutationRecord) : bool :=
  bool_decide (mutationType mutation = childList)
  || (bool_decide (mutationType mutation = attributes) && isA11yAttribute mutation).

(** The element carries the badge or the popup class. *)
Definition ownUI (W : World) (i : nat) : Prop :=
  exists e, Dom.elems (dom W) !! i = Some e
    /\ (Dom.has_class (BADGE (uiClasses (this W))) e = true
        \/ Dom.has_class (POPUP (uiClasses (this W))) e = true).

(** The mutation record that the observer receives for a DOM write. *)
Definition recordsWrite (w : Dom.DomWrite) (m : MutationRecord) : Prop :=
  match w with
  | Dom.WClassRemove e c | Dom.WClassAdd e c =>
      mutationType m = attributes /\ mutationTarget m = e
      /\ attributeName m = Some "class"
  | Dom.WAppendChild p c =>
      mutationType m = childList /\ mutationTarget m = p
      /\ ElementNode c ∈ addedNodes m
  | Dom.WRemove c =>
      mutationType m = childList /\ ElementNode c ∈ removedNodes m
  end.

(** The element is the validator's style sheet. *)
Definition isStyleSheet (W : World) (i : nat) : Prop :=
  exists e, Dom.elems (dom W) !! i = Some e /\ Dom.idAttr e = "wa11y-style".

(** A DOM write of the validator's own: a class change, the removal of a
    badge or a popup, or the insertion of a badge, a popup or the style
    sheet. *)
Definition ownWrite (W : World) (w : Dom.DomWrite) : Prop :=
  match w with
  | Dom.WClassRemove _ _ | Dom.WClassAdd _ _ => True
  | Dom.WAppendChild _ c => ownUI W c \/ isStyleSheet W c
  | Dom.WRemove c => ownUI W c
  end.

Definition insertsStyle (W : World) (w : Dom.DomWrite) : Prop :=
  match w with
  | Dom.WAppendChild _ c => isStyleSheet W c
  | _ => False
  end.

(** An audit step all of whose DOM writes are the validator's own. *)
Definition quietStep (W W' : World) : Prop :=
  auditStep W W'
  /\ exists l, Dom.domWrites (dom W') = Dom.domWrites (dom W) ++ l
               /\ forall w, w ∈ l -> ownWrite W' w.

End Watcher.

(** Element queries answered by the class-selector engine of [Std], for
    the elements connected to the document. *)
Definition classQueries : ElementQueries :=
  {| matches := fun s d i =>
       match Std.selectAll s d with
       | Ok l => Ok (bool_decide (i ∈ l))
       | Throw e => Throw e
       end;
     hasDescendant := fun s d i =>
       match Std.selectAll s d with
       | Ok l => Ok (existsb (fun j => Dom.has_ancestor (size (Dom.elems d)) d i j) l)
       | Throw e => Throw e
       end;
     hasClosest := fun s d i =>
       match Std.selectAll s d with
       | Ok l =>
           Ok (existsb (fun j => bool_decide (j = i)
                                 || Dom.has_ancestor (size (Dom.elems d)) d j i) l)
       | Throw e => Throw e
       end |}.

(** ** The click handlers of the badge and the popup

    The handlers are kept as what they do to the document when they are
    called; [e.stopPropagation()] concerns the dispatch of the event and
    has no part in it.  Their attribute writes go to the attribute lists of
    the elements; the write log of the document records class and tree
    writes and is not touched by them. *)

(** An attribute list keeps one entry per name, in insertion order. *)
Fixpoint attr_get (a : string) (l : list (string * string)) : option string :=
  match l with
  | [] => None
  | (k, v) :: l' => if decide (k = a) then Some v else attr_get a l'
  end.

Fixpoint attr_set (a v : string) (l : list (string * string)) : list (string * string) :=
  match l with
  | [] => [(a, v)]
  | (k, x) :: l' => if decide (k = a) then (k, v) :: l' else (k, x) :: attr_set a v l'
  end.

Definition attr_remove (a : string) (l : list (string * string)) : list (string * string) :=
  filter (fun kv => kv.1 ≠ a) l.

Definition set_attributes (l : list (string * string)) (e : Dom.Element) : Dom.Element :=
  {| Dom.tagName := Dom.tagName e; Dom.idAttr := Dom.idAttr e;
     Dom.classList := Dom.classList e; Dom.attributes := l;
     Dom.parentNode := Dom.parentNode e; Dom.content := Dom.content e;
     Dom.outsideClickHandler := Dom.outsideClickHandler e |}.

(** [element.getAttribute(a)] *)
Definition getAttribute (d : Dom.t) (i : nat) (a : string) : option string :=
  e ← Dom.elems d !! i; attr_get a (Dom.attributes e).

(** [element.hasAttribute(a)] *)
Definition hasAttribute (d : Dom.t) (i : nat) (a : string) : bool :=
  bool_decide (is_Some (getAttribute d i a)).

(** [element.setAttribute(a, v)] *)
Definition setAttribute (i : nat) (a v : string) (d : Dom.t) : Dom.t :=
  Dom.with_elems
    (alter (fun e => set_attributes (attr_set a v (Dom.attributes e)) e) i) d.

(** [element.removeAttribute(a)] *)
Definition removeAttribute (i : nat) (a : string) (d : Dom.t) : Dom.t :=
  Dom.with_elems
    (alter (fun e => set_attributes (attr_remove a (Dom.attributes e)) e) i) d.

(** [document.querySelectorAll('.' + c + ':not([hidden])')] *)
Definition notHidden (c : string) (d : Dom.t) : list nat :=
  Dom.select (fun i e => Dom.connected d i && Dom.has_class c e
                         && negb (bool_decide (is_Some (attr_get "hidden" (Dom.attributes e))))) d.

(** The closures [open], [close] and [closeOthers] of
    [setupUIInteractions(btn, popup, widget)]. *)
Definition openPopup (btn popup : nat) (d : Dom.t) : Dom.t :=
  setAttribute btn "aria-expanded" "true" (removeAttribute popup "hidden" d).

Definition closePopup (btn popup : nat) (d : Dom.t) : Dom.t :=
  setAttribute btn "aria-expanded" "false" (setAttribute popup "hidden" "" d).

Definition closeOthers (popup : nat) (W : World) : World :=
  with_dom (fun d =>
    foldl (fun d p => if decide (p = popup) then d else setAttribute p "hidden" "" d)
          d (notHidden (POPUP (uiClasses (this W))) d)) W.

(** The click listener of the badge. *)
Definition badgeClick (btn popup : nat) (W : World) : World :=
  let willOpen := hasAttribute (dom W) popup "hidden" in
  let W1 := closeOthers popup W in
  if willOpen then with_dom (openPopup btn popup) W1
  else with_dom (closePopup btn popup) W1.

(** The click listener of the close button of the popup. *)
Definition closeClick (btn popup : nat) (W : World) : World :=
  with_dom (closePopup btn popup) W.

(** The document-level click listener, called with [e.target]. *)
Definition outsideClick (h : Dom.Handler) (target : option nat) (W : World) : World :=
  match h with
  | Dom.OutsideClick btn popup widget =>
      match target with
      | Some t =>
          if negb (Dom.contains (dom W) widget t)
          then with_dom (closePopup btn popup) W
          else W
      | None => W
      end
  end.

(** The popup is shown exactly when its badge announces it as expanded. *)
Definition inSync (W : World) (btn popup : nat) : Prop :=
  hasAttribute (dom W) popup "hidden" = false
  <-> getAttribute (dom W) btn "aria-expanded" = Some "true".


(** From [d] to [d']: the same elements, differing at most in their
    attribute lists; listeners and write log as they were. *)
Definition attrsOnly (d d' : Dom.t) : Prop :=
  Dom.nextElem d' = Dom.nextElem d
  /\ Dom.documentElement d' = Dom.documentElement d
  /\ Dom.head d' = Dom.head d
  /\ Dom.docListeners d' = Dom.docListeners d
  /\ Dom.domWrites d' = Dom.domWrites d
  /\ forall i,
       match Dom.elems d !! i, Dom.elems d' !! i with
       | Some e, Some e' => e' = set_attributes (Dom.attributes e') e
       | None, None => True
       | _, _ => False
       end.

(** ** Construction and the event listeners

    The page that hosts the validator: the world, the [readyState] of the
    document and the listeners that [initialize] and [setupEventListeners]
    register on [window] and [document], in registration order.  Each
    listener is a closure over the validator; it is kept as the call it
    makes.  (The assignment [window.axe = axe] of the constructor touches
    nothing the validator reads.) *)

Inductive EventTarget := window | document.

Inductive ReadyState := loading | interactive | complete.

Inductive Listener :=
| RecheckListener          (* () => this.recheckAll() *)
| CmsListener              (* () => this.debounceRecheck(500) *)
| UnloadListener           (* () => this.destroy() *)
| ReadyListener.           (* () => this.start() *)

#[global] Instance EventTarget_eq_dec : EqDecision EventTarget.
Proof. solve_decision. Defined.

#[global] Instance Listener_eq_dec : EqDecision Listener.
Proof. solve_decision. Defined.

#[global] Instance ReadyState_eq_dec : EqDecision ReadyState.
Proof. solve_decision. Defined.

Record Host := {
  world : World;
  readyState : ReadyState;
  listeners : list (EventTarget * string * Listener)
}.

Definition with_world (f : World -> World) (h : Host) : Host :=
  {| world := f (world h); readyState := readyState h; listeners := listeners h |}.

(** [target.addEventListener(type, listener)] with a fresh closure. *)
Definition addListener (target : EventTarget) (type : string) (l : Listener) (h : Host)
    : Host :=
  {| world := world h; readyState := readyState h;
     listeners := listeners h ++ [(target, type, l)] |}.

Definition set_isInitialized (b : bool) (v : Validator) : Validator :=
  {| config := config v; widgetCache := widgetCache v; recheckTimeout := recheckTimeout v;
     mutationObserver := mutationObserver v; isInitialized := b;
     uiClasses := uiClasses v |}.

(** The listeners registered on [target] for [type], in the order in which
    they run. *)
Definition listenersFor (target : EventTarget) (type : string) (h : Host) : list Listener :=
  map snd (filter (fun x => x.1 = (target, type)) (listeners h)).

Section Lifecycle.

Context `{Platform}.

(** [start()]: the promise of the audit is dropped. *)
Definition start (fuel : nat) (W : World) : option World :=
  W1 ← recheckAll_detached fuel W;
  Some (if default false (enableMutationObserver (cfg W1)) then startWatching W1 else W1).

Definition setupEventListeners (h : Host) : Host :=
  let h1 := addListener window "wa11y:recheck" RecheckListener h in
  let h2 :=
    match cmsEvents (cfg (world h)) with
    | Some a =>
        foldl (fun h eventName => addListener document eventName CmsListener h)
              h1 (readArray (world h) a)
    | None => h1
    end in
  addListener window "beforeunload" UnloadListener h2.

Definition initialize (fuel : nat) (h : Host) : option Host :=
  if isInitialized (this (world h)) then Some h
  else
    let h1 := with_world injectCSS h in
    let h2 := setupEventListeners h1 in
    h3 ← match readyState h2 with
         | loading => Some (addListener document "DOMContentLoaded" ReadyListener h2)
         | _ => W' ← start fuel (world h2); Some (with_world (fun _ => W') h2)
         end;
    Some (with_world (with_this (set_isInitialized true)) h3).

(** [new AccessibilityValidator(config)]: the fields as the class
    initialises them, then the body of the constructor.  ([uiClasses] has no
    initialiser; it is assigned before it is read.) *)
Definition construct (fuel : nat) (userConfig : AccessibilityValidatorConfig) (h : Host)
    : option Host :=
  let (l, W1) := mergeConfig userConfig (world h) in
  let W2 := with_this (fun _ =>
              {| config := l; widgetCache := ∅; recheckTimeout := None;
                 mutationObserver := false; isInitialized := false;
                 uiClasses := defaultUIClasses |}) W1 in
  let W3 := with_this (set_uiClasses (createUIClasses W2)) W2 in
  initialize fuel (with_world (fun _ => W3) h).

(** What a listener does when it is called.  An exception raised by
    [destroy] ends the listener and goes no further. *)
Definition runListener (fuel : nat) (l : Listener) (W : World) : option World :=
  match l with
  | RecheckListener => recheckAll_detached fuel W
  | CmsListener => Some (debounceRecheck (Some 500%Z) W)
  | UnloadListener => Some (destroy W).2
  | ReadyListener => start fuel W
  end.

Fixpoint runListeners (fuel : nat) (ls : list Listener) (W : World) : option World :=
  match ls with
  | [] => Some W
  | l :: ls' => W' ← runListener fuel l W; runListeners fuel ls' W'
  end.

(** An event of the given type reaches [target]: the listeners registered
    for it run in registration order. *)
Definition dispatchEvent (fuel : nat) (target : EventTarget) (type : string) (h : Host)
    : option Host :=
  W' ← runListeners fuel (listenersFor target type h) (world h);
  Some (with_world (fun _ => W') h).

End Lifecycle.

(** ** Concrete platforms and hosts *)

(** [domFresh] as a check on a given document. *)
Definition domFreshb (d : Dom.t) : bool :=
  forallb (fun ie => Nat.ltb ie.1 (Dom.nextElem d)) (map_to_list (Dom.elems d)).

(** An engine whose first invocation fails and whose later invocations
    report no violation. *)
Definition failingOnce : Platform :=
  {| querySelectorAll := Std.selectAll;
     axe_run := fun n _ _ =>
       match n with
       | 0 => Throw (AxeError "axe failed")
       | S _ => Ok []
       end |}.

(** The page of [Page] before any validator is constructed, with the
    caller's selector array at location 2. *)
Definition pageHost (selectors : list string) (state : ReadyState) : Host :=
  {| world :=
       {| dom := Page.document;
          arrays := <[2 := selectors]> staticArrays;
          objects := ∅;
          nextLoc := 3;
          timers := ∅; nextTimer := 0; now := 0%Z;
          hostname := "www.example.org";
          trace := [];
          this := Page.newValidator 0 defaultUIClasses |};
     readyState := state;
     listeners := [] |}.

(** The page with its validator, no listener registered yet. *)
Definition validatorHost (selectors : list string) : Host :=
  {| world := Page.world selectors; readyState := complete; listeners := [] |}.

(** The page after a render of one violation on the video card: badge 7
    and popup 8 are attached to element 3. *)
Definition renderedPage : World :=
  renderWidgetUI 3 [Page.imageAlt] (Page.world [".card-video"]).



(** A violation with two affected nodes, the thumbnail and a node whose
    target is no selector, and the platform on which the engine reports it.
    The video card is rendered on the first node; for the audio card the
    lookup of the second node raises. *)
Definition straddling : AxeViolation :=
  {| violation_id := "image-alt"; impact := Some critical;
     tags := ["wcag2a"]; description := "Images must have alternate text";
     help := "Images must have alternate text"; helpUrl := "";
     nodes := [ {| node_html := "<img class=thumb>"; target := [".thumb"] |};
                {| node_html := "<img>"; target := ["???"] |} ] |}.

Definition misreporting : Platform := Std.reporting [straddling].

(** The page after its first audit has rendered the video card (badge 8 and
    popup 9, the style sheet being element 7), with the observer running
    and a re-audit scheduled. *)
Definition busyPage : World :=
  default (Page.world [".card-video"])
    (run (H := Page.reporting) 3 [RecheckAll; StartWatching; DebounceRecheck None]
         (Page.world [".card-video"])).

(** The update [{ maxRetries: 3, customCSS: '.x{}', uiClasses: { BADGE: 'my-badge' } }]. *)
Definition richUpdate : PartialConfig :=
  {| widgetSelectors' := None; axeRules' := None; axeTags' := None;
     debounceDelay' := None; enableMutationObserver' := None; maxRetries' := Some 3%Z;
     uiClassesOverride' :=
       Some {| OUTLINE' := None; BADGE' := Some "my-badge"; POPUP' := None; CLOSE' := None |};
     cmsEvents' := None; customCSS' := Some ".x{}";
     enableDebugLogging' := None |}.

(** The page with a validator configured with
    [{ axeRules: ['color-contrast'], axeTags: ['wcag2a'] }]: the arrays at
    locations 3 and 4. *)
Definition rulesConfig : AccessibilityValidatorConfig :=
  {| widgetSelectors := 2; axeRules := Some 3; axeTags := Some 4;
     debounceDelay := None; enableMutationObserver := None; maxRetries := None;
     uiClassesOverride := None; cmsEvents := None; customCSS := None;
     enableDebugLogging := None |}.

Definition rulesWorld : World :=
  let W0 :=
    {| dom := Page.document;
       arrays := <[4 := ["wcag2a"]]>
                   (<[3 := ["color-contrast"]]> (<[2 := [".card-video"]]> staticArrays));
       objects := ∅;
       nextLoc := 5;
       timers := ∅; nextTimer := 0; now := 0%Z;
       hostname := "www.example.org";
       trace := [];
       this := Page.newValidator 0 defaultUIClasses |} in
  let (l, W1) := mergeConfig rulesConfig W0 in
  with_this (set_config l) W1.

(** * Properties *)

Section Properties.

Context `{Platform}.
Lemma rest_cfg W W' : rest W = rest W' -> cfg W = cfg W'.
Proof. unfold rest, cfg. intros [= _ Ho _ _ _ _ _ Hc _ _ _ _]. by rewrite Ho, Hc. Qed.

Lemma rest_clearWidgetUI w W : rest (clearWidgetUI w W) = rest W.
Proof. reflexivity. Qed.

Lemma rest_renderWidgetUI w vs W : rest (renderWidgetUI w vs W) = rest W.
Proof.
  unfold renderWidgetUI.
  destruct (unchanged _ _); [done|].
  destruct (Z.of_nat (length vs) =? 0)%Z; done.
Qed.

Lemma rest_injectCSS W : rest (injectCSS W) = rest W.
Proof. unfold injectCSS. by destruct (Dom.getElementById _ _). Qed.

Lemma rest_foldl {A} (f : World -> A -> World) l :
  (forall W a, rest (f W a) = rest W) -> forall W, rest (foldl f W l) = rest W.
Proof.
  intros Hf. induction l as [|a l IH]; intros W; simpl; [done|].
  by rewrite IH, Hf.
Qed.

Lemma rest_emit ev W : rest (emit ev W) = rest W.
Proof. reflexivity. Qed.

Lemma rest_renderAll vs ws W : rest (renderAll vs ws W).2 = rest W.
Proof.
  revert W. induction ws as [|w ws IH]; intros W; simpl; [done|].
  destruct (widgetViolations _ _ _); simpl; [|done].
  by rewrite IH, rest_renderWidgetUI.
Qed.

Lemma rest_attempt ws W : rest (attempt ws W).2 = rest W.
Proof.
  unfold attempt.
  destruct (axe_run _ _ _); simpl; [|done].
  rewrite rest_renderAll. by destruct (debug _).
Qed.

Lemma rest_onFailure ws a err W : rest (onFailure ws a err W) = rest W.
Proof.
  unfold onFailure. destruct (gtMax _ _); [|done].
  rewrite rest_foldl; [by destruct (debug W)|].
  intros; apply rest_renderWidgetUI.
Qed.

Lemma rest_retryLoop fuel ws a W W' :
  retryLoop fuel ws a W = Some W' -> rest W' = rest W.
Proof.
  revert a W. induction fuel as [|fuel IH]; intros a W; simpl; [done|].
  destruct (leMax _ _); [|by intros [= <-]].
  destruct (attempt ws W) as [[u|err] W1] eqn:E.
  - intros [= <-]. by rewrite <- (rest_attempt ws W), E.
  - intros Hl. apply IH in Hl. rewrite Hl, rest_onFailure.
    by rewrite <- (rest_attempt ws W), E.
Qed.

Lemma rest_recheckAll fuel W r :
  recheckAll fuel W = Some r -> rest r.2 = rest W.
Proof.
  unfold recheckAll.
  destruct (getAllWidgets _) as [ws|e]; [|intros [= <-]; apply rest_injectCSS].
  destruct (length ws =? 0)%nat; [intros [= <-]; apply rest_injectCSS|].
  destruct (retryLoop _ _ _ _) as [W'|] eqn:E; simpl; [|done].
  intros [= <-]. simpl. apply rest_retryLoop in E. rewrite E.
  rewrite rest_foldl; [apply rest_injectCSS|]. intros; apply rest_clearWidgetUI.
Qed.

(** ** Facts about the document *)

Lemma elem_of_select p d i :
  i ∈ Dom.select p d <-> exists e, Dom.elems d !! i = Some e /\ p i e = true.
Proof.
  unfold Dom.select. rewrite list_elem_of_fmap. split.
  - intros [[i' e] [-> Hin]]. apply list_elem_of_filter in Hin as [Hp Hin].
    apply elem_of_map_to_list in Hin. eauto.
  - intros [e [Hl Hp]]. exists (i, e). split; [done|].
    apply list_elem_of_filter. split; [done|]. by apply elem_of_map_to_list.
Qed.

Lemma nil_of_no_elem {A} (l : list A) : (forall x, x ∉ l) -> l = [].
Proof. destruct l as [|a l]; [done|]. intros Hn. destruct (Hn a). by left. Qed.

Lemma elem_of_scopeChildren w a b d i :
  i ∈ Dom.scopeChildren w a b d <->
  exists e, Dom.elems d !! i = Some e /\ Dom.parentNode e = Some w
            /\ (Dom.has_class a e = true \/ Dom.has_class b e = true).
Proof.
  unfold Dom.scopeChildren. rewrite elem_of_select.
  split; intros [e [Hl Hp]]; exists e; split; try done.
  - apply andb_prop in Hp as [Hp Hc]. apply bool_decide_eq_true in Hp.
    apply orb_prop in Hc. done.
  - destruct Hp as [Hp Hc]. apply andb_true_intro. split.
    + by apply bool_decide_eq_true.
    + apply orb_true_iff. done.
Qed.

Lemma set_parentNode_idem p (x : option Dom.Element) :
  Dom.set_parentNode p <$> (Dom.set_parentNode p <$> x) = Dom.set_parentNode p <$> x.
Proof. by destruct x. Qed.

Lemma elems_removeAll L d i :
  Dom.elems (removeAll L d) !! i =
  if decide (i ∈ L) then Dom.set_parentNode None <$> Dom.elems d !! i
  else Dom.elems d !! i.
Proof.
  revert d. induction L as [|n L IH]; intros d; unfold removeAll; cbn [foldl].
  - case_decide as Hd; [by apply elem_of_nil in Hd|done].
  - fold (removeAll L (Dom.remove n d)). rewrite IH.
    unfold Dom.remove, Dom.log_write, Dom.with_elems; cbn [Dom.elems].
    rewrite lookup_alter.
    destruct (decide (i ∈ L)) as [HL|HL].
    + rewrite (decide_True (P := i ∈ n :: L)) by (by right).
      case_decide; [subst; by rewrite set_parentNode_idem|done].
    + case_decide as Hn.
      * subst. by rewrite (decide_True (P := i ∈ i :: L)) by (by left).
      * rewrite (decide_False (P := i ∈ n :: L)); [done|]. intros Hin.
        apply elem_of_cons in Hin as [->|?]; done.
Qed.

Lemma domWrites_removeAll L d :
  Dom.domWrites (removeAll L d) = Dom.domWrites d ++ map Dom.WRemove L.
Proof.
  revert d. induction L as [|n L IH]; intros d; simpl.
  - by rewrite app_nil_r.
  - rewrite IH. simpl. by rewrite <- app_assoc.
Qed.

Lemma docListeners_removeAll L d :
  Dom.docListeners (removeAll L d) = Dom.docListeners d.
Proof. revert d. induction L as [|n L IH]; intros d; simpl; [done|]. by rewrite IH. Qed.

Lemma dom_clearWidgetUI w W :
  dom (clearWidgetUI w W) =
  let ui := uiClasses (this W) in
  removeAll (Dom.scopeChildren w (BADGE ui) (POPUP ui) (unoutlined w ui (dom W)))
            (unoutlined w ui (dom W)).
Proof. reflexivity. Qed.

(** What [clearWidgetUI] leaves of an element: its parent is kept or
    dropped, and only the outline class of the widget goes. *)
Lemma elems_clearWidgetUI w W i e' :
  Dom.elems (dom (clearWidgetUI w W)) !! i = Some e' ->
  exists e, Dom.elems (dom W) !! i = Some e
    /\ (Dom.parentNode e' = Dom.parentNode e \/ Dom.parentNode e' = None)
    /\ Dom.classList e' =
         (if decide (w = i)
          then filter (fun x => x ≠ OUTLINE (uiClasses (this W))) (Dom.classList e)
          else Dom.classList e).
Proof.
  rewrite dom_clearWidgetUI. simpl. rewrite elems_removeAll.
  unfold unoutlined at 2 3. simpl. rewrite lookup_alter.
  intros Hl.
  destruct (decide (w = i)) as [->|Hne];
    destruct (Dom.elems (dom W) !! i) as [e|] eqn:E;
    case_decide; simpl in Hl; simplify_eq;
    eexists; (split; [done|]); simpl; auto.
Qed.

Lemma has_class_filter c (e : Dom.Element) cs :
  Dom.classList e = filter (fun x => x ≠ c) cs -> Dom.has_class c e = false.
Proof.
  intros E. unfold Dom.has_class. apply bool_decide_eq_false. rewrite E.
  intros Hin. apply list_elem_of_filter in Hin as [Hn _]. done.
Qed.

Lemma has_class_mono c (e e' : Dom.Element) (w i : nat) o :
  Dom.classList e' =
    (if decide (w = i) then filter (fun x => x ≠ o) (Dom.classList e) else Dom.classList e) ->
  Dom.has_class c e' = true -> Dom.has_class c e = true.
Proof.
  intros E. unfold Dom.has_class. rewrite !bool_decide_eq_true, E.
  case_decide; [|done]. intros Hin. by apply list_elem_of_filter in Hin as [_ ?].
Qed.

Lemma uiClasses_clearWidgetUI w W :
  uiClasses (this (clearWidgetUI w W)) = uiClasses (this W).
Proof. reflexivity. Qed.

Lemma uiChildren_clearWidgetUI_sub w W x i :
  i ∈ uiChildren (clearWidgetUI w W) x -> i ∈ uiChildren W x.
Proof.
  unfold uiChildren. rewrite uiClasses_clearWidgetUI, !elem_of_scopeChildren.
  intros [e' [Hl [Hp Hc]]].
  apply elems_clearWidgetUI in Hl as [e [Hl [Hpar Hcls]]].
  exists e. split; [done|]. split.
  - destruct Hpar as [<-|Hn]; [done|congruence].
  - destruct Hc as [Hc|Hc]; [left|right]; eapply has_class_mono; eauto.
Qed.

Lemma uiChildren_clearWidgetUI w W : uiChildren (clearWidgetUI w W) w = [].
Proof.
  apply nil_of_no_elem. intros i Hin.
  pose proof (uiChildren_clearWidgetUI_sub _ _ _ _ Hin) as Hold.
  revert Hin. unfold uiChildren at 1. rewrite uiClasses_clearWidgetUI.
  rewrite elem_of_scopeChildren. intros [e' [Hl [Hp Hc]]].
  rewrite dom_clearWidgetUI in Hl. simpl in Hl. rewrite elems_removeAll in Hl.
  case_decide as Hd.
  - destruct (Dom.elems _ !! i); simpl in Hl; simplify_eq.
  - apply Hd. apply elem_of_scopeChildren. eauto.
Qed.

Lemma outlined_clearWidgetUI w W : outlined (clearWidgetUI w W) w = false.
Proof.
  unfold outlined. rewrite uiClasses_clearWidgetUI.
  destruct (Dom.elems (dom (clearWidgetUI w W)) !! w) as [e'|] eqn:E; [|done].
  apply elems_clearWidgetUI in E as [e [_ [_ Hc]]].
  rewrite decide_True in Hc by done. eapply has_class_filter; eauto.
Qed.

Lemma outlined_clearWidgetUI_ne w W x :
  outlined W x = false -> outlined (clearWidgetUI w W) x = false.
Proof.
  unfold outlined. rewrite uiClasses_clearWidgetUI. intros Hx.
  destruct (Dom.elems (dom (clearWidgetUI w W)) !! x) as [e'|] eqn:E; [|done].
  apply elems_clearWidgetUI in E as [e [Hl [_ Hc]]]. rewrite Hl in Hx.
  destruct (Dom.has_class _ e') eqn:Hh; [|done].
  pose proof (has_class_mono _ _ _ _ _ _ Hc Hh). congruence.
Qed.

Lemma getWidgetState_clearWidgetUI w W x :
  getWidgetState (clearWidgetUI w W) x =
  if decide (w = x) then clearedState else getWidgetState W x.
Proof.
  unfold getWidgetState at 1. unfold clearWidgetUI, setWidgetState. simpl.
  rewrite lookup_insert. by case_decide.
Qed.

Lemma noUI_clearWidgetUI w W : noUI (clearWidgetUI w W) w.
Proof.
  split; [|split].
  - rewrite getWidgetState_clearWidgetUI. by rewrite decide_True.
  - apply outlined_clearWidgetUI.
  - apply uiChildren_clearWidgetUI.
Qed.

Lemma noUI_clearWidgetUI_other w W x : noUI W x -> noUI (clearWidgetUI w W) x.
Proof.
  intros [Hs [Ho Hc]]. destruct (decide (w = x)) as [->|Hne].
  { apply noUI_clearWidgetUI. }
  split; [|split].
  - rewrite getWidgetState_clearWidgetUI. by rewrite decide_False.
  - by apply outlined_clearWidgetUI_ne.
  - apply nil_of_no_elem. intros i Hin.
    apply uiChildren_clearWidgetUI_sub in Hin. rewrite Hc in Hin.
    by apply not_elem_of_nil in Hin.
Qed.

Lemma noUI_clearEach_keep ws W x : noUI W x -> noUI (clearEach ws W) x.
Proof.
  revert W. induction ws as [|w ws IH]; intros W Hx; simpl; [done|].
  apply IH. by apply noUI_clearWidgetUI_other.
Qed.

Lemma noUI_clearEach ws W x : x ∈ ws -> noUI (clearEach ws W) x.
Proof.
  revert W. induction ws as [|w ws IH]; intros W Hin; simpl.
  - by apply not_elem_of_nil in Hin.
  - apply elem_of_cons in Hin as [->|Hin].
    + apply noUI_clearEach_keep, noUI_clearWidgetUI.
    + by apply IH.
Qed.

(** ** The retry loop *)

Lemma rest_axeOptions W W' : rest W = rest W' -> axeOptions W = axeOptions W'.
Proof.
  intros E. pose proof (rest_cfg _ _ E) as Ec.
  unfold axeOptions, nonEmpty, readArray.
  injection E as Ea _ _ _ _ _ _ _ _ _ _ _. by rewrite Ec, Ea.
Qed.

Lemma rest_debug W W' : rest W = rest W' -> debug W = debug W'.
Proof. intros E. unfold debug. by rewrite (rest_cfg _ _ E). Qed.

Lemma rest_remaining a W W' : rest W = rest W' -> remaining a W = remaining a W'.
Proof. intros E. unfold remaining. by rewrite (rest_cfg _ _ E). Qed.

Lemma leMax_remaining a W :
  leMax a (maxRetries (cfg W)) = true ->
  remaining a W = S (remaining (a + 1) W).
Proof.
  unfold leMax, remaining. destruct (maxRetries (cfg W)) as [m|]; [|done].
  intros Hle. apply Z.leb_le in Hle. lia.
Qed.

(** The loop ends: fuel above the number of allowed iterations is enough. *)
Lemma retryLoop_total fuel ws a W :
  remaining a W < fuel -> exists W', retryLoop fuel ws a W = Some W'.
Proof.
  revert a W. induction fuel as [|fuel IH]; intros a W Hf; [lia|]. simpl.
  destruct (leMax a (maxRetries (cfg W))) eqn:Hle; [|eauto].
  destruct (attempt ws W) as [[u|err] W1] eqn:E; [eauto|].
  apply IH. apply leMax_remaining in Hle.
  rewrite (rest_remaining _ _ W); [lia|].
  rewrite rest_onFailure. by rewrite <- (rest_attempt ws W), E.
Qed.

Lemma recheckAll_total fuel W :
  remaining 0 W < fuel -> exists r, recheckAll fuel W = Some r.
Proof.
  intros Hf. unfold recheckAll.
  destruct (getAllWidgets _) as [ws|e]; [|eauto].
  destruct (length ws =? 0)%nat; [eauto|].
  destruct (retryLoop_total fuel ws 0
              (foldl (fun W widget => clearWidgetUI widget W) (injectCSS W) ws))
    as [W' ->]; [|simpl; eauto].
  rewrite (rest_remaining _ _ W); [done|].
  rewrite rest_foldl; [apply rest_injectCSS|]. intros; apply rest_clearWidgetUI.
Qed.

(** A widget already cleared is left alone by a render with no violation. *)
Lemma renderWidgetUI_nil_cleared w W :
  getWidgetState W w = clearedState -> renderWidgetUI w [] W = W.
Proof. intros E. unfold renderWidgetUI. by rewrite E. Qed.

Lemma renderEmpty_cleared ws W :
  (forall w, w ∈ ws -> getWidgetState W w = clearedState) ->
  foldl (fun W widget => renderWidgetUI widget [] W) W ws = W.
Proof.
  induction ws as [|w ws IH]; intros Hc; simpl; [done|].
  rewrite renderWidgetUI_nil_cleared by (apply Hc; by left).
  apply IH. intros x Hx. apply Hc. by right.
Qed.

Lemma emitAll_app evs evs' W : emitAll (evs ++ evs') W = emitAll evs' (emitAll evs W).
Proof. apply foldl_app. Qed.

Lemma rest_emitAll evs W : rest (emitAll evs W) = rest W.
Proof. apply rest_foldl. intros; apply rest_emit. Qed.

Lemma trace_emitAll evs W : trace (emitAll evs W) = trace W ++ evs.
Proof.
  revert W. induction evs as [|ev evs IH]; intros W; simpl.
  - by rewrite app_nil_r.
  - rewrite IH. simpl. by rewrite <- app_assoc.
Qed.

Lemma dom_emitAll evs W : dom (emitAll evs W) = dom W.
Proof. revert W. induction evs as [|ev evs IH]; intros W; simpl; [done|]. by rewrite IH. Qed.

Lemma this_emitAll evs W : this (emitAll evs W) = this W.
Proof. revert W. induction evs as [|ev evs IH]; intros W; simpl; [done|]. by rewrite IH. Qed.

Lemma noUI_emitAll evs W w : noUI W w -> noUI (emitAll evs W) w.
Proof.
  unfold noUI, getWidgetState, outlined, uiChildren.
  by rewrite this_emitAll, dom_emitAll.
Qed.

Lemma engineCalls_emit ev W :
  engineCalls (emit ev W) = (if is_AxeRun ev then S (engineCalls W) else engineCalls W).
Proof.
  unfold engineCalls. simpl. rewrite List.filter_app, length_app. simpl.
  destruct (is_AxeRun ev); simpl; lia.
Qed.

Lemma count_retries o k : length (List.filter is_AxeRun (retries o k)) = k.
Proof. induction k as [|k IH]; simpl; [done|]. by rewrite IH. Qed.

Lemma count_failureTrace o n warn :
  Forall (fun ev => is_AxeRun ev = false) warn ->
  length (List.filter is_AxeRun (failureTrace o n warn)) = n.
Proof.
  intros Hw. destruct n as [|k]; simpl; [done|].
  rewrite List.filter_app, length_app, count_retries. simpl.
  replace (List.filter is_AxeRun warn) with (@nil EngineEvent); [simpl; lia|].
  induction Hw as [|ev l Hev _ IH]; simpl; [done|]. by rewrite Hev.
Qed.

Lemma retryLoop_all_fail fuel ws W :
  forall a,
  (forall w, w ∈ ws -> getWidgetState W w = clearedState) ->
  (forall n d o, engineCalls W <= n -> exists e, axe_run n d o = Throw e) ->
  remaining a W < fuel ->
  exists warn,
    retryLoop fuel ws a W
      = Some (emitAll (failureTrace (axeOptions W) (remaining a W) warn) W)
    /\ (warn = [] \/ exists e, warn = [ConsoleWarn e]).
Proof.
  revert W. induction fuel as [|fuel IH]; intros W a Hc Hfail Hf; [lia|]. simpl.
  destruct (leMax a (maxRetries (cfg W))) eqn:Hle.
  2:{ exists []. split; [|by left].
      replace (remaining a W) with 0; [done|].
      unfold leMax, remaining in *. destruct (maxRetries (cfg W)); [|done].
      apply Z.leb_gt in Hle. lia. }
  pose proof (leMax_remaining _ _ Hle) as Hrem.
  destruct (Hfail (engineCalls W) (dom W) (axeOptions W)) as [err Herr]; [lia|].
  unfold attempt. rewrite Herr.
  set (W1 := emit (AxeRun (axeOptions W)) W).
  unfold onFailure.
  destruct (gtMax (a + 1) (maxRetries (cfg W1))) eqn:Hgt.
  - (* the bound is exceeded: warning, render with no violation *)
    set (warn := if debug W1 then [ConsoleWarn err] else []).
    assert (Hk : remaining (a + 1) W = 0).
    { unfold gtMax, remaining, W1 in *. change (cfg (emit _ W)) with (cfg W) in Hgt.
      destruct (maxRetries (cfg W)); [|done]. apply Z.ltb_lt in Hgt. lia. }
    assert (HW : (if debug W1 then emit (ConsoleWarn err) W1 else W1) = emitAll warn W1).
    { unfold warn. by destruct (debug W1). }
    rewrite HW.
    rewrite renderEmpty_cleared.
    2:{ intros w Hw. specialize (Hc w Hw). unfold getWidgetState in *.
        by rewrite this_emitAll. }
    destruct (IH (emitAll warn W1) (a + 1)%Z) as [warn' [Hl _]].
    + intros w Hw. specialize (Hc w Hw). unfold getWidgetState in *.
      by rewrite this_emitAll.
    + intros n d o Hn. apply Hfail.
      assert (engineCalls W <= engineCalls (emitAll warn W1)); [|lia].
      unfold engineCalls. rewrite trace_emitAll. unfold W1. simpl.
      rewrite !List.filter_app, !length_app. lia.
    + rewrite (rest_remaining _ _ W); [lia|]. by rewrite rest_emitAll.
    + exists warn. split; [|unfold warn; destruct (debug W1); eauto].
      rewrite Hl. rewrite (rest_remaining _ _ W) by (by rewrite rest_emitAll).
      rewrite Hrem, Hk. simpl. done.
  - (* another attempt after the backoff *)
    set (W2 := emit (Backoff 50) W1).
    destruct (IH W2 (a + 1)%Z) as [warn [Hl Hw]].
    + intros w Hw. apply (Hc w Hw).
    + intros n d o Hn. apply Hfail.
      unfold W2, W1 in Hn. rewrite !engineCalls_emit in Hn. simpl in Hn. lia.
    + change (remaining (a + 1) W2) with (remaining (a + 1) W). lia.
    + exists warn. split; [|done].
      rewrite Hl. change (remaining (a + 1) W2) with (remaining (a + 1) W).
      change (axeOptions W2) with (axeOptions W).
      rewrite Hrem.
      assert (Hpos : remaining (a + 1) W <> 0).
      { unfold gtMax, remaining, W1 in *. change (cfg (emit _ W)) with (cfg W) in Hgt.
        unfold leMax in Hle.
        destruct (maxRetries (cfg W)); [|done].
        apply Z.ltb_ge in Hgt. apply Z.leb_le in Hle. lia. }
      destruct (remaining (a + 1) W) as [|k]; [done|]. simpl. done.
Qed.

(** ** Traces *)

Lemma trace_renderWidgetUI w vs W : trace (renderWidgetUI w vs W) = trace W.
Proof.
  unfold renderWidgetUI.
  destruct (unchanged _ _); [done|].
  destruct (Z.of_nat (length vs) =? 0)%Z; done.
Qed.

Lemma trace_injectCSS W : trace (injectCSS W) = trace W.
Proof. unfold injectCSS. by destruct (Dom.getElementById _ _). Qed.

Lemma trace_clearEach ws W : trace (clearEach ws W) = trace W.
Proof. revert W. induction ws as [|w ws IH]; intros W; simpl; [done|]. by rewrite IH. Qed.

Lemma trace_renderAll vs ws W : trace (renderAll vs ws W).2 = trace W.
Proof.
  revert W. induction ws as [|w ws IH]; intros W; simpl; [done|].
  destruct (widgetViolations _ _ _); simpl; [|done].
  by rewrite IH, trace_renderWidgetUI.
Qed.

(** ** The rule-or-tag restriction *)

Lemma nonEmpty_Some W a vs : nonEmpty W a = Some vs <-> configured W a vs.
Proof.
  unfold nonEmpty, configured. split.
  - destruct a as [l|]; [|done].
    destruct (readArray W l) as [|x xs] eqn:E; simpl; [done|].
    intros [= <-]. exists l. by rewrite E.
  - intros [l [-> [<- Hne]]].
    destruct (readArray W l); simpl; done.
Qed.

Lemma nonEmpty_None W a : nonEmpty W a = None <-> unconfigured W a.
Proof.
  unfold nonEmpty, unconfigured. split.
  - destruct a as [l|]; [|by left].
    destruct (readArray W l) as [|x xs] eqn:E; simpl; [|done].
    intros _. right. eauto.
  - intros [->|[l [-> ->]]]; done.
Qed.

Lemma configured_not_unconfigured W a vs : configured W a vs -> unconfigured W a -> False.
Proof.
  intros [l [-> [<- Hne]]] [?|[l' [[= <-] E]]]; done.
Qed.

Lemma trace_attempt ws W :
  exists tl,
    trace (attempt ws W).2 = trace W ++ AxeRun (axeOptions W) :: tl
    /\ Forall (fun ev => is_AxeRun ev = false) tl.
Proof.
  unfold attempt.
  destruct (axe_run _ _ _) as [violations|e]; simpl.
  - rewrite trace_renderAll. destruct (debug _); simpl.
    + eexists [_]. split; [by rewrite <- app_assoc|]. by repeat constructor.
    + exists []. by split.
  - exists []. by split.
Qed.

(** C2. The options passed to the engine carry [runOnly] of type [rule]
    with the configured rules exactly when [axeRules] is non-empty (whatever
    [axeTags] holds), of type [tag] with the configured tags exactly when
    [axeRules] is empty or absent and [axeTags] is non-empty, and no
    [runOnly] exactly when both are empty or absent; the engine invocation
    of an attempt is made with these options. *)
Theorem axeOptions_runOnly (W : World) :
  (forall vs, runOnly (axeOptions W) = Some {| type := rule; values := vs |}
              <-> configured W (axeRules (cfg W)) vs)
  /\ (forall vs, runOnly (axeOptions W) = Some {| type := tag; values := vs |}
                 <-> unconfigured W (axeRules (cfg W))
                     /\ configured W (axeTags (cfg W)) vs)
  /\ (runOnly (axeOptions W) = None
      <-> unconfigured W (axeRules (cfg W)) /\ unconfigured W (axeTags (cfg W)))
  /\ (forall widgets, exists tl,
        trace (attempt widgets W).2 = trace W ++ AxeRun (axeOptions W) :: tl
        /\ Forall (fun ev => is_AxeRun ev = false) tl).
Proof.
  split; [|split; [|split; [|intros; apply trace_attempt]]].
  all: unfold axeOptions.
  all: destruct (nonEmpty W (axeRules (cfg W))) as [rules|] eqn:Er;
    [apply nonEmpty_Some in Er as Hr | apply nonEmpty_None in Er as Hr];
    [|destruct (nonEmpty W (axeTags (cfg W))) as [tags|] eqn:Et;
      [apply nonEmpty_Some in Et as Ht | apply nonEmpty_None in Et as Ht]];
    simpl.
  - (* rule, rules configured *)
    intros vs. split.
    + intros [= <-]. done.
    + intros Hc. apply nonEmpty_Some in Hc. congruence.
  - intros vs. split; [done|]. intros Hc.
    destruct (configured_not_unconfigured _ _ _ Hc Hr).
  - intros vs. split; [done|]. intros Hc.
    destruct (configured_not_unconfigured _ _ _ Hc Hr).
  - (* tag *)
    intros vs. split; [done|]. intros [Hu _].
    destruct (configured_not_unconfigured _ _ _ Hr Hu).
  - intros vs. split.
    + intros [= <-]. done.
    + intros [_ Hc]. apply nonEmpty_Some in Hc. congruence.
  - intros vs. split; [done|]. intros [_ Hc].
    destruct (configured_not_unconfigured _ _ _ Hc Ht).
  - (* no restriction *)
    split; [done|]. intros [Hu _].
    destruct (configured_not_unconfigured _ _ _ Hr Hu).
  - split; [done|]. intros [_ Hu].
    destruct (configured_not_unconfigured _ _ _ Ht Hu).
  - done.
Qed.

(** ** The violation mapper *)

Lemma some_complete {A} (f : A -> Outcome bool) (l : list A) :
  (forall x, x ∈ l -> exists b, f x = Ok b) ->
  exists b, some f l = Ok b /\ (b = true <-> exists x, x ∈ l /\ f x = Ok true).
Proof.
  induction l as [|x l IH]; intros Hc; simpl.
  - exists false. split; [done|]. split; [done|].
    intros [x [Hx _]]. by apply not_elem_of_nil in Hx.
  - destruct (Hc x) as [b Hb]; [by left|]. rewrite Hb. destruct b.
    + exists true. split; [done|]. split; [|done]. intros _. exists x. split; [by left|done].
    + destruct IH as [b [Hs Hiff]]; [intros y Hy; apply Hc; by right|].
      exists b. split; [done|]. rewrite Hiff. split.
      * intros [y [Hy Hfy]]. exists y. split; [by right|done].
      * intros [y [Hy Hfy]]. apply elem_of_cons in Hy as [->|Hy]; [congruence|eauto].
Qed.

Lemma filterO_complete {A} (f : A -> Outcome bool) (l : list A) :
  (forall x, x ∈ l -> exists b, f x = Ok b) ->
  exists r, filterO f l = Ok r /\ (forall x, x ∈ r <-> x ∈ l /\ f x = Ok true).
Proof.
  induction l as [|x l IH]; intros Hc; simpl.
  - exists []. split; [done|]. intros x. split; [|by intros [? _]].
    intros Hx. by apply not_elem_of_nil in Hx.
  - destruct (Hc x) as [b Hb]; [by left|]. rewrite Hb.
    destruct IH as [r [-> Hiff]]; [intros y Hy; apply Hc; by right|].
    eexists. split; [done|]. intros y. destruct b.
    + rewrite !elem_of_cons, Hiff. split.
      * intros [->|[? ?]]; auto.
      * intros [[->|?] ?]; auto.
    + rewrite Hiff, elem_of_cons. split.
      * intros [? ?]; auto.
      * intros [[->|?] ?]; [congruence|auto].
Qed.

Lemma nodeInWidget_true d w n : nodeInWidget d w n = Ok true <-> resolvesInto d w n.
Proof.
  unfold nodeInWidget, resolvesInto.
  destruct (querySelector _ d) as [[e|]|err]; split; try done.
  - intros [= Hc]. eauto.
  - intros [e' [[= <-] Hc]]. by rewrite Hc.
  - by intros [e' [? _]].
  - by intros [e' [? _]].
Qed.

Lemma nodeInWidget_complete d w n r :
  querySelector (String.concat " " (target n)) d = Ok r ->
  exists b, nodeInWidget d w n = Ok b.
Proof. unfold nodeInWidget. intros ->. destruct r; eauto. Qed.

Lemma contains_self d w : Dom.contains d w w = true.
Proof. unfold Dom.contains. by rewrite bool_decide_eq_true_2. Qed.

(** C3. When the lookups of the descriptors complete, the mapper answers,
    and a violation is attributed to a widget if and only if it is one of
    the violations and at least one of its descriptors resolves to a live
    element contained in the widget (the widget itself included).  So a
    violation none of whose descriptors resolves is attributed to no
    widget, and a violation with descriptors resolving into two widgets is
    attributed to both. *)
Theorem widgetViolations_attribution (d : Dom.t) (violations : list AxeViolation) :
  lookupsComplete d violations ->
  (forall widget, exists attributed,
      widgetViolations d violations widget = Ok attributed
      /\ forall v, v ∈ attributed
                   <-> v ∈ violations /\ exists n, n ∈ nodes v /\ resolvesInto d widget n)
  /\ (forall widget, Dom.contains d widget widget = true)
  /\ (forall v widget attributed,
        (forall n, n ∈ nodes v ->
           querySelector (String.concat " " (target n)) d = Ok None) ->
        widgetViolations d violations widget = Ok attributed -> v ∉ attributed)
  /\ (forall v a b na nb attributedA attributedB,
        v ∈ violations -> na ∈ nodes v -> nb ∈ nodes v ->
        resolvesInto d a na -> resolvesInto d b nb ->
        widgetViolations d violations a = Ok attributedA ->
        widgetViolations d violations b = Ok attributedB ->
        v ∈ attributedA /\ v ∈ attributedB).
Proof.
  intros Hc.
  assert (Hmain : forall widget, exists attributed,
      widgetViolations d violations widget = Ok attributed
      /\ forall v, v ∈ attributed
                   <-> v ∈ violations /\ exists n, n ∈ nodes v /\ resolvesInto d widget n).
  { intros widget. unfold widgetViolations.
    assert (Hs : forall v, v ∈ violations ->
              exists b, some (nodeInWidget d widget) (nodes v) = Ok b
                        /\ (b = true <-> exists n, n ∈ nodes v /\ resolvesInto d widget n)).
    { intros v Hv.
      destruct (some_complete (nodeInWidget d widget) (nodes v)) as [b [Hb Hiff]].
      - intros n Hn. destruct (Hc v n Hv Hn) as [r Hr].
        eapply nodeInWidget_complete; eauto.
      - exists b. split; [done|]. rewrite Hiff.
        split; intros [n [Hn Hr]]; exists n; split; try done; by apply nodeInWidget_true. }
    destruct (filterO_complete
                (fun v => some (nodeInWidget d widget) (nodes v)) violations)
      as [r [Hr Hiff]].
    - intros v Hv. destruct (Hs v Hv) as [b [Hb _]]. eauto.
    - exists r. split; [done|]. intros v. rewrite Hiff. split.
      + intros [Hv Hsome]. split; [done|].
        destruct (Hs v Hv) as [b [Hb Hbiff]]. apply Hbiff. congruence.
      + intros [Hv Hex]. split; [done|].
        destruct (Hs v Hv) as [b [Hb Hbiff]]. apply Hbiff in Hex. congruence. }
  split; [done|]. split; [apply contains_self|]. split.
  - intros v widget attributed Hnone Hw Hin.
    destruct (Hmain widget) as [r [Hr Hiff]]. rewrite Hw in Hr. injection Hr as <-.
    apply Hiff in Hin as [_ [n [Hn [e [He _]]]]].
    rewrite (Hnone n Hn) in He. done.
  - intros v a b na nb ra rb Hv Hna Hnb Ha Hb Hwa Hwb.
    destruct (Hmain a) as [r [Hr Hiff]]. rewrite Hwa in Hr. injection Hr as <-.
    destruct (Hmain b) as [r [Hr Hiff']]. rewrite Hwb in Hr. injection Hr as <-.
    split; [apply Hiff|apply Hiff']; eauto.
Qed.

(** ** Rendering *)

Lemma unchanged_spec (s : WidgetState) (n : Z) :
  unchanged s n = true <-> lastViolationCount s = n /\ hasUI s = (0 <? n)%Z.
Proof.
  unfold unchanged. rewrite andb_true_iff, Z.eqb_eq, bool_decide_eq_true. done.
Qed.

Lemma unchanged_renderedState (s : WidgetState) (n : Z) :
  unchanged s n = true -> s = renderedState n.
Proof. intros Hu. apply unchanged_spec in Hu as [Hc Hh]. destruct s. simpl in *. by subst. Qed.

Lemma domWrites_clearWidgetUI w W :
  Dom.domWrites (dom (clearWidgetUI w W)) =
  Dom.domWrites (dom W)
  ++ Dom.WClassRemove w (OUTLINE (uiClasses (this W)))
     :: map Dom.WRemove
          (Dom.scopeChildren w (BADGE (uiClasses (this W))) (POPUP (uiClasses (this W)))
             (unoutlined w (uiClasses (this W)) (dom W))).
Proof.
  rewrite dom_clearWidgetUI. simpl. rewrite domWrites_removeAll. simpl.
  by rewrite <- app_assoc.
Qed.


Lemma getWidgetState_renderWidgetUI w vs W :
  getWidgetState (renderWidgetUI w vs W) w = renderedState (Z.of_nat (length vs)).
Proof.
  unfold renderWidgetUI.
  destruct (unchanged _ _) eqn:Hu; [by apply unchanged_renderedState|].
  destruct (Z.of_nat (length vs) =? 0)%Z eqn:Hz.
  - apply Z.eqb_eq in Hz. rewrite Hz, getWidgetState_clearWidgetUI.
    by rewrite decide_True.
  - unfold getWidgetState at 1. cbn -[clearWidgetUI]. rewrite lookup_insert_eq. simpl.
    apply Z.eqb_neq in Hz. unfold renderedState. f_equal.
    symmetry. apply Z.ltb_lt. lia.
Qed.


(** ** The audit *)

Lemma attemptsAllowed_remaining W : remaining 0 W = attemptsAllowed W.
Proof.
  unfold remaining, attemptsAllowed. destruct (maxRetries (cfg W)); [|done].
  f_equal. lia.
Qed.

Lemma rest_clearEach ws W : rest (clearEach ws W) = rest W.
Proof. apply rest_foldl. intros; apply rest_clearWidgetUI. Qed.

Lemma recheckAll_widgets fuel W ws :
  getAllWidgets (injectCSS W) = Ok ws -> ws <> [] ->
  recheckAll fuel W =
  (W' ← retryLoop fuel ws 0 (clearEach ws (injectCSS W)); Some (Ok tt, W')).
Proof.
  intros Hw Hne. unfold recheckAll. rewrite Hw.
  destruct ws; [done|]. done.
Qed.

(** C1. For a validator whose UI class names are valid class names (as the
    default names are; the DOM calls that clear the widgets before the
    [try] block raise for other names): in an audit with at least one
    matched widget in which every engine invocation fails, the engine is
    invoked [maxRetries + 1] times and no more, with the 50 ms backoff
    after each failure but the last; the promise of [recheckAll] then
    resolves (no exception escapes), and every matched widget is left with
    zero violations and no UI. *)
Theorem recheckAll_engine_failure (fuel : nat) (W : World) (widgets : list nat) :
  wellFormedUI (uiClasses (this W)) ->
  getAllWidgets (injectCSS W) = Ok widgets ->
  widgets <> [] ->
  (forall n d o, engineCalls W <= n -> exists e, axe_run n d o = Throw e) ->
  attemptsAllowed W < fuel ->
  exists W' warn,
    recheckAll fuel W = Some (Ok tt, W')
    /\ trace W' = trace W ++ failureTrace (axeOptions W) (attemptsAllowed W) warn
    /\ (warn = [] \/ exists e, warn = [ConsoleWarn e])
    /\ engineCalls W' = engineCalls W + attemptsAllowed W
    /\ (forall m, maxRetries (cfg W) = Some m -> (0 <= m)%Z ->
          Z.of_nat (attemptsAllowed W) = (m + 1)%Z)
    /\ (forall w, w ∈ widgets -> noUI W' w).
Proof.
  intros _ Hws Hne Hfail Hfuel.
  set (W2 := clearEach widgets (injectCSS W)).
  assert (Hrest : rest W2 = rest W).
  { unfold W2. by rewrite rest_clearEach, rest_injectCSS. }
  assert (Htrace : trace W2 = trace W).
  { unfold W2. by rewrite trace_clearEach, trace_injectCSS. }
  destruct (retryLoop_all_fail fuel widgets W2 0) as [warn [Hloop Hwarn]].
  - intros w Hw. by destruct (noUI_clearEach widgets (injectCSS W) w Hw).
  - intros n d o Hn. apply Hfail. unfold engineCalls in *. by rewrite <- Htrace.
  - by rewrite (rest_remaining _ _ W), attemptsAllowed_remaining.
  - rewrite (rest_remaining _ _ W), attemptsAllowed_remaining in Hloop by done.
    rewrite (rest_axeOptions _ _ Hrest) in Hloop.
    eexists _, warn. split; [|split; [|split; [|split; [|split]]]].
    + rewrite (recheckAll_widgets _ _ _ Hws Hne). fold W2. by rewrite Hloop.
    + by rewrite trace_emitAll, Htrace.
    + done.
    + unfold engineCalls. rewrite trace_emitAll, Htrace.
      rewrite List.filter_app, length_app. f_equal.
      apply count_failureTrace.
      destruct Hwarn as [->|[e ->]]; by repeat constructor.
    + intros m Hm Hpos. unfold attemptsAllowed. rewrite Hm. lia.
    + intros w Hw. apply noUI_emitAll. by apply noUI_clearEach.
Qed.

(** ** What [recheckAll] clears *)

Lemma injectCSS_effect W :
  this (injectCSS W) = this W
  /\ trace (injectCSS W) = trace W
  /\ Dom.docListeners (dom (injectCSS W)) = Dom.docListeners (dom W)
  /\ (Dom.domWrites (dom (injectCSS W)) = Dom.domWrites (dom W)
      \/ exists s, Dom.domWrites (dom (injectCSS W))
                   = Dom.domWrites (dom W) ++ [Dom.WAppendChild (Dom.head (dom W)) s]).
Proof.
  unfold injectCSS. destruct (Dom.getElementById _ _); simpl; [by auto|].
  repeat split; eauto.
Qed.

Lemma parent_of_scopeChildren w a b d i :
  i ∈ Dom.scopeChildren w a b d -> Dom.parent_of d i = Some w.
Proof.
  intros Hin. apply elem_of_scopeChildren in Hin as [e [Hl [Hp _]]].
  unfold Dom.parent_of. by rewrite Hl.
Qed.

(** [clearWidgetUI] touches the widget and its children only. *)
Lemma elems_clearWidgetUI_other w W i :
  i <> w -> Dom.parent_of (dom W) i <> Some w ->
  Dom.elems (dom (clearWidgetUI w W)) !! i = Dom.elems (dom W) !! i.
Proof.
  intros Hne Hp. rewrite dom_clearWidgetUI. simpl. rewrite elems_removeAll.
  assert (Hl : Dom.elems (unoutlined w (uiClasses (this W)) (dom W)) !! i
               = Dom.elems (dom W) !! i).
  { unfold unoutlined. simpl. by rewrite lookup_alter_ne. }
  rewrite decide_False; [done|].
  intros Hin. apply parent_of_scopeChildren in Hin.
  unfold Dom.parent_of in *. by rewrite Hl in Hin.
Qed.

Lemma clearEach_other ws W i :
  i ∉ ws -> (forall w, w ∈ ws -> Dom.parent_of (dom W) i <> Some w) ->
  Dom.elems (dom (clearEach ws W)) !! i = Dom.elems (dom W) !! i
  /\ getWidgetState (clearEach ws W) i = getWidgetState W i.
Proof.
  revert W. induction ws as [|w ws IH]; intros W Hni Hp; simpl; [done|].
  apply not_elem_of_cons in Hni as [Hne Hni].
  assert (Hl : Dom.elems (dom (clearWidgetUI w W)) !! i = Dom.elems (dom W) !! i).
  { apply elems_clearWidgetUI_other; [done|]. apply Hp. by left. }
  destruct (IH (clearWidgetUI w W)) as [He Hs]; [done| |].
  - intros x Hx. unfold Dom.parent_of. rewrite Hl. apply Hp. by right.
  - rewrite He, Hs, Hl, getWidgetState_clearWidgetUI.
    by rewrite decide_False by done.
Qed.

(** C5 (amended). [recheckAll] first makes sure the stylesheet is there and
    resolves the widget set from the configured selectors.  When no widget
    matches it returns at once: no widget state, listener or trace changes,
    and the only DOM write it may have made is the insertion of the
    stylesheet.  Otherwise, the UI class names being valid class names, it
    clears the UI of the matched widgets (safely, whether or not they had
    any) before the first engine invocation, and leaves alone each element
    that is neither a matched widget nor a child of one. *)
Theorem recheckAll_resolves_then_clears (fuel : nat) (W : World) :
  (getAllWidgets (injectCSS W) = Ok [] ->
     recheckAll fuel W = Some (Ok tt, injectCSS W)
     /\ this (injectCSS W) = this W
     /\ trace (injectCSS W) = trace W
     /\ Dom.docListeners (dom (injectCSS W)) = Dom.docListeners (dom W)
     /\ (Dom.domWrites (dom (injectCSS W)) = Dom.domWrites (dom W)
         \/ exists s, Dom.domWrites (dom (injectCSS W))
                      = Dom.domWrites (dom W) ++ [Dom.WAppendChild (Dom.head (dom W)) s]))
  /\ (forall widgets,
        wellFormedUI (uiClasses (this W)) ->
        getAllWidgets (injectCSS W) = Ok widgets -> widgets <> [] ->
        let cleared := clearEach widgets (injectCSS W) in
        recheckAll fuel W = (W' ← retryLoop fuel widgets 0 cleared; Some (Ok tt, W'))
        /\ trace cleared = trace W
        /\ (forall w, w ∈ widgets -> noUI cleared w)
        /\ (forall i, i ∉ widgets ->
              (forall w, w ∈ widgets -> Dom.parent_of (dom (injectCSS W)) i <> Some w) ->
              Dom.elems (dom cleared) !! i = Dom.elems (dom (injectCSS W)) !! i
              /\ getWidgetState cleared i = getWidgetState W i)).
Proof.
  split.
  - intros Hw. split; [|apply injectCSS_effect].
    unfold recheckAll. by rewrite Hw.
  - intros ws _ Hw Hne cleared. subst cleared.
    split; [by apply recheckAll_widgets|]. split; [|split].
    + by rewrite trace_clearEach, trace_injectCSS.
    + intros w Hin. by apply noUI_clearEach.
    + intros i Hni Hp. destruct (clearEach_other ws (injectCSS W) i Hni Hp) as [He Hs].
      split; [done|]. rewrite Hs. unfold getWidgetState.
      by destruct (injectCSS_effect W) as [-> _].
Qed.

(** ** Empty selector list *)

(** C6 (amended). With an empty [widgetSelectors] list the combined
    selector is the empty string, and [recheckAll], [clearAll] and
    [getWidgetStates] hand it to the selector query of the document without
    a check of their own.  What the query answers is what they do: when it
    rejects the empty selector, [clearAll] and [getWidgetStates] raise that
    error and the promise of [recheckAll] is rejected with it, no widget
    being touched; when it answers with no element, they complete without
    touching a widget. *)
Theorem empty_selectors_propagate (fuel : nat) (W : World) :
  readArray W (widgetSelectors (cfg W)) = [] ->
  getCombinedSelector W = ""
  /\ getAllWidgets W = querySelectorAll "" (dom W)
  /\ (forall e, querySelectorAll "" (dom W) = Throw e ->
        clearAll W = (Throw e, W) /\ getWidgetStates W = Throw e)
  /\ (forall e, querySelectorAll "" (dom (injectCSS W)) = Throw e ->
        recheckAll fuel W = Some (Throw e, injectCSS W))
  /\ (querySelectorAll "" (dom W) = Ok [] ->
        clearAll W = (Ok tt, W) /\ getWidgetStates W = Ok [])
  /\ (querySelectorAll "" (dom (injectCSS W)) = Ok [] ->
        recheckAll fuel W = Some (Ok tt, injectCSS W)).
Proof.
  intros Hsel.
  assert (Hc : getCombinedSelector W = "").
  { unfold getCombinedSelector. by rewrite Hsel. }
  assert (Hc' : getCombinedSelector (injectCSS W) = "").
  { unfold getCombinedSelector, readArray in *.
    pose proof (rest_injectCSS W) as Hr. rewrite (rest_cfg _ _ Hr).
    injection Hr as -> _ _ _ _ _ _ _ _ _ _ _. done. }
  split; [done|]. split; [unfold getAllWidgets; by rewrite Hc|].
  split; [|split; [|split]].
  - intros e He. unfold clearAll, getWidgetStates, getAllWidgets. by rewrite Hc, He.
  - intros e He. unfold recheckAll, getAllWidgets. by rewrite Hc', He.
  - intros He. unfold clearAll, getWidgetStates, getAllWidgets. by rewrite Hc, He.
  - intros He. unfold recheckAll, getAllWidgets. by rewrite Hc', He.
Qed.

(** ** The copy that [getConfig] returns *)

(** C9 (amended). [getConfig] returns a shallow copy: a new object, distinct
    from the validator's configuration object, holding the current value of
    each field.  Assigning to the fields of the returned object leaves the
    validator's configuration, and the arrays it reads, unchanged.  The
    nested arrays are shared with the validator: what is pushed onto the
    returned [widgetSelectors] list is read by the validator. *)
Theorem getConfig_shallow_copy (W : World) :
  config (this W) < nextLoc W ->
  let l := (getConfig W).1 in
  let W1 := (getConfig W).2 in
  l <> config (this W1)
  /\ objects W1 !! l = Some (cfg W)
  /\ cfg W1 = cfg W /\ arrays W1 = arrays W /\ this W1 = this W /\ dom W1 = dom W
  /\ (forall f, cfg (assign l f W1) = cfg W
                /\ arrays (assign l f W1) = arrays W
                /\ this (assign l f W1) = this W
                /\ getCombinedSelector (assign l f W1) = getCombinedSelector W)
  /\ (forall xs copy, objects W1 !! l = Some copy ->
        readArray (push (widgetSelectors copy) xs W1) (widgetSelectors (cfg W1))
        = readArray W (widgetSelectors (cfg W)) ++ xs).
Proof.
  intros Hlt. unfold getConfig, alloc. cbn [fst snd].
  assert (Hne : nextLoc W <> config (this W)) by lia.
  set (W1 := with_objects (insert (nextLoc W) (cfg W)) _).
  assert (Hc1 : cfg W1 = cfg W).
  { unfold cfg, W1. cbn. by rewrite lookup_insert_ne. }
  assert (Hcfg : forall f, cfg (assign (nextLoc W) f W1) = cfg W).
  { intros f. rewrite <- Hc1. unfold cfg, assign. cbn. by rewrite lookup_alter_ne. }
  assert (Hcopy : objects W1 !! nextLoc W = Some (cfg W)).
  { unfold W1. cbn. by rewrite lookup_insert_eq. }
  split; [done|]. split; [done|]. split; [done|].
  do 3 (split; [done|]). split.
  - intros f. split; [apply Hcfg|]. split; [done|]. split; [done|].
    unfold getCombinedSelector. by rewrite Hcfg.
  - intros xs copy. rewrite Hcopy. intros [= <-]. rewrite Hc1.
    unfold push, readArray. cbn. by rewrite lookup_insert_eq.
Qed.

(** ** The widget state store *)

Lemma consistent_default : consistent defaultWidgetState.
Proof. unfold consistent. simpl. split; [done|lia]. Qed.

Lemma consistent_cleared : consistent clearedState.
Proof. unfold consistent. simpl. split; [done|lia]. Qed.

Lemma consistent_rendered n : consistent (renderedState n).
Proof. unfold consistent. simpl. apply Z.ltb_lt. Qed.

Lemma cacheStep_refl W : cacheStep W W.
Proof. intros w s Hs. by left. Qed.

Lemma cacheStep_trans W1 W2 W3 : cacheStep W1 W2 -> cacheStep W2 W3 -> cacheStep W1 W3.
Proof.
  intros H12 H23 w s Hs. destruct (H23 w s Hs) as [Hs2|?]; [|by right].
  by apply H12.
Qed.

Lemma cacheStep_same W W' :
  widgetCache (this W') = widgetCache (this W) -> cacheStep W W'.
Proof. intros E w s Hs. left. by rewrite <- E. Qed.

Lemma cacheStep_consistent W W' : cacheConsistent W -> cacheStep W W' -> cacheConsistent W'.
Proof. intros Hc Hs w s Hl. destruct (Hs w s Hl) as [Hl'|?]; [|done]. by apply (Hc w). Qed.

Lemma consistent_getWidgetState W w : cacheConsistent W -> consistent (getWidgetState W w).
Proof.
  intros Hc. unfold getWidgetState.
  destruct (widgetCache (this W) !! w) as [s|] eqn:E; simpl.
  - by apply (Hc w).
  - apply consistent_default.
Qed.

Lemma cacheStep_clearWidgetUI w W : cacheStep W (clearWidgetUI w W).
Proof.
  intros x s. unfold clearWidgetUI, setWidgetState. simpl.
  rewrite lookup_insert. case_decide.
  - intros [= <-]. right. apply consistent_cleared.
  - by left.
Qed.

Lemma cacheStep_renderWidgetUI w vs W : cacheStep W (renderWidgetUI w vs W).
Proof.
  intros x s Hs. destruct (decide (w = x)) as [<-|Hne].
  - pose proof (getWidgetState_renderWidgetUI w vs W) as Hg.
    unfold getWidgetState in Hg. rewrite Hs in Hg. simpl in Hg. subst s.
    right. apply consistent_rendered.
  - revert Hs. unfold renderWidgetUI.
    destruct (unchanged _ _); [by left|].
    destruct (Z.of_nat (length vs) =? 0)%Z.
    + apply cacheStep_clearWidgetUI.
    + cbn -[clearWidgetUI]. rewrite lookup_insert_ne by done.
      apply cacheStep_clearWidgetUI.
Qed.

Lemma cacheStep_foldl {A} (f : World -> A -> World) l :
  (forall W a, cacheStep W (f W a)) -> forall W, cacheStep W (foldl f W l).
Proof.
  intros Hf. induction l as [|a l IH]; intros W; simpl; [apply cacheStep_refl|].
  eapply cacheStep_trans; [apply Hf|apply IH].
Qed.

Lemma cacheStep_renderAll vs ws W : cacheStep W (renderAll vs ws W).2.
Proof.
  revert W. induction ws as [|w ws IH]; intros W; simpl; [apply cacheStep_refl|].
  destruct (widgetViolations _ _ _); simpl; [|apply cacheStep_refl].
  eapply cacheStep_trans; [apply cacheStep_renderWidgetUI|apply IH].
Qed.

Lemma cacheStep_attempt ws W : cacheStep W (attempt ws W).2.
Proof.
  unfold attempt. destruct (axe_run _ _ _); simpl; [|by apply cacheStep_same].
  eapply cacheStep_trans; [|apply cacheStep_renderAll].
  destruct (debug _); by apply cacheStep_same.
Qed.

Lemma cacheStep_onFailure ws a err W : cacheStep W (onFailure ws a err W).
Proof.
  unfold onFailure. destruct (gtMax _ _); [|by apply cacheStep_same].
  eapply cacheStep_trans; [|apply cacheStep_foldl; intros; apply cacheStep_renderWidgetUI].
  destruct (debug _); by apply cacheStep_same.
Qed.

Lemma cacheStep_retryLoop fuel ws a W W' :
  retryLoop fuel ws a W = Some W' -> cacheStep W W'.
Proof.
  revert a W. induction fuel as [|fuel IH]; intros a W; simpl; [done|].
  destruct (leMax _ _); [|intros [= <-]; apply cacheStep_refl].
  destruct (attempt ws W) as [[u|err] W1] eqn:E.
  - intros [= <-]. pose proof (cacheStep_attempt ws W) as Ha. by rewrite E in Ha.
  - intros Hl. apply IH in Hl.
    pose proof (cacheStep_attempt ws W) as Ha. rewrite E in Ha.
    eapply cacheStep_trans; [apply Ha|].
    eapply cacheStep_trans; [apply cacheStep_onFailure|apply Hl].
Qed.

Lemma cacheStep_injectCSS W : cacheStep W (injectCSS W).
Proof. apply cacheStep_same. by destruct (injectCSS_effect W) as [-> _]. Qed.

Lemma cacheStep_recheckAll fuel W r : recheckAll fuel W = Some r -> cacheStep W r.2.
Proof.
  unfold recheckAll.
  destruct (getAllWidgets _) as [ws|e]; [|intros [= <-]; apply cacheStep_injectCSS].
  destruct (length ws =? 0)%nat; [intros [= <-]; apply cacheStep_injectCSS|].
  destruct (retryLoop _ _ _ _) as [W'|] eqn:E; simpl; [|done].
  intros [= <-]. simpl. apply cacheStep_retryLoop in E.
  eapply cacheStep_trans; [apply cacheStep_injectCSS|].
  eapply cacheStep_trans; [|apply E].
  apply cacheStep_foldl. intros; apply cacheStep_clearWidgetUI.
Qed.

Lemma cacheStep_detached fuel W W0 W' :
  widgetCache (this W) = widgetCache (this W0) ->
  recheckAll_detached fuel W = Some W' -> cacheStep W0 W'.
Proof.
  unfold recheckAll_detached. intros E.
  destruct (recheckAll fuel W) as [r|] eqn:Hr; simpl; [|done].
  intros [= <-]. eapply cacheStep_trans; [|eapply cacheStep_recheckAll; eauto].
  by apply cacheStep_same.
Qed.

Lemma cacheStep_clearAll W : cacheStep W (clearAll W).2.
Proof.
  unfold clearAll. destruct (getAllWidgets W); simpl; [|apply cacheStep_refl].
  apply cacheStep_foldl. intros; apply cacheStep_clearWidgetUI.
Qed.

Lemma cacheStep_destroy W : cacheStep W (destroy W).2.
Proof.
  unfold destroy.
  set (W2 := match recheckTimeout (this (stopWatching W)) with
             | Some t => clearTimeout t (stopWatching W)
             | None => stopWatching W
             end).
  assert (H2 : cacheStep W W2).
  { apply cacheStep_same. unfold W2, stopWatching.
    destruct (mutationObserver (this W)); simpl;
      by destruct (recheckTimeout (this W)). }
  pose proof (cacheStep_clearAll W2) as H3.
  destruct (clearAll W2) as [[u|e] W3]; simpl in *.
  - eapply cacheStep_trans; [apply H2|]. eapply cacheStep_trans; [apply H3|].
    apply cacheStep_same. by destruct (Dom.getElementById _ _).
  - eapply cacheStep_trans; eauto.
Qed.

Lemma cacheStep_runCallbacks fuel cbs W W' :
  runCallbacks fuel cbs W = Some W' -> cacheStep W W'.
Proof.
  revert W. induction cbs as [|cb cbs IH]; intros W; simpl.
  - intros [= <-]. apply cacheStep_refl.
  - destruct (runCallback fuel cb W) as [W1|] eqn:E; simpl; [|done].
    intros Hr. apply IH in Hr. eapply cacheStep_trans; [|apply Hr].
    destruct cb; simpl in E.
    + eapply cacheStep_detached; eauto.
    + injection E as <-. apply cacheStep_refl.
Qed.

Lemma cacheStep_step fuel op W W' : step fuel op W = Some W' -> cacheStep W W'.
Proof.
  destruct op; simpl.
  - by apply cacheStep_detached.
  - intros [= <-]. apply cacheStep_same. unfold debounceRecheck.
    by destruct (recheckTimeout (this W)).
  - intros [= <-]. apply cacheStep_same. unfold startWatching, setupMutationObserver.
    destruct (default false _); [|done]. by destruct (mutationObserver _).
  - intros [= <-]. apply cacheStep_same. unfold stopWatching.
    by destruct (mutationObserver _).
  - intros [= <-]. apply cacheStep_clearAll.
  - unfold addSelectors. by apply cacheStep_detached.
  - unfold removeSelectors. by apply cacheStep_detached.
  - unfold updateConfig. apply cacheStep_detached.
    by destruct (uiClassesOverride' newConfig).
  - intros [= <-]. apply cacheStep_refl.
  - intros [= <-]. by apply cacheStep_same.
  - intros [= <-]. apply cacheStep_destroy.
  - unfold advance. destruct (runCallbacks _ _ _) as [W1|] eqn:E; simpl; [|done].
    intros [= <-]. apply cacheStep_runCallbacks in E.
    eapply cacheStep_trans; [|apply E]. by apply cacheStep_same.
Qed.

Lemma cacheStep_run fuel ops W W' : run fuel ops W = Some W' -> cacheStep W W'.
Proof.
  revert W. induction ops as [|op ops IH]; intros W; simpl.
  - intros [= <-]. apply cacheStep_refl.
  - destruct (step fuel op W) as [W1|] eqn:E; simpl; [|done].
    intros Hr. eapply cacheStep_trans; [eapply cacheStep_step; eauto|by apply IH].
Qed.

(** C10. From a validator whose store is empty, whatever is done through the
    public API and whatever time passes, every widget state stored or
    returned has [hasUI] true exactly when [lastViolationCount] is positive.
    [clearWidgetUI] stores count 0 without UI; a render stores the length of
    its list, with UI exactly when that is positive.  A widget never
    rendered reads as count -1 without UI, which no list length equals: a
    render on it does not take the early return. *)
Theorem widget_states_consistent (fuel : nat) (ops : list Op) (W W' : World) :
  widgetCache (this W) = ∅ ->
  run fuel ops W = Some W' ->
  (forall w s, widgetCache (this W') !! w = Some s -> consistent s)
  /\ (forall w, consistent (getWidgetState W' w))
  /\ (forall r, getWidgetStates W' = Ok r -> Forall (fun p => consistent p.2) r)
  /\ (forall w, getWidgetState (clearWidgetUI w W') w
                = {| lastViolationCount := 0; hasUI := false |})
  /\ (forall w vs, vs <> [] ->
        getWidgetState (renderWidgetUI w vs W') w
        = {| lastViolationCount := Z.of_nat (length vs); hasUI := true |})
  /\ (forall w vs, widgetCache (this W') !! w = None ->
        getWidgetState W' w = {| lastViolationCount := -1; hasUI := false |}
        /\ unchanged (getWidgetState W' w) (Z.of_nat (length vs)) = false
        /\ widgetCache (this (renderWidgetUI w vs W')) !! w
           = Some (renderedState (Z.of_nat (length vs)))).
Proof.
  intros Hempty Hrun.
  assert (Hc : cacheConsistent W').
  { eapply cacheStep_consistent; [|eapply cacheStep_run; eauto].
    intros w s. by rewrite Hempty, lookup_empty. }
  split; [exact Hc|]. split; [intros; by apply consistent_getWidgetState|].
  split; [|split; [|split]].
  - unfold getWidgetStates. destruct (getAllWidgets W') as [ws|]; [|done].
    intros r [= <-]. apply Forall_forall. intros p Hp.
    apply list_elem_of_fmap in Hp as [w [-> _]]. simpl.
    by apply consistent_getWidgetState.
  - intros w. rewrite getWidgetState_clearWidgetUI. by rewrite decide_True.
  - intros w vs Hne. rewrite getWidgetState_renderWidgetUI. unfold renderedState.
    f_equal. apply Z.ltb_lt. destruct vs; [done|]. simpl length. lia.
  - intros w vs Hnone.
    assert (Hd : getWidgetState W' w = defaultWidgetState).
    { unfold getWidgetState. by rewrite Hnone. }
    assert (Hu : unchanged (getWidgetState W' w) (Z.of_nat (length vs)) = false).
    { rewrite Hd. unfold unchanged. apply andb_false_intro1.
      apply Z.eqb_neq. simpl lastViolationCount. lia. }
    split; [done|]. split; [done|].
    pose proof (getWidgetState_renderWidgetUI w vs W') as Hg.
    unfold getWidgetState in Hg.
    destruct (widgetCache (this (renderWidgetUI w vs W')) !! w) as [s|] eqn:E.
    + simpl in Hg. by subst.
    + exfalso. revert E. unfold renderWidgetUI. rewrite Hu.
      destruct (Z.of_nat (length vs) =? 0)%Z.
      * unfold clearWidgetUI, setWidgetState. simpl. by rewrite lookup_insert_eq.
      * cbn -[clearWidgetUI]. by rewrite lookup_insert_eq.
Qed.

(** ** Debounce *)

Lemma rest_sched W W' : rest W = rest W' -> sched W = sched W'.
Proof. unfold rest, sched. intros [= _ _ _ -> -> _ _ _ -> _ _ _]. done. Qed.

Lemma sched_timersOk W W' : sched W = sched W' -> timersOk W -> timersOk W'.
Proof. unfold sched, timersOk. intros [= -> -> ->]. done. Qed.

Lemma rest_recheckAll_detached fuel W W' :
  recheckAll_detached fuel W = Some W' -> rest W' = rest W.
Proof.
  unfold recheckAll_detached. destruct (recheckAll fuel W) as [r|] eqn:E; simpl; [|done].
  intros [= <-]. by eapply rest_recheckAll.
Qed.

Lemma recheckAll_detached_total fuel W :
  attemptsAllowed W < fuel -> exists W', recheckAll_detached fuel W = Some W'.
Proof.
  intros Hf. rewrite <- attemptsAllowed_remaining in Hf.
  destruct (recheckAll_total fuel W Hf) as [r Hr].
  unfold recheckAll_detached. rewrite Hr. simpl. eauto.
Qed.

Lemma rest_attemptsAllowed W W' : rest W = rest W' -> attemptsAllowed W = attemptsAllowed W'.
Proof. intros E. unfold attemptsAllowed. by rewrite (rest_cfg _ _ E). Qed.

Lemma rest_runCallbacks fuel cbs W W' :
  runCallbacks fuel cbs W = Some W' -> rest W' = rest W.
Proof.
  revert W. induction cbs as [|cb cbs IH]; intros W; simpl.
  - by intros [= <-].
  - destruct (runCallback fuel cb W) as [W1|] eqn:E; simpl; [|done].
    intros Hr. rewrite (IH _ Hr). destruct cb; simpl in E.
    + by eapply rest_recheckAll_detached.
    + by injection E as <-.
Qed.

Lemma runCallbacks_total fuel cbs W :
  attemptsAllowed W < fuel -> exists W', runCallbacks fuel cbs W = Some W'.
Proof.
  revert W. induction cbs as [|cb cbs IH]; intros W Hf; simpl; [eauto|].
  assert (Hcb : exists W1, runCallback fuel cb W = Some W1 /\ rest W1 = rest W).
  { destruct cb; simpl.
    - destruct (recheckAll_detached_total fuel W Hf) as [W1 H1].
      exists W1. split; [done|]. by eapply rest_recheckAll_detached.
    - eauto. }
  destruct Hcb as [W1 [-> Hr]]. simpl. apply IH.
  by rewrite (rest_attemptsAllowed _ _ Hr).
Qed.

Lemma runCallbacks_others fuel cbs W :
  Forall (fun cb => cb <> CbRecheckAll) cbs -> runCallbacks fuel cbs W = Some W.
Proof.
  induction 1 as [|cb cbs Hcb _ IH]; simpl; [done|].
  destruct cb; [done|]. simpl. apply IH.
Qed.

Lemma length_filter_fmap {A B} (f : A -> B) (P : B -> Prop) `{!forall x, Decision (P x)}
    (l : list A) :
  length (filter P (f <$> l)) = length (filter (fun x => P (f x)) l).
Proof.
  induction l as [|a l IH]; [done|].
  rewrite fmap_cons, !filter_cons. destruct (decide (P (f a))); simpl; by rewrite IH.
Qed.

Lemma NoDup_all_equal {A} (l : list A) (a : A) :
  NoDup l -> (forall x, x ∈ l -> x = a) -> length l <= 1.
Proof.
  intros Hnd Hall. destruct l as [|x [|y l]]; simpl; [lia|lia|].
  assert (x = a) by (apply Hall; by left).
  assert (y = a) by (apply Hall; right; by left).
  subst. apply NoDup_cons in Hnd as [Hn _]. destruct Hn. by left.
Qed.

Lemma NoDup_only {A} (l : list A) (a : A) :
  NoDup l -> (forall x, x ∈ l -> x = a) -> a ∈ l -> length l = 1.
Proof.
  intros Hnd Hall Hin. pose proof (NoDup_all_equal l a Hnd Hall).
  destruct l; [by apply not_elem_of_nil in Hin|simpl in *; lia].
Qed.

(** The audits among the callbacks due at [t]. *)
Lemma audits_dueAt t W :
  audits (dueAt t W) =
  length (filter (fun x => x.2.2 = CbRecheckAll /\ (x.2.1 <= t)%Z) (map_to_list (timers W))).
Proof.
  unfold audits, dueAt.
  rewrite (length_filter_fmap (fun x : nat * (Z * Callback) => x.2.2)
             (fun cb => cb = CbRecheckAll)).
  by rewrite list_filter_filter.
Qed.

Lemma audits_dueAt_none t W r due :
  timersOk W -> recheckTimeout (this W) = Some r ->
  timers W !! r = Some (due, CbRecheckAll) -> (t < due)%Z ->
  audits (dueAt t W) = 0 /\ Forall (fun cb => cb <> CbRecheckAll) (dueAt t W).
Proof.
  intros [Hinv _] Hr Hl Hlt.
  assert (Hno : forall x, x ∈ map_to_list (timers W) ->
                  x.2.2 = CbRecheckAll -> (x.2.1 <= t)%Z -> False).
  { intros [i [d cb]] Hin Hcb Hd. simpl in *. subst cb.
    apply elem_of_map_to_list in Hin.
    pose proof (Hinv _ _ Hin) as Hi. rewrite Hr in Hi. injection Hi as <-.
    rewrite Hl in Hin. injection Hin as <-. lia. }
  split.
  - rewrite audits_dueAt.
    rewrite (nil_of_no_elem (filter _ _)); [done|].
    intros x Hx. apply list_elem_of_filter in Hx as [[Hcb Hd] Hin]. eauto.
  - unfold dueAt. apply Forall_forall. intros cb Hcb.
    apply list_elem_of_fmap in Hcb as [x [-> Hx]].
    apply list_elem_of_filter in Hx as [Hd Hin]. intros Hc. eauto.
Qed.

Lemma audits_dueAt_one t W r due :
  timersOk W -> recheckTimeout (this W) = Some r ->
  timers W !! r = Some (due, CbRecheckAll) -> (due <= t)%Z ->
  audits (dueAt t W) = 1.
Proof.
  intros [Hinv _] Hr Hl Hle. rewrite audits_dueAt.
  apply (NoDup_only _ (r, (due, CbRecheckAll))).
  - apply NoDup_filter, NoDup_map_to_list.
  - intros [i [d cb]] Hx. apply list_elem_of_filter in Hx as [[Hcb Hd] Hin].
    simpl in *. subst cb. apply elem_of_map_to_list in Hin.
    pose proof (Hinv _ _ Hin) as Hi. rewrite Hr in Hi. injection Hi as <-.
    rewrite Hl in Hin. by injection Hin as <-.
  - apply list_elem_of_filter. split; [done|]. by apply elem_of_map_to_list.
Qed.

Lemma pendingAudits_le_1 W : timersOk W -> length (pendingAudits W) <= 1.
Proof.
  intros [Hinv _]. unfold pendingAudits.
  destruct (recheckTimeout (this W)) as [r|] eqn:Hr.
  - apply (NoDup_all_equal _ r); [apply NoDup_fst_map_to_list|].
    intros i Hi. apply list_elem_of_fmap in Hi as [[i' [d cb]] [-> Hin]].
    apply elem_of_map_to_list, map_lookup_filter_Some in Hin as [Hl Hcb].
    simpl in *. subst cb. apply Hinv in Hl. congruence.
  - rewrite (nil_of_no_elem (_.*1)); [simpl; lia|].
    intros i Hi. apply list_elem_of_fmap in Hi as [[i' [d cb]] [-> Hin]].
    apply elem_of_map_to_list, map_lookup_filter_Some in Hin as [Hl Hcb].
    simpl in *. subst cb. apply Hinv in Hl. congruence.
Qed.

Lemma timers_debounceRecheck delay W :
  timers (debounceRecheck delay W) =
  <[nextTimer W := ((now W + effectiveDelay delay W)%Z, CbRecheckAll)]>
    (match recheckTimeout (this W) with
     | Some t => delete t (timers W)
     | None => timers W
     end)
  /\ nextTimer (debounceRecheck delay W) = S (nextTimer W)
  /\ recheckTimeout (this (debounceRecheck delay W)) = Some (nextTimer W)
  /\ now (debounceRecheck delay W) = now W
  /\ cfg (debounceRecheck delay W) = cfg W.
Proof.
  unfold debounceRecheck, effectiveDelay, debounceArg.
  destruct (recheckTimeout (this W)); done.
Qed.

Lemma timersOk_debounceRecheck delay W : timersOk W -> timersOk (debounceRecheck delay W).
Proof.
  intros [Hinv [Hk Hr]].
  destruct (timers_debounceRecheck delay W) as [Ht [Hn [Hrt _]]].
  unfold timersOk. rewrite Ht, Hn, Hrt. split; [|split].
  - intros t due. rewrite lookup_insert. case_decide; [by intros; subst|].
    intros Hl. exfalso.
    destruct (recheckTimeout (this W)) as [old|] eqn:Ho.
    + apply lookup_delete_Some in Hl as [Hne Hl]. apply Hinv in Hl. congruence.
    + apply Hinv in Hl. congruence.
  - intros t x. rewrite lookup_insert. case_decide; [intros; subst; lia|].
    intros Hl. assert (t < nextTimer W); [|lia].
    destruct (recheckTimeout (this W)) as [old|].
    + apply lookup_delete_Some in Hl as [_ Hl]. eauto.
    + eauto.
  - intros t [= <-]. lia.
Qed.

Lemma timersOk_tick t W : timersOk W -> timersOk (tick t W).
Proof.
  intros [Hinv [Hk Hr]]. unfold timersOk, tick. simpl. split; [|split].
  - intros i due Hl. apply map_lookup_filter_Some in Hl as [Hl _]. eauto.
  - intros i x Hl. apply map_lookup_filter_Some in Hl as [Hl _]. eauto.
  - done.
Qed.

Lemma timersOk_advance fuel dt W r :
  advance fuel dt W = Some r -> timersOk W -> timersOk r.2.
Proof.
  unfold advance. destruct (runCallbacks _ _ _) as [W1|] eqn:E; simpl; [|done].
  intros [= <-] Hok. simpl. apply rest_runCallbacks, rest_sched in E.
  eapply sched_timersOk; [symmetry; apply E|]. by apply timersOk_tick.
Qed.

Lemma sched_clearAll W : sched (clearAll W).2 = sched W.
Proof.
  unfold clearAll. destruct (getAllWidgets W) as [ws|e]; simpl; [|done].
  apply rest_sched. apply (rest_clearEach ws W).
Qed.

Lemma timers_destroy W :
  timers (destroy W).2 =
    (match recheckTimeout (this W) with
     | Some t => delete t (timers W)
     | None => timers W
     end)
  /\ nextTimer (destroy W).2 = nextTimer W
  /\ recheckTimeout (this (destroy W).2) = recheckTimeout (this W)
  /\ mutationObserver (this (destroy W).2) = false.
Proof.
  unfold destroy.
  set (W2 := match recheckTimeout (this (stopWatching W)) with
             | Some t => clearTimeout t (stopWatching W)
             | None => stopWatching W
             end).
  assert (H2 : timers W2 = (match recheckTimeout (this W) with
                            | Some t => delete t (timers W)
                            | None => timers W
                            end)
               /\ nextTimer W2 = nextTimer W
               /\ recheckTimeout (this W2) = recheckTimeout (this W)
               /\ mutationObserver (this W2) = false).
  { unfold W2, stopWatching.
    destruct (mutationObserver (this W)) eqn:Hm; simpl;
      destruct (recheckTimeout (this W)) eqn:Ht; simpl; rewrite ?Ht; simpl; auto. }
  pose proof (rest_clearEach) as Hce.
  unfold clearAll. destruct (getAllWidgets W2) as [ws|e]; simpl; [|done].
  pose proof (Hce ws W2) as Hr. unfold clearEach in Hr.
  injection Hr as _ _ _ Ht Hn _ _ _ Hrt Hm _ _.
  destruct (Dom.getElementById _ _); simpl; by rewrite Ht, Hn, Hrt, Hm.
Qed.

Lemma timersOk_destroy W : timersOk W -> timersOk (destroy W).2.
Proof.
  intros [Hinv [Hk Hr]]. destruct (timers_destroy W) as [Ht [Hn [Hrt _]]].
  unfold timersOk. rewrite Ht, Hn, Hrt. split; [|split]; [| |done].
  - intros t due Hl. destruct (recheckTimeout (this W)); [|eauto].
    apply lookup_delete_Some in Hl as [_ Hl]. eauto.
  - intros t x Hl. destruct (recheckTimeout (this W)); [|eauto].
    apply lookup_delete_Some in Hl as [_ Hl]. eauto.
Qed.

Lemma timersOk_detached fuel W W0 W' :
  sched W = sched W0 -> recheckAll_detached fuel W = Some W' ->
  timersOk W0 -> timersOk W'.
Proof.
  intros Hs Hr Hok. apply rest_recheckAll_detached, rest_sched in Hr.
  eapply sched_timersOk; [|apply Hok]. by rewrite Hr.
Qed.

Lemma timersOk_step fuel op W W' : step fuel op W = Some W' -> timersOk W -> timersOk W'.
Proof.
  destruct op; simpl.
  - by apply timersOk_detached.
  - intros [= <-]. apply timersOk_debounceRecheck.
  - intros [= <-]. apply sched_timersOk. unfold startWatching, setupMutationObserver.
    destruct (default false _); [|done]. by destruct (mutationObserver _).
  - intros [= <-]. apply sched_timersOk. unfold stopWatching.
    by destruct (mutationObserver _).
  - intros [= <-]. apply sched_timersOk. symmetry. apply sched_clearAll.
  - unfold addSelectors. by apply timersOk_detached.
  - unfold removeSelectors. by apply timersOk_detached.
  - unfold updateConfig. apply timersOk_detached.
    by destruct (uiClassesOverride' newConfig).
  - by intros [= <-].
  - intros [= <-]. by apply sched_timersOk.
  - intros [= <-]. apply timersOk_destroy.
  - destruct (advance fuel dt W) as [r|] eqn:E; simpl; [|done].
    intros [= <-]. by eapply timersOk_advance.
Qed.

Lemma timersOk_run fuel ops W W' : run fuel ops W = Some W' -> timersOk W -> timersOk W'.
Proof.
  revert W. induction ops as [|op ops IH]; intros W; simpl.
  - by intros [= <-].
  - destruct (step fuel op W) as [W1|] eqn:E; simpl; [|done].
    intros Hr Hok. apply (IH _ Hr). by eapply timersOk_step.
Qed.

Lemma cfg_effectiveDelay delay W W' :
  cfg W = cfg W' -> effectiveDelay delay W = effectiveDelay delay W'.
Proof. unfold effectiveDelay, debounceArg. by intros ->. Qed.

Lemma cfg_attemptsAllowed W W' : cfg W = cfg W' -> attemptsAllowed W = attemptsAllowed W'.
Proof. unfold attemptsAllowed. by intros ->. Qed.

Lemma audits_app a b : audits (a ++ b) = audits a + audits b.
Proof. unfold audits. by rewrite filter_app, length_app. Qed.

(** A request followed by less than its delay: nothing that starts an audit
    fires, and the timer stays pending. *)
Lemma advance_before_due fuel delay g W :
  timersOk W -> (0 <= g < effectiveDelay delay W)%Z ->
  advance fuel g (debounceRecheck delay W)
  = Some (dueAt (now W + g) (debounceRecheck delay W),
          tick (now W + g) (debounceRecheck delay W))
  /\ audits (dueAt (now W + g) (debounceRecheck delay W)) = 0.
Proof.
  intros Hok Hg.
  destruct (timers_debounceRecheck delay W) as [Ht [Hn [Hrt [Hnow Hcfg]]]].
  assert (Hok1 : timersOk (debounceRecheck delay W)) by by apply timersOk_debounceRecheck.
  destruct (audits_dueAt_none (now W + g) (debounceRecheck delay W) (nextTimer W)
              (now W + effectiveDelay delay W)%Z) as [Ha Hf]; try done.
  { rewrite Ht. by rewrite lookup_insert_eq. }
  { lia. }
  split; [|done]. unfold advance. rewrite Hnow.
  replace (Z.max 0 g) with g by lia.
  by rewrite runCallbacks_others.
Qed.

Lemma unscheduled_debounceRecheck delay W :
  unscheduled (debounceRecheck delay W) = unscheduled W.
Proof. unfold debounceRecheck. by destruct (recheckTimeout (this W)). Qed.

Lemma unscheduled_tick t W : unscheduled (tick t W) = unscheduled W.
Proof. done. Qed.

(** Callbacks of which one is the validator's: what they do is one audit. *)
Lemma runCallbacks_one_audit fuel cbs W :
  audits cbs = 1 -> runCallbacks fuel cbs W = recheckAll_detached fuel W.
Proof.
  revert W. induction cbs as [|cb cbs IH]; intros W; [done|].
  change (cb :: cbs) with ([cb] ++ cbs). rewrite audits_app.
  destruct cb as [|n]; cbn [runCallbacks app runCallback].
  - intros Ha. assert (Hz : audits cbs = 0) by (vm_compute in Ha |- *; lia).
    destruct (recheckAll_detached fuel W) as [W1|]; [|done].
    cbn [mbind option_bind]. apply runCallbacks_others.
    apply Forall_forall. intros cb Hin Hcb. subst cb.
    unfold audits in Hz. apply length_zero_iff_nil in Hz.
    assert (Hf : CbRecheckAll ∈ filter (fun cb => cb = CbRecheckAll) cbs).
    { by apply list_elem_of_filter. }
    rewrite Hz in Hf. by apply not_elem_of_nil in Hf.
  - intros Ha. cbn [mbind option_bind]. by apply IH.
Qed.

(** Once the delay of the remembered request has passed, no re-audit is
    left on the queue. *)
Lemma pendingAudits_tick t W due :
  timersOk W ->
  (forall i, recheckTimeout (this W) = Some i ->
     timers W !! i = Some (due, CbRecheckAll)) ->
  (due <= t)%Z ->
  pendingAudits (tick t W) = [].
Proof.
  intros [Hinv _] Hstored Hdue. apply nil_of_no_elem. intros i Hin.
  unfold pendingAudits in Hin. apply list_elem_of_fmap in Hin as [[i' [d cb]] [-> Hin]].
  apply elem_of_map_to_list, map_lookup_filter_Some in Hin as [Hl Hcb].
  simpl in Hcb. subst cb. unfold tick in Hl. simpl in Hl.
  apply map_lookup_filter_Some in Hl as [Hl Hlt]. simpl in Hlt.
  pose proof (Hinv _ _ Hl) as Hr. apply Hstored in Hr.
  rewrite Hl in Hr. injection Hr as ->. lia.
Qed.

(** A request followed by at least its delay: exactly one audit starts, on
    the world as the request and the wait left it, and none stays
    pending. *)
Lemma advance_after_due fuel delay last W :
  timersOk W -> attemptsAllowed W < fuel -> (effectiveDelay delay W <= last)%Z ->
  exists r,
    advance fuel last (debounceRecheck delay W) = Some r
    /\ audits r.1 = 1
    /\ recheckAll_detached fuel (tick (now W + last) (debounceRecheck delay W)) = Some r.2
    /\ pendingAudits r.2 = [].
Proof.
  intros Hok Hfuel Hlast. set (W1 := debounceRecheck delay W).
  destruct (timers_debounceRecheck delay W) as [Ht [Hn [Hrt [Hnow Hcfg]]]].
  fold W1 in Ht, Hn, Hrt, Hnow, Hcfg.
  assert (Hok1 : timersOk W1) by by apply timersOk_debounceRecheck.
  assert (HD : (0 <= effectiveDelay delay W)%Z) by (unfold effectiveDelay; lia).
  assert (Hone : audits (dueAt (now W1 + Z.max 0 last) W1) = 1).
  { apply (audits_dueAt_one _ W1 (nextTimer W) (now W + effectiveDelay delay W)%Z);
      try done.
    - rewrite Ht. by rewrite lookup_insert_eq.
    - rewrite Hnow. lia. }
  unfold advance.
  rewrite (runCallbacks_one_audit _ _ _ Hone).
  destruct (recheckAll_detached_total fuel (tick (now W1 + Z.max 0 last) W1)) as [W' HW'].
  { rewrite (cfg_attemptsAllowed _ W); [done|]. exact Hcfg. }
  rewrite HW'. cbn [mbind option_bind]. eexists. split; [done|]. cbn [fst snd].
  split; [done|]. split.
  - rewrite <- HW', Hnow. by replace (Z.max 0 last) with last by lia.
  - apply rest_recheckAll_detached in HW'.
    assert (Hp : pendingAudits (tick (now W1 + Z.max 0 last) W1) = []).
    { apply (pendingAudits_tick _ _ (now W + effectiveDelay delay W)%Z); auto.
      - intros i. rewrite Hrt. intros [= <-]. rewrite Ht. by rewrite lookup_insert_eq.
      - rewrite Hnow. lia. }
    unfold pendingAudits in *. unfold rest in HW'.
    by injection HW' as _ _ _ -> _ _ _ _ _ _ _ _.
Qed.

Lemma burst_coalesces fuel delay gaps last :
  forall W,
  timersOk W -> attemptsAllowed W < fuel ->
  Forall (fun g => (0 <= g < effectiveDelay delay W)%Z) gaps ->
  (effectiveDelay delay W <= last)%Z ->
  exists r Wt,
    burst fuel delay (gaps ++ [last]) W = Some r
    /\ audits r.1 = 1
    /\ unscheduled Wt = unscheduled W
    /\ now Wt = (now W + elapsed (gaps ++ [last]))%Z
    /\ recheckAll_detached fuel Wt = Some r.2
    /\ pendingAudits r.2 = [].
Proof.
  induction gaps as [|g gaps IH]; intros W Hok Hfuel Hgaps Hlast;
    cbn [app burst].
  - destruct (advance_after_due fuel delay last W) as [r [-> [Ha [Hr Hp]]]]; try done.
    cbn [mbind option_bind]. eexists _, _. split; [done|]. cbn [fst snd].
    split; [by rewrite app_nil_r|]. split; [|split; [|split; [exact Hr|exact Hp]]].
    + by rewrite unscheduled_tick, unscheduled_debounceRecheck.
    + unfold elapsed. simpl. lia.
  - apply Forall_cons in Hgaps as [Hg Hgaps].
    destruct (advance_before_due fuel delay g W Hok Hg) as [-> Ha].
    cbn [mbind option_bind fst snd].
    assert (Hcfg : cfg (tick (now W + g) (debounceRecheck delay W)) = cfg W).
    { destruct (timers_debounceRecheck delay W) as [_ [_ [_ [_ Hc]]]]. exact Hc. }
    destruct (IH (tick (now W + g) (debounceRecheck delay W)))
      as [r [Wt [-> [Hr [Hu [Hn [Hd Hp]]]]]]].
    + apply timersOk_tick. by apply timersOk_debounceRecheck.
    + by rewrite (cfg_attemptsAllowed _ _ Hcfg).
    + by rewrite (cfg_effectiveDelay _ _ _ Hcfg).
    + by rewrite (cfg_effectiveDelay _ _ _ Hcfg).
    + cbn [mbind option_bind]. eexists _, Wt. split; [done|]. cbn [fst snd].
      split; [by rewrite audits_app, Ha, Hr|].
      split; [by rewrite Hu, unscheduled_tick, unscheduled_debounceRecheck|].
      split; [|done]. rewrite Hn. unfold elapsed. simpl. lia.
Qed.

(** C7. At most one scheduled re-audit is pending at any time.  Each call
    to [debounceRecheck] cancels the timer the validator remembers and
    stores a new one, which is then the only pending re-audit.  A burst of
    requests, each made less than the debounce delay after the one before,
    makes exactly one audit invocation: once the delay has passed after the
    last request one callback of the validator fires, the world the burst
    ends in is the one that a single call of [recheckAll] leaves, started
    at that time on a world that the requests and the waits have changed in
    its scheduling part only, and no re-audit is pending any more.  (The
    delay is the one the host makes of the number it is given, a 32-bit
    signed integer.) *)
Theorem debounce_single_pending :
  (forall fuel ops W W',
     timersOk W -> run fuel ops W = Some W' ->
     timersOk W' /\ length (pendingAudits W') <= 1)
  /\ (forall delay W,
        timersOk W ->
        let W' := debounceRecheck delay W in
        (forall t, recheckTimeout (this W) = Some t -> timers W' !! t = None)
        /\ recheckTimeout (this W') = Some (nextTimer W)
        /\ timers W' !! nextTimer W
           = Some ((now W + effectiveDelay delay W)%Z, CbRecheckAll)
        /\ length (pendingAudits W') = 1)
  /\ (forall fuel delay gaps last W,
        timersOk W -> attemptsAllowed W < fuel ->
        Forall (fun g => (0 <= g < effectiveDelay delay W)%Z) gaps ->
        (effectiveDelay delay W <= last)%Z ->
        exists fired W' Wt,
          burst fuel delay (gaps ++ [last]) W = Some (fired, W')
          /\ audits fired = 1
          /\ unscheduled Wt = unscheduled W
          /\ now Wt = (now W + elapsed (gaps ++ [last]))%Z
          /\ recheckAll_detached fuel Wt = Some W'
          /\ pendingAudits W' = []).
Proof.
  split; [|split].
  - intros fuel ops W W' Hok Hrun.
    assert (timersOk W') by by eapply timersOk_run.
    split; [done|]. by apply pendingAudits_le_1.
  - intros delay W Hok W'.
    destruct (timers_debounceRecheck delay W) as [Ht [Hn [Hrt _]]]. fold W' in Ht, Hn, Hrt.
    assert (Hok' : timersOk W') by by apply timersOk_debounceRecheck.
    assert (Hnew : timers W' !! nextTimer W
                   = Some ((now W + effectiveDelay delay W)%Z, CbRecheckAll)).
    { rewrite Ht. by rewrite lookup_insert_eq. }
    split; [|split; [done|split; [done|]]].
    + intros t Hold. rewrite Ht, Hold.
      destruct Hok as [_ [_ Hr]]. apply Hr in Hold.
      rewrite lookup_insert_ne by lia. by rewrite lookup_delete_eq.
    + pose proof (pendingAudits_le_1 W' Hok') as Hle.
      assert (Hin : nextTimer W ∈ pendingAudits W').
      { unfold pendingAudits. apply list_elem_of_fmap. eexists (_, _). split; [done|].
        apply elem_of_map_to_list, map_lookup_filter_Some. split; [exact Hnew|done]. }
      destruct (pendingAudits W'); [by apply not_elem_of_nil in Hin|simpl in *; lia].
  - intros fuel delay gaps last W Hok Hfuel Hgaps Hlast.
    destruct (burst_coalesces fuel delay gaps last W)
      as [[fired W'] [Wt [Hb [Ha [Hu [Hn [Hd Hp]]]]]]]; try done.
    exists fired, W', Wt. done.
Qed.

End Properties.

(** * The properties on the concrete page *)

(** C1 at the page with one [.card-video] widget and an engine that always
    fails: two invocations, no exception, no UI. *)
Lemma recheckAll_engine_failure_witness :
  wellFormedUI (uiClasses (this (Page.world [".card-video"])))
  /\ getAllWidgets (H := Std.failing) (injectCSS (Page.world [".card-video"])) = Ok [3]
  /\ exists W',
       recheckAll (H := Std.failing) 3 (Page.world [".card-video"]) = Some (Ok tt, W')
       /\ engineCalls W' = 2
       /\ noUI W' 3.
Proof.
  split; [by vm_compute|]. split; [vm_compute; reflexivity|].
  destruct (@recheckAll_engine_failure Std.failing 3 (Page.world [".card-video"]) [3])
    as [W' [warn [Hr [Ht [Hw [Hc [Hm Hn]]]]]]].
  - by vm_compute.
  - vm_compute; reflexivity.
  - discriminate.
  - intros n d o _. eexists. reflexivity.
  - vm_compute; lia.
  - exists W'. split; [exact Hr|]. split; [exact Hc|].
    apply Hn. left.
Defined.

(** C2 at the page: with rules and tags both configured the restriction
    is by rule; with the page's default configuration (no rules, no tags)
    there is none. *)
Lemma axeOptions_runOnly_witness :
  configured rulesWorld (axeRules (cfg rulesWorld)) ["color-contrast"]
  /\ configured rulesWorld (axeTags (cfg rulesWorld)) ["wcag2a"]
  /\ runOnly (axeOptions rulesWorld)
     = Some {| type := rule; values := ["color-contrast"] |}
  /\ runOnly (axeOptions (Page.world [".card-video"])) = None.
Proof.
  assert (Hr : configured rulesWorld (axeRules (cfg rulesWorld)) ["color-contrast"]).
  { exists 3. split; [reflexivity|]. split; [reflexivity|discriminate]. }
  assert (Ht : configured rulesWorld (axeTags (cfg rulesWorld)) ["wcag2a"]).
  { exists 4. split; [reflexivity|]. split; [reflexivity|discriminate]. }
  split; [exact Hr|]. split; [exact Ht|]. split.
  - exact (proj2 (proj1 (axeOptions_runOnly (H := Std.failing) rulesWorld) _) Hr).
  - apply (proj1 (proj2 (proj2 (axeOptions_runOnly (H := Std.failing)
                                  (Page.world [".card-video"]))))).
    split.
    + right. exists 0. split; reflexivity.
    + left. reflexivity.
Defined.

(** C3 at the page: the violation on the thumbnail belongs to the video
    card. *)
Lemma widgetViolations_attribution_witness :
  lookupsComplete (H := Page.reporting) Page.document [Page.imageAlt]
  /\ exists attributed,
       widgetViolations (H := Page.reporting) Page.document [Page.imageAlt] 3
       = Ok attributed
       /\ forall v, v ∈ attributed
            <-> v ∈ [Page.imageAlt]
                /\ exists n, n ∈ nodes v
                     /\ resolvesInto (H := Page.reporting) Page.document 3 n.
Proof.
  assert (Hc : lookupsComplete (H := Page.reporting) Page.document [Page.imageAlt]).
  { intros v n Hv Hn. apply list_elem_of_singleton in Hv. subst v.
    apply list_elem_of_singleton in Hn. subst n. eexists. vm_compute. reflexivity. }
  split; [exact Hc|].
  exact (proj1 (widgetViolations_attribution (H := Page.reporting)
                  Page.document [Page.imageAlt] Hc) 3).
Defined.


(** C5 (amended) at the page: no element matches [.card]; element 3
    matches [.card-video]. *)
Lemma recheckAll_resolves_then_clears_witness :
  getAllWidgets (H := Std.failing) (injectCSS (Page.world [".card"])) = Ok []
  /\ recheckAll (H := Std.failing) 0 (Page.world [".card"])
     = Some (Ok tt, injectCSS (Page.world [".card"]))
  /\ wellFormedUI (uiClasses (this (Page.world [".card-video"])))
  /\ getAllWidgets (H := Std.failing) (injectCSS (Page.world [".card-video"])) = Ok [3]
  /\ noUI (clearEach [3] (injectCSS (Page.world [".card-video"]))) 3.
Proof.
  assert (H0 : getAllWidgets (H := Std.failing) (injectCSS (Page.world [".card"])) = Ok []).
  { vm_compute; reflexivity. }
  assert (H1 : getAllWidgets (H := Std.failing) (injectCSS (Page.world [".card-video"]))
               = Ok [3]).
  { vm_compute; reflexivity. }
  split; [exact H0|]. split.
  - exact (proj1 (proj1 (recheckAll_resolves_then_clears (H := Std.failing) 0
                           (Page.world [".card"])) H0)).
  - assert (Hwf : wellFormedUI (uiClasses (this (Page.world [".card-video"])))).
    { by vm_compute. }
    split; [exact Hwf|]. split; [exact H1|].
    assert (Hne : [3] <> @nil nat) by discriminate.
    apply (proj1 (proj2 (proj2 (proj2 (recheckAll_resolves_then_clears
             (H := Std.failing) 0 (Page.world [".card-video"])) [3] Hwf H1 Hne)))).
    left.
Defined.

(** C6 (amended) at the page with no selector: the DOM's answer to the
    empty selector, and a lenient engine's. *)
Lemma empty_selectors_propagate_witness :
  readArray (Page.world []) (widgetSelectors (cfg (Page.world []))) = []
  /\ querySelectorAll (Platform := Std.failing) "" (dom (Page.world [])) = Throw SyntaxError
  /\ clearAll (H := Std.failing) (Page.world []) = (Throw SyntaxError, Page.world [])
  /\ getWidgetStates (H := Std.failing) (Page.world []) = Throw SyntaxError
  /\ querySelectorAll (Platform := Std.lenient) "" (dom (Page.world [])) = Ok []
  /\ clearAll (H := Std.lenient) (Page.world []) = (Ok tt, Page.world []).
Proof.
  assert (Hs : readArray (Page.world []) (widgetSelectors (cfg (Page.world []))) = []).
  { vm_compute; reflexivity. }
  assert (Ht : querySelectorAll (Platform := Std.failing) "" (dom (Page.world []))
               = Throw SyntaxError).
  { vm_compute; reflexivity. }
  assert (Ho : querySelectorAll (Platform := Std.lenient) "" (dom (Page.world [])) = Ok []).
  { vm_compute; reflexivity. }
  destruct (empty_selectors_propagate (H := Std.failing) 3 (Page.world []) Hs)
    as [_ [_ [Hthrow _]]].
  destruct (empty_selectors_propagate (H := Std.lenient) 3 (Page.world []) Hs)
    as [_ [_ [_ [_ [Hok _]]]]].
  split; [exact Hs|]. split; [exact Ht|].
  split; [exact (proj1 (Hthrow _ Ht))|]. split; [exact (proj2 (Hthrow _ Ht))|].
  split; [exact Ho|]. exact (proj1 (Hok Ho)).
Defined.

(** C7 at the page: three requests 100 ms and 200 ms apart, with the
    default delay of 300 ms; the one audit starts at 600 ms. *)
Lemma debounce_single_pending_witness :
  timersOk (Page.world [".card-video"])
  /\ exists fired W' Wt,
       burst (H := Page.reporting) 3 None ([100; 200] ++ [300])%Z
             (Page.world [".card-video"])
       = Some (fired, W')
       /\ audits fired = 1
       /\ unscheduled Wt = unscheduled (Page.world [".card-video"])
       /\ now Wt = (now (Page.world [".card-video"]) + elapsed ([100; 200] ++ [300]))%Z
       /\ recheckAll_detached (H := Page.reporting) 3 Wt = Some W'
       /\ pendingAudits W' = [].
Proof.
  assert (Hok : timersOk (Page.world [".card-video"])).
  { split; [|split].
    - intros t due Hl. vm_compute in Hl. discriminate.
    - intros t x Hl. vm_compute in Hl. discriminate.
    - intros t Hl. vm_compute in Hl. discriminate. }
  split; [exact Hok|].
  apply (proj2 (proj2 (debounce_single_pending (H := Page.reporting)))).
  - exact Hok.
  - vm_compute; lia.
  - repeat constructor; vm_compute; congruence.
  - vm_compute; congruence.
Defined.

(** C9 (amended) at the page's validator. *)
Lemma getConfig_shallow_copy_witness :
  config (this (Page.world [".card-video"])) < nextLoc (Page.world [".card-video"])
  /\ (getConfig (Page.world [".card-video"])).1
     <> config (this (getConfig (Page.world [".card-video"])).2)
  /\ cfg (getConfig (Page.world [".card-video"])).2 = cfg (Page.world [".card-video"]).
Proof.
  assert (Hlt : config (this (Page.world [".card-video"]))
                < nextLoc (Page.world [".card-video"])).
  { vm_compute; lia. }
  split; [exact Hlt|].
  destruct (getConfig_shallow_copy (Page.world [".card-video"]) Hlt)
    as [Hne [_ [Hc _]]].
  split; [exact Hne|exact Hc].
Defined.

(** C10 at the page: an audit that finds a violation, then a clear. *)
Lemma widget_states_consistent_witness :
  widgetCache (this (Page.world [".card-video"])) = ∅
  /\ exists W',
       run (H := Page.reporting) 3 [RecheckAll; ClearAll] (Page.world [".card-video"])
       = Some W'
       /\ forall w, consistent (getWidgetState W' w).
Proof.
  split; [reflexivity|].
  destruct (run (H := Page.reporting) 3 [RecheckAll; ClearAll]
              (Page.world [".card-video"])) as [W'|] eqn:E.
  - exists W'. split; [reflexivity|].
    exact (proj1 (proj2 (widget_states_consistent (H := Page.reporting) 3
                           [RecheckAll; ClearAll] (Page.world [".card-video"]) W'
                           eq_refl E))).
  - vm_compute in E. discriminate.
Defined.

(** * Where the code departs from the claims *)

(** C5, counterexample.  Element 3 got its badge and popup while
    [.card-video] was a selector; once the selector is removed, a call to
    [recheckAll] resolves the widget set to element 5 alone and leaves the
    UI of element 3 in place: it did not first clear all existing UI. *)
Lemma recheckAll_leaves_unmatched_UI :
  exists W W',
    run (H := Page.reporting) 3 [RecheckAll; RemoveSelectors [".card-video"]]
        (Page.world [".card-video"; ".card-audio"]) = Some W
    /\ getAllWidgets (H := Page.reporting) W = Ok [5]
    /\ uiChildren W 3 = [8; 9]
    /\ recheckAll (H := Page.reporting) 3 W = Some (Ok tt, W')
    /\ uiChildren W' 3 = [8; 9]
    /\ outlined W' 3 = true
    /\ getWidgetState W' 3 = {| lastViolationCount := 1; hasUI := true |}.
Proof.
  eexists _, _. split; [vm_compute; reflexivity|].
  split; [vm_compute; reflexivity|].
  split; [vm_compute; reflexivity|].
  split; [vm_compute; reflexivity|].
  repeat split; vm_compute; reflexivity.
Qed.

(** C6, counterexample.  With an empty selector list and the DOM's selector
    query, the widget set does not resolve to zero widgets: the query
    raises, [clearAll] and [getWidgetStates] raise to their caller and the
    promise of [recheckAll] is rejected. *)
Lemma empty_selectors_raise :
  readArray (Page.world []) (widgetSelectors (cfg (Page.world []))) = []
  /\ getAllWidgets (H := Std.failing) (Page.world []) = Throw SyntaxError
  /\ (clearAll (H := Std.failing) (Page.world [])).1 = Throw SyntaxError
  /\ getWidgetStates (H := Std.failing) (Page.world []) = Throw SyntaxError
  /\ fst <$> recheckAll (H := Std.failing) 3 (Page.world []) = Some (Throw SyntaxError).
Proof. repeat split; vm_compute; reflexivity. Qed.

(** C8, the code at the failing input.  After an audit that rendered one
    popup, with the observer running and a re-audit scheduled, [destroy]
    stops the observer, cancels the timer, clears the UI and removes the
    stylesheet; but [clearAll] has taken the popup out of the document
    before the clean-up loop looks for popups, so the loop finds none and
    the outside-click listener stays registered on the document. *)
Lemma destroy_keeps_outside_click_listener :
  exists W,
    run (H := Page.reporting) 3 [RecheckAll; StartWatching; DebounceRecheck None]
        (Page.world [".card-video"]) = Some W
    /\ Dom.docListeners (dom W) = [("click", Dom.OutsideClick 8 9 3)]
    /\ mutationObserver (this W) = true
    /\ pendingAudits W = [0]
    /\ uiChildren W 3 = [8; 9]
    /\ (destroy (H := Page.reporting) W).1 = Ok tt
    /\ mutationObserver (this (destroy (H := Page.reporting) W).2) = false
    /\ pendingAudits (destroy (H := Page.reporting) W).2 = []
    /\ uiChildren (destroy (H := Page.reporting) W).2 3 = []
    /\ outlined (destroy (H := Page.reporting) W).2 3 = false
    /\ Dom.getElementById "wa11y-style" (dom (destroy (H := Page.reporting) W).2) = None
    /\ Dom.byClass "wa11y-popup" (dom (destroy (H := Page.reporting) W).2) = []
    /\ Dom.docListeners (dom (destroy (H := Page.reporting) W).2)
       = [("click", Dom.OutsideClick 8 9 3)].
Proof.
  eexists. split; [vm_compute; reflexivity|].
  repeat split; vm_compute; reflexivity.
Qed.

(** C9, counterexample.  Pushing a selector onto the [widgetSelectors] list
    of the object that [getConfig] returned changes the validator's own
    selector list, and with it the widgets the validator resolves. *)
Lemma getConfig_shares_selectors :
  exists copy,
    objects (getConfig (Page.world [".card-video"])).2
      !! (getConfig (Page.world [".card-video"])).1 = Some copy
    /\ getCombinedSelector (getConfig (Page.world [".card-video"])).2 = ".card-video"
    /\ getAllWidgets (H := Std.failing) (getConfig (Page.world [".card-video"])).2 = Ok [3]
    /\ getCombinedSelector
         (push (widgetSelectors copy) [".card-audio"]
               (getConfig (Page.world [".card-video"])).2)
       = ".card-video, .card-audio"
    /\ getAllWidgets (H := Std.failing)
         (push (widgetSelectors copy) [".card-audio"]
               (getConfig (Page.world [".card-video"])).2)
       = Ok [3; 5].
Proof.
  eexists. split; [vm_compute; reflexivity|].
  repeat split; vm_compute; reflexivity.
Qed.

(** * Further properties of the code *)

Section MoreProperties.

Context `{Platform}.

(** ** The audit, whatever the engine does *)

Lemma engineCalls_attempt ws W : engineCalls (attempt ws W).2 = S (engineCalls W).
Proof.
  destruct (trace_attempt ws W) as [tl [Ht Hno]].
  assert (Hnil : List.filter is_AxeRun tl = []).
  { clear Ht. induction Hno as [|ev l Hev _ IH]; simpl; [done|]. by rewrite Hev. }
  unfold engineCalls. rewrite Ht, List.filter_app, length_app.
  cbn [List.filter is_AxeRun]. rewrite Hnil. simpl. lia.
Qed.

Lemma trace_renderEmpty ws W :
  trace (foldl (fun W widget => renderWidgetUI widget [] W) W ws) = trace W.
Proof.
  revert W. induction ws as [|w ws IH]; intros W; simpl; [done|].
  by rewrite IH, trace_renderWidgetUI.
Qed.

Lemma engineCalls_onFailure ws a err W :
  engineCalls (onFailure ws a err W) = engineCalls W.
Proof.
  unfold onFailure, engineCalls. destruct (gtMax _ _).
  - rewrite trace_renderEmpty. destruct (debug W); simpl; [|done].
    rewrite List.filter_app, length_app. simpl. lia.
  - simpl. rewrite List.filter_app, length_app. simpl. lia.
Qed.

Lemma retryLoop_calls_bounded fuel ws a W W' :
  retryLoop fuel ws a W = Some W' ->
  engineCalls W' <= engineCalls W + remaining a W.
Proof.
  revert a W. induction fuel as [|fuel IH]; intros a W; simpl; [done|].
  destruct (leMax a (maxRetries (cfg W))) eqn:Hle; [|intros [= <-]; lia].
  pose proof (leMax_remaining _ _ Hle) as Hrem.
  pose proof (engineCalls_attempt ws W) as Hcalls.
  pose proof (rest_attempt ws W) as Hrest.
  destruct (attempt ws W) as [[u|err] W1]; simpl in *.
  - intros [= <-]. lia.
  - intros Hl. apply IH in Hl.
    rewrite engineCalls_onFailure in Hl.
    rewrite (rest_remaining _ _ W) in Hl by (by rewrite rest_onFailure).
    lia.
Qed.

(** X1. For a validator whose UI class names are valid class names (so that
    the clearing of the widgets, which also stands before the [try] block,
    cannot raise): given fuel above [maxRetries + 1], [recheckAll] always
    returns.  Its promise is rejected only by the error of the widget
    query; once the widget set has resolved, whatever the engine and the
    target lookups do, it resolves, after at most [maxRetries + 1] engine
    invocations, and it leaves the configuration, the heap, the timers, the
    observer and the UI class names as they were. *)
Theorem recheckAll_always_settles (fuel : nat) (W : World) :
  wellFormedUI (uiClasses (this W)) ->
  attemptsAllowed W < fuel ->
  exists r W',
    recheckAll fuel W = Some (r, W')
    /\ (forall e, r = Throw e <-> getAllWidgets (injectCSS W) = Throw e)
    /\ engineCalls W' <= engineCalls W + attemptsAllowed W
    /\ rest W' = rest W.
Proof.
  intros _ Hf. rewrite <- attemptsAllowed_remaining in *.
  destruct (recheckAll_total fuel W Hf) as [[r W'] Hr].
  exists r, W'. split; [done|].
  pose proof (rest_recheckAll _ _ _ Hr) as Hrest. simpl in Hrest.
  revert Hr. unfold recheckAll.
  destruct (getAllWidgets (injectCSS W)) as [ws|e0] eqn:Hw.
  - destruct (length ws =? 0)%nat.
    + intros [= <- <-]. split; [by split|]. split; [|done].
      unfold engineCalls. rewrite trace_injectCSS. lia.
    + fold (clearEach ws (injectCSS W)).
      destruct (retryLoop _ _ _ _) as [W2|] eqn:E; simpl; [|done].
      intros [= <- <-]. split; [by split|]. split; [|done].
      apply retryLoop_calls_bounded in E.
      rewrite (rest_remaining _ _ W) in E
        by (by rewrite rest_clearEach, rest_injectCSS).
      unfold engineCalls in *.
      rewrite trace_clearEach, trace_injectCSS in E. exact E.
  - intros [= <- <-]. split.
    + intros e. split; congruence.
    + split; [|done]. unfold engineCalls. rewrite trace_injectCSS. lia.
Qed.

(** ** An engine that recovers *)

Lemma renderAll_nil_cleared ws W :
  (forall w, w ∈ ws -> getWidgetState W w = clearedState) ->
  renderAll [] ws W = (Ok tt, W).
Proof.
  induction ws as [|w ws IH]; intros Hc; simpl; [done|].
  rewrite renderWidgetUI_nil_cleared by (apply Hc; by left).
  apply IH. intros x Hx. apply Hc. by right.
Qed.

Lemma retryLoop_recovers ws k :
  forall fuel W a,
  (forall w, w ∈ ws -> getWidgetState W w = clearedState) ->
  (forall i d o, i < k -> exists e, axe_run (engineCalls W + i) d o = Throw e) ->
  (forall d o, axe_run (engineCalls W + k) d o = Ok []) ->
  k < remaining a W -> remaining a W < fuel ->
  retryLoop fuel ws a W
  = Some (emitAll (retries (axeOptions W) k ++ AxeRun (axeOptions W) :: debugLog W []) W).
Proof.
  induction k as [|k IH]; intros fuel W a Hc Hfail Hok Hk Hf.
  - destruct fuel as [|fuel]; [lia|]. simpl.
    assert (Hle : leMax a (maxRetries (cfg W)) = true).
    { unfold leMax, remaining in *. destruct (maxRetries (cfg W)); [|lia].
      apply Z.leb_le. lia. }
    rewrite Hle. unfold attempt.
    replace (engineCalls W) with (engineCalls W + 0) by lia. rewrite Hok.
    change (debug (emit (AxeRun (axeOptions W)) W)) with (debug W).
    change (ruleInfo (emit (AxeRun (axeOptions W)) W)) with (ruleInfo W).
    rewrite renderAll_nil_cleared.
    + unfold debugLog. by destruct (debug W).
    + intros w Hw. specialize (Hc w Hw). by destruct (debug W).
  - destruct fuel as [|fuel]; [lia|]. simpl.
    assert (Hle : leMax a (maxRetries (cfg W)) = true).
    { unfold leMax, remaining in *. destruct (maxRetries (cfg W)); [|lia].
      apply Z.leb_le. lia. }
    rewrite Hle. pose proof (leMax_remaining _ _ Hle) as Hrem.
    destruct (Hfail 0 (dom W) (axeOptions W)) as [err Herr]; [lia|].
    unfold attempt. replace (engineCalls W + 0) with (engineCalls W) in Herr by lia.
    rewrite Herr. unfold onFailure.
    change (cfg (emit (AxeRun (axeOptions W)) W)) with (cfg W).
    assert (Hgt : gtMax (a + 1) (maxRetries (cfg W)) = false).
    { unfold gtMax, remaining in *. destruct (maxRetries (cfg W)); [|done].
      apply Z.ltb_ge. lia. }
    rewrite Hgt.
    set (W2 := emit (Backoff 50) (emit (AxeRun (axeOptions W)) W)).
    assert (E2 : engineCalls W2 = S (engineCalls W)).
    { unfold W2. by rewrite !engineCalls_emit. }
    rewrite (IH fuel W2 (a + 1)%Z).
    + reflexivity.
    + intros w Hw. apply (Hc w Hw).
    + intros i d o Hi. rewrite E2.
      replace (S (engineCalls W) + i) with (engineCalls W + S i) by lia.
      apply Hfail. lia.
    + intros d o. rewrite E2.
      replace (S (engineCalls W) + k) with (engineCalls W + S k) by lia.
      apply Hok.
    + change (remaining (a + 1) W2) with (remaining (a + 1) W). lia.
    + change (remaining (a + 1) W2) with (remaining (a + 1) W). lia.
Qed.

(** X2. For a validator whose UI class names are valid class names: when
    the engine fails [k] times, with [k] at most [maxRetries], and then
    reports no violation, the audit invokes it [k + 1] times, backs off
    50 ms after each of the [k] failures, logs nothing but the optional
    debug line, resolves, and leaves every matched widget with zero
    violations and no UI.  With [k = 0]: one invocation, no backoff. *)
Theorem recheckAll_recovers (fuel k : nat) (W : World) (widgets : list nat) :
  wellFormedUI (uiClasses (this W)) ->
  getAllWidgets (injectCSS W) = Ok widgets ->
  widgets <> [] ->
  (forall i d o, i < k -> exists e, axe_run (engineCalls W + i) d o = Throw e) ->
  (forall d o, axe_run (engineCalls W + k) d o = Ok []) ->
  k < attemptsAllowed W -> attemptsAllowed W < fuel ->
  exists W',
    recheckAll fuel W = Some (Ok tt, W')
    /\ trace W' = trace W ++ retries (axeOptions W) k
                          ++ AxeRun (axeOptions W) :: debugLog W []
    /\ engineCalls W' = engineCalls W + S k
    /\ length (List.filter is_Backoff (trace W'))
       = length (List.filter is_Backoff (trace W)) + k
    /\ (forall w, w ∈ widgets -> noUI W' w).
Proof.
  intros _ Hws Hne Hfail Hok Hk Hfuel.
  set (W2 := clearEach widgets (injectCSS W)).
  assert (Hrest : rest W2 = rest W).
  { unfold W2. by rewrite rest_clearEach, rest_injectCSS. }
  assert (Htrace : trace W2 = trace W).
  { unfold W2. by rewrite trace_clearEach, trace_injectCSS. }
  assert (Hcalls : engineCalls W2 = engineCalls W).
  { unfold engineCalls. by rewrite Htrace. }
  assert (Hloop := retryLoop_recovers widgets k fuel W2 0).
  rewrite Hcalls, (rest_remaining _ _ W), attemptsAllowed_remaining in Hloop by done.
  rewrite (rest_axeOptions _ _ Hrest) in Hloop.
  assert (Hdbg : debugLog W2 [] = debugLog W []).
  { unfold debugLog, ruleInfo, nonEmpty, readArray.
    rewrite (rest_debug _ _ Hrest), (rest_cfg _ _ Hrest).
    injection Hrest as -> _ _ _ _ _ _ _ _ _ _ _. done. }
  rewrite Hdbg in Hloop.
  specialize (Hloop
    (fun w Hw => proj1 (noUI_clearEach widgets (injectCSS W) w Hw)) Hfail Hok Hk Hfuel).
  eexists. split; [|split; [|split; [|split]]].
  - rewrite (recheckAll_widgets _ _ _ Hws Hne). fold W2. by rewrite Hloop.
  - by rewrite trace_emitAll, Htrace.
  - unfold engineCalls. rewrite trace_emitAll, Htrace.
    rewrite !List.filter_app, !length_app, count_retries. simpl.
    replace (List.filter is_AxeRun (debugLog W [])) with (@nil EngineEvent);
      [simpl; lia|].
    unfold debugLog. by destruct (debug W).
  - rewrite trace_emitAll, Htrace.
    rewrite !List.filter_app, !length_app. simpl.
    replace (List.filter is_Backoff (debugLog W [])) with (@nil EngineEvent)
      by (unfold debugLog; by destruct (debug W)).
    replace (length (List.filter is_Backoff (retries (axeOptions W) k))) with k;
      [simpl; lia|].
    clear. induction k as [|k IH]; simpl; [done|]. by rewrite <- IH.
  - intros w Hw. apply noUI_emitAll. by apply noUI_clearEach.
Qed.

(** ** What a render builds *)

Lemma nextElem_removeAll L d : Dom.nextElem (removeAll L d) = Dom.nextElem d.
Proof. revert d. induction L as [|n L IH]; intros d; simpl; [done|]. by rewrite IH. Qed.

Lemma nextElem_clearWidgetUI w W :
  Dom.nextElem (dom (clearWidgetUI w W)) = Dom.nextElem (dom W).
Proof. rewrite dom_clearWidgetUI. simpl. by rewrite nextElem_removeAll. Qed.

Lemma elems_clearWidgetUI_is_Some w W i :
  is_Some (Dom.elems (dom (clearWidgetUI w W)) !! i) <-> is_Some (Dom.elems (dom W) !! i).
Proof.
  rewrite dom_clearWidgetUI. simpl. rewrite elems_removeAll.
  unfold unoutlined at 2 3. simpl. rewrite lookup_alter.
  destruct (decide (w = i)) as [->|Hne];
    destruct (Dom.elems (dom W) !! i); case_decide; simpl;
    split; intros [? ?]; by eauto.
Qed.

(** The document after a render that is not skipped and has violations. *)
Lemma dom_renderWidgetUI w vs W :
  unchanged (getWidgetState W w) (Z.of_nat (length vs)) = false ->
  vs <> [] ->
  let Wc := clearWidgetUI w W in
  let n := Z.of_nat (length vs) in
  let btn := Dom.nextElem (dom W) in
  let popup := S btn in
  Dom.elems (dom (renderWidgetUI w vs W)) =
    alter (Dom.set_handler (Some (Dom.OutsideClick btn popup w))) popup
      (alter (Dom.set_parentNode (Some w)) popup
        (alter (Dom.set_parentNode (Some w)) btn
          (<[popup := Dom.set_parentNode None (createPopup W vs)]>
            (<[btn := Dom.set_parentNode None (createBadge W n)]>
              (alter (withClass (OUTLINE (uiClasses (this W)))) w
                 (Dom.elems (dom Wc)))))))
  /\ Dom.nextElem (dom (renderWidgetUI w vs W)) = S (S (Dom.nextElem (dom W)))
  /\ Dom.docListeners (dom (renderWidgetUI w vs W)) =
       Dom.docListeners
         (Dom.addEventListener "click" (Dom.OutsideClick btn popup w) (dom W)).
Proof.
  intros Hu Hne. unfold renderWidgetUI. rewrite Hu.
  assert (Hz : (Z.of_nat (length vs) =? 0)%Z = false).
  { apply Z.eqb_neq. destruct vs; [done|]. simpl length. lia. }
  rewrite Hz. cbn -[clearWidgetUI].
  rewrite !nextElem_clearWidgetUI.
  split; [done|]. split; [done|].
  rewrite dom_clearWidgetUI. cbn. by rewrite docListeners_removeAll.
Qed.

(** The elements of the document after a render that is not skipped, for
    a non-empty list: the widget, the badge, the popup and the others. *)
Lemma renderWidgetUI_lookups (W : World) (widget : nat) (violations : list AxeViolation) :
  domFresh (dom W) ->
  is_Some (Dom.elems (dom W) !! widget) ->
  unchanged (getWidgetState W widget) (Z.of_nat (length violations)) = false ->
  violations <> [] ->
  let W' := renderWidgetUI widget violations W in
  let n := Z.of_nat (length violations) in
  let btn := Dom.nextElem (dom W) in
  let popup := S btn in
  uiClasses (this W') = uiClasses (this W)
  /\ (exists ec, Dom.elems (dom (clearWidgetUI widget W)) !! widget = Some ec
        /\ Dom.elems (dom W') !! widget
           = Some (withClass (OUTLINE (uiClasses (this W))) ec))
  /\ Dom.elems (dom W') !! btn = Some (attachedBadge W widget n)
  /\ Dom.elems (dom W') !! popup = Some (attachedPopup W widget btn popup violations)
  /\ (forall i, i <> widget -> i <> btn -> i <> popup ->
        Dom.elems (dom W') !! i = Dom.elems (dom (clearWidgetUI widget W)) !! i).
Proof.
  intros Hfresh [e0 He0] Hu Hne W' n btn popup.
  destruct (dom_renderWidgetUI widget violations W Hu Hne) as [Hel [Hnext Hlis]].
  fold W' n btn popup in Hel, Hnext, Hlis.
  assert (Hwb : widget <> btn) by (apply Hfresh in He0; unfold btn; lia).
  assert (Hwp : widget <> popup) by (apply Hfresh in He0; unfold popup, btn; lia).
  assert (Hbp : btn <> popup) by (unfold popup; lia).
  assert (Hpb : popup <> btn) by (unfold popup; lia).
  split; [|split; [|split; [|split]]].
  - pose proof (rest_renderWidgetUI widget violations W) as Hr. fold W' in Hr.
    by injection Hr as _ _ _ _ _ _ _ _ _ _ _ ->.
  - destruct (proj2 (elems_clearWidgetUI_is_Some widget W widget) (ex_intro _ e0 He0))
      as [ec Hec].
    exists ec. split; [done|]. rewrite Hel. rewrite !lookup_alter_ne by done.
    rewrite !lookup_insert_ne by done. by rewrite lookup_alter_eq, Hec.
  - rewrite Hel. rewrite !lookup_alter_ne by done. rewrite lookup_alter_eq.
    rewrite lookup_insert_ne by done. by rewrite lookup_insert_eq.
  - rewrite Hel. rewrite !lookup_alter_eq. rewrite lookup_alter_ne by done.
    by rewrite lookup_insert_eq.
  - intros i ? ? ?. rewrite Hel.
    rewrite !lookup_alter_ne by done. rewrite !lookup_insert_ne by done.
    by rewrite lookup_alter_ne by done.
Qed.

Lemma renderWidgetUI_outlined (W : World) (widget : nat) (violations : list AxeViolation) :
  domFresh (dom W) ->
  is_Some (Dom.elems (dom W) !! widget) ->
  unchanged (getWidgetState W widget) (Z.of_nat (length violations)) = false ->
  violations <> [] ->
  outlined (renderWidgetUI widget violations W) widget = true.
Proof.
  intros Hfresh He Hu Hne.
  destruct (renderWidgetUI_lookups W widget violations Hfresh He Hu Hne)
    as (Hui & (ec & _ & Hlw) & _).
  unfold outlined. rewrite Hlw, Hui. unfold withClass.
  destruct (Dom.has_class _ ec) eqn:Hc; [done|].
  unfold Dom.has_class. simpl. apply bool_decide_eq_true.
  apply elem_of_app. right. by left.
Qed.

(** The badge and the popup are the UI children of the widget, and the
    only ones. *)
Lemma renderWidgetUI_uiChildren (W : World) (widget : nat) (violations : list AxeViolation) :
  domFresh (dom W) ->
  is_Some (Dom.elems (dom W) !! widget) ->
  Dom.parent_of (dom W) widget <> Some widget ->
  unchanged (getWidgetState W widget) (Z.of_nat (length violations)) = false ->
  violations <> [] ->
  forall i, i ∈ uiChildren (renderWidgetUI widget violations W) widget
            <-> i = Dom.nextElem (dom W) \/ i = S (Dom.nextElem (dom W)).
Proof.
  intros Hfresh He Hself Hu Hne.
  destruct (renderWidgetUI_lookups W widget violations Hfresh He Hu Hne)
    as (Hui & (ec & Hec & Hlw) & Hlb & Hlp & Hlo).
  intros i. unfold uiChildren. rewrite Hui, elem_of_scopeChildren. split.
  - intros [e [Hl [Hp Hc]]].
    destruct (decide (i = Dom.nextElem (dom W))) as [|Hib]; [by left|].
    destruct (decide (i = S (Dom.nextElem (dom W)))) as [|Hip]; [by right|]. exfalso.
    destruct (decide (i = widget)) as [->|Hiw].
    + rewrite Hlw in Hl. injection Hl as <-.
      assert (Hpe : Dom.parentNode ec = Some widget).
      { revert Hp. unfold withClass. by destruct (Dom.has_class _ ec). }
      apply elems_clearWidgetUI in Hec as [e1 [He1 [[Hpar|Hpar] _]]];
        [|congruence].
      apply Hself. unfold Dom.parent_of. rewrite He1. simpl. congruence.
    + rewrite Hlo in Hl by done.
      assert (Hin : i ∈ uiChildren (clearWidgetUI widget W) widget).
      { unfold uiChildren. rewrite uiClasses_clearWidgetUI.
        apply elem_of_scopeChildren. eauto. }
      rewrite uiChildren_clearWidgetUI in Hin. by apply not_elem_of_nil in Hin.
  - intros [->| ->].
    + eexists. split; [exact Hlb|]. split; [done|]. left.
      unfold Dom.has_class. simpl. apply bool_decide_eq_true. by left.
    + eexists. split; [exact Hlp|]. split; [done|]. right.
      unfold Dom.has_class. simpl. apply bool_decide_eq_true. by left.
Qed.

(** X3. For a validator whose UI class names are valid class names: a
    render that is not skipped, with [n > 0] violations on a widget present
    in the document, leaves the widget outlined and with count [n] stored.
    It attaches a badge, a button that carries the badge class, announces
    no expanded popup and shows [n] with the label "issue" exactly when
    [n = 1], and a popup that carries the popup class and is hidden; both
    are children of the widget and the only UI children it has; and the
    outside-click listener of the popup is registered on the document and
    remembered on the popup. *)
Theorem renderWidgetUI_builds (W : World) (widget : nat) (violations : list AxeViolation) :
  wellFormedUI (uiClasses (this W)) ->
  domFresh (dom W) ->
  is_Some (Dom.elems (dom W) !! widget) ->
  Dom.parent_of (dom W) widget <> Some widget ->
  unchanged (getWidgetState W widget) (Z.of_nat (length violations)) = false ->
  violations <> [] ->
  let W' := renderWidgetUI widget violations W in
  let n := Z.of_nat (length violations) in
  let btn := Dom.nextElem (dom W) in
  let popup := S btn in
  outlined W' widget = true
  /\ getWidgetState W' widget = {| lastViolationCount := n; hasUI := true |}
  /\ (exists b, Dom.elems (dom W') !! btn = Some b
        /\ Dom.tagName b = "button"
        /\ Dom.parentNode b = Some widget
        /\ Dom.classList b = [BADGE (uiClasses (this W))]
        /\ Dom.content b
           = Dom.BadgeContent n (if decide (n = 1%Z) then "issue" else "issues"))
  /\ (exists p, Dom.elems (dom W') !! popup = Some p
        /\ Dom.parentNode p = Some widget
        /\ Dom.classList p = [POPUP (uiClasses (this W))]
        /\ Dom.outsideClickHandler p = Some (Dom.OutsideClick btn popup widget))
  /\ hasAttribute (dom W') popup "hidden" = true
  /\ getAttribute (dom W') btn "aria-expanded" = Some "false"
  /\ (forall i, i ∈ uiChildren W' widget <-> i = btn \/ i = popup)
  /\ ("click", Dom.OutsideClick btn popup widget) ∈ Dom.docListeners (dom W').
Proof.
  intros _ Hfresh He Hself Hu Hne W' n btn popup.
  destruct (renderWidgetUI_lookups W widget violations Hfresh He Hu Hne)
    as (_ & _ & Hlb & Hlp & _).
  destruct (dom_renderWidgetUI widget violations W Hu Hne) as [_ [_ Hlis]].
  fold W' n btn popup in Hlb, Hlp, Hlis.
  split; [by apply renderWidgetUI_outlined|].
  split; [|split; [|split; [|split; [|split; [|split]]]]].
  - unfold W'. rewrite getWidgetState_renderWidgetUI. unfold renderedState. fold n.
    f_equal. apply Z.ltb_lt. unfold n. destruct violations; [done|]. simpl length. lia.
  - eexists. split; [exact Hlb|]. repeat split.
    simpl. f_equal. destruct (n =? 1)%Z eqn:E; case_decide; try done.
    + apply Z.eqb_eq in E. done.
    + apply Z.eqb_neq in E. done.
  - eexists. split; [exact Hlp|]. by repeat split.
  - unfold hasAttribute, getAttribute. by rewrite Hlp.
  - unfold getAttribute. by rewrite Hlb.
  - by apply renderWidgetUI_uiChildren.
  - rewrite Hlis. unfold Dom.addEventListener. simpl.
    case_bool_decide as Hin; [done|]. apply elem_of_app. right. by left.
Qed.

(** ** The footprint of an audit *)

Lemma kept_refl ui e : kept ui e e.
Proof. unfold kept. by auto 10. Qed.

Lemma filter_other_class (o c : string) (l l' : list string) :
  o <> c ->
  filter (fun x => x ≠ o) l' = filter (fun x => x ≠ o) l ->
  c ∈ l' <-> c ∈ l.
Proof.
  intros Hne E.
  assert (Hf : forall k : list string, c ∈ k <-> c ∈ filter (fun x => x ≠ o) k).
  { intros k. rewrite list_elem_of_filter. split; [|by intros [_ ?]].
    intros Hin. split; [|done]. intros ->. done. }
  by rewrite (Hf l'), (Hf l), E.
Qed.

Lemma kept_has_class ui c e e' :
  OUTLINE ui <> c -> kept ui e e' -> Dom.has_class c e' = Dom.has_class c e.
Proof.
  intros Hne (_ & _ & _ & _ & _ & Hf & _). unfold Dom.has_class.
  apply bool_decide_ext. by apply (filter_other_class (OUTLINE ui)).
Qed.

Lemma kept_trans ui e1 e2 e3 :
  distinctUI ui -> kept ui e1 e2 -> kept ui e2 e3 -> kept ui e1 e3.
Proof.
  intros [Hb Hp] H12 H23.
  pose proof (kept_has_class ui _ _ _ Hb H12) as Hcb.
  pose proof (kept_has_class ui _ _ _ Hp H12) as Hcp.
  destruct H12 as (T1 & I1 & A1 & C1 & O1 & F1 & P1).
  destruct H23 as (T2 & I2 & A2 & C2 & O2 & F2 & P2).
  unfold kept. rewrite T2, I2, A2, C2, O2, F2.
  do 6 (split; [done|]).
  destruct P2 as [->|[-> Hc]].
  - exact P1.
  - right. split; [done|]. by rewrite <- Hcb, <- Hcp.
Qed.

Lemma auditStep_refl W : domFresh (dom W) -> auditStep W W.
Proof.
  intros Hf. unfold auditStep. do 5 (split; [done|]). split.
  - exists []. by rewrite app_nil_r.
  - intros i e He. exists e. split; [done|apply kept_refl].
Qed.

Lemma auditStep_trans W1 W2 W3 :
  distinctUI (uiClasses (this W1)) ->
  auditStep W1 W2 -> auditStep W2 W3 -> auditStep W1 W3.
Proof.
  intros Hd (R1 & N1 & F1 & D1 & H1 & [l1 L1] & E1) (R2 & N2 & F2 & D2 & H2 & [l2 L2] & E2).
  assert (Hui : uiClasses (this W2) = uiClasses (this W1)).
  { by injection R1 as _ _ _ _ _ _ _ _ _ _ _ ->. }
  unfold auditStep. split; [congruence|]. split; [lia|]. split; [done|].
  split; [congruence|]. split; [congruence|]. split.
  - exists (l1 ++ l2). by rewrite L2, L1, app_assoc.
  - intros i e He. destruct (E1 i e He) as [e' [He' K1]].
    destruct (E2 i e' He') as [e'' [He'' K2]]. rewrite Hui in K2.
    exists e''. split; [done|]. by eapply kept_trans.
Qed.

(** A step that leaves the document alone. *)
Lemma auditStep_same_dom W W' :
  domFresh (dom W) -> rest W' = rest W -> dom W' = dom W -> auditStep W W'.
Proof.
  intros Hf Hr Hd. unfold auditStep. rewrite Hd. do 5 (split; [done|]). split.
  - exists []. by rewrite app_nil_r.
  - intros i e He. exists e. split; [done|apply kept_refl].
Qed.

Lemma filter_filter_same (o : string) (l : list string) :
  filter (fun x => x ≠ o) (filter (fun x => x ≠ o) l) = filter (fun x => x ≠ o) l.
Proof. apply list_filter_filter_l. auto. Qed.

Lemma root_removeAll L d :
  Dom.documentElement (removeAll L d) = Dom.documentElement d
  /\ Dom.head (removeAll L d) = Dom.head d.
Proof.
  revert d. induction L as [|n L IH]; intros d; simpl; [done|].
  destruct (IH (Dom.remove n d)) as [-> ->]. done.
Qed.

Lemma auditStep_clearWidgetUI w W : domFresh (dom W) -> auditStep W (clearWidgetUI w W).
Proof.
  intros Hf.
  assert (Hk : forall i e, Dom.elems (dom W) !! i = Some e ->
            exists e', Dom.elems (dom (clearWidgetUI w W)) !! i = Some e'
                       /\ kept (uiClasses (this W)) e e').
  { intros i e He. rewrite dom_clearWidgetUI. cbn zeta.
    set (ui := uiClasses (this W)).
    set (d1 := unoutlined w ui (dom W)).
    assert (H1 : exists e1, Dom.elems d1 !! i = Some e1
                /\ Dom.parentNode e1 = Dom.parentNode e
                /\ kept ui e e1
                /\ (forall c, Dom.has_class c e1 = true -> Dom.has_class c e = true)).
    { unfold d1, unoutlined. simpl. rewrite lookup_alter.
      destruct (decide (w = i)) as [->|Hne].
      - rewrite He. simpl. eexists. split; [done|]. split; [done|]. split.
        + unfold kept. simpl. do 5 (split; [done|]).
          split; [apply filter_filter_same|by left].
        + intros c. unfold Dom.has_class. simpl. rewrite !bool_decide_eq_true.
          intros Hin. by apply list_elem_of_filter in Hin as [_ ?].
      - exists e. split; [done|]. split; [done|]. split; [apply kept_refl|done]. }
    destruct H1 as [e1 [He1 [Hp1 [K1 Hc1]]]].
    rewrite elems_removeAll. case_decide as Hin.
    - rewrite He1. simpl. eexists. split; [done|].
      apply elem_of_scopeChildren in Hin as [e1' [He1' [_ Hcls]]].
      rewrite He1 in He1'. injection He1' as <-.
      destruct K1 as (T & I & A & C & O & F & _).
      unfold kept. simpl. do 6 (split; [done|]).
      right. split; [done|]. destruct Hcls as [?|?]; [left|right]; by apply Hc1.
    - exists e1. split; [done|done]. }
  unfold auditStep. split; [apply rest_clearWidgetUI|].
  rewrite nextElem_clearWidgetUI. split; [done|]. split.
  - intros i e' He'. rewrite nextElem_clearWidgetUI.
    destruct (proj1 (elems_clearWidgetUI_is_Some w W i) (ex_intro _ e' He')) as [e He].
    by apply (Hf i e).
  - rewrite dom_clearWidgetUI; cbn zeta.
    destruct (root_removeAll
                (Dom.scopeChildren w (BADGE (uiClasses (this W))) (POPUP (uiClasses (this W)))
                   (unoutlined w (uiClasses (this W)) (dom W)))
                (unoutlined w (uiClasses (this W)) (dom W))) as [-> ->].
    split; [done|]. split; [done|]. split.
    + exists []. rewrite docListeners_removeAll. by rewrite app_nil_r.
    + rewrite <- dom_clearWidgetUI. exact Hk.
Qed.

Lemma kept_withClass ui e : kept ui e (withClass (OUTLINE ui) e).
Proof.
  unfold withClass. destruct (Dom.has_class _ e); [apply kept_refl|].
  unfold kept. simpl. do 5 (split; [done|]). split; [|by left].
  rewrite filter_app. rewrite filter_cons_False by (intros Hn; by apply Hn).
  by rewrite filter_nil, app_nil_r.
Qed.

Lemma auditStep_renderWidgetUI w vs W :
  domFresh (dom W) -> distinctUI (uiClasses (this W)) ->
  auditStep W (renderWidgetUI w vs W).
Proof.
  intros Hf Hd.
  destruct (unchanged (getWidgetState W w) (Z.of_nat (length vs))) eqn:Hu.
  { unfold renderWidgetUI. rewrite Hu. by apply auditStep_refl. }
  destruct vs as [|v vs].
  { unfold renderWidgetUI. rewrite Hu. simpl. by apply auditStep_clearWidgetUI. }
  assert (Hne : v :: vs <> []) by done.
  destruct (dom_renderWidgetUI w (v :: vs) W Hu Hne) as [Hel [Hnext Hlis]].
  set (W' := renderWidgetUI w (v :: vs) W) in *.
  destruct (auditStep_clearWidgetUI w W Hf) as (Rc & Nc & Fc & Dc & Hc & _ & Ec).
  unfold auditStep. split; [apply rest_renderWidgetUI|]. split; [lia|]. split.
  - (* identities stay below the next one *)
    intros i e'. rewrite Hel, Hnext.
    destruct (decide (i = S (Dom.nextElem (dom W)))) as [->|Hip]; [lia|].
    destruct (decide (i = Dom.nextElem (dom W))) as [->|Hib]; [lia|].
    rewrite !lookup_alter_ne by done. rewrite !lookup_insert_ne by done.
    rewrite lookup_alter. intros Hl.
    destruct (Dom.elems (dom (clearWidgetUI w W)) !! i) as [ec|] eqn:Hec.
    2:{ exfalso. case_decide as Hw; [rewrite <- Hw in Hec; rewrite Hec in Hl|]; done. }
    apply Fc in Hec. rewrite nextElem_clearWidgetUI in Hec. lia.
  - split; [|split; [|split]].
    + unfold W', renderWidgetUI. rewrite Hu. cbn -[clearWidgetUI]. exact Dc.
    + unfold W', renderWidgetUI. rewrite Hu. cbn -[clearWidgetUI]. exact Hc.
    + rewrite Hlis. unfold Dom.addEventListener. simpl.
      case_bool_decide; eexists; [by rewrite app_nil_r|done].
    + intros i e He. pose proof (Hf i e He) as Hlt.
      destruct (Ec i e He) as [ec [Hec Kc]].
      rewrite Hel. rewrite !lookup_alter_ne by lia. rewrite !lookup_insert_ne by lia.
      rewrite lookup_alter. case_decide as Hw.
      * subst i. rewrite Hec. simpl. eexists. split; [done|].
        eapply kept_trans; [done|exact Kc|apply kept_withClass].
      * exists ec. by split.
Qed.

Lemma auditStep_injectCSS W : domFresh (dom W) -> auditStep W (injectCSS W).
Proof.
  intros Hf. unfold injectCSS.
  destruct (Dom.getElementById _ _); [by apply auditStep_refl|].
  unfold auditStep. simpl. split; [done|]. split; [lia|]. split; [|split; [done|split; [done|split]]].
  - unfold domFresh. simpl. intros i e'.
    destruct (decide (i = Dom.nextElem (dom W))) as [->|Hne]; [lia|].
    rewrite lookup_alter_ne by done. rewrite lookup_insert_ne by done.
    intros Hl. apply Hf in Hl. lia.
  - exists []. by rewrite app_nil_r.
  - intros i e He. pose proof (Hf i e He) as Hlt.
    rewrite lookup_alter_ne by lia. rewrite lookup_insert_ne by lia.
    exists e. split; [done|apply kept_refl].
Qed.

Lemma auditStep_fresh W W' : auditStep W W' -> domFresh (dom W').
Proof. by intros (_ & _ & F & _). Qed.

Lemma auditStep_ui W W' : auditStep W W' -> uiClasses (this W') = uiClasses (this W).
Proof. intros (R & _). by injection R as _ _ _ _ _ _ _ _ _ _ _ ->. Qed.

Lemma auditStep_foldl {A} (f : World -> A -> World) (l : list A) :
  (forall W a, domFresh (dom W) -> distinctUI (uiClasses (this W)) -> auditStep W (f W a)) ->
  forall W, domFresh (dom W) -> distinctUI (uiClasses (this W)) -> auditStep W (foldl f W l).
Proof.
  intros Hstep. induction l as [|a l IH]; intros W Hf Hd; simpl; [by apply auditStep_refl|].
  pose proof (Hstep W a Hf Hd) as H1.
  eapply auditStep_trans; [done|exact H1|].
  apply IH; [by eapply auditStep_fresh|]. by rewrite (auditStep_ui _ _ H1).
Qed.







(** ** Updating the configuration *)

Lemma merged_idempotent h c : merged h (merged h c) = merged h c.
Proof.
  unfold merged. simpl.
  destruct c as [ws ar at_ dd emo mr uo ce cc edl]. simpl.
  destruct ar, at_, dd, emo, mr, uo, ce, cc, edl; reflexivity.
Qed.

Lemma spread_emptyUpdate c : spread c emptyUpdate = c.
Proof. by destruct c. Qed.

(** The world in which [updateConfig] starts its audit. *)
Lemma updateConfig_effect fuel newConfig W W' :
  updateConfig fuel newConfig W = Some W' ->
  config (this W') = nextLoc W
  /\ cfg W' = merged (hostname W) (spread (cfg W) newConfig)
  /\ arrays W' = arrays W
  /\ (forall l, l <> nextLoc W -> objects W' !! l = objects W !! l)
  /\ mutationObserver (this W') = mutationObserver (this W)
  /\ sched W' = sched W
  /\ uiClasses (this W')
     = match uiClassesOverride' newConfig with
       | Some _ => createUIClasses W'
       | None => uiClasses (this W)
       end.
Proof.
  unfold updateConfig, mergeConfig, alloc. cbn [fst snd].
  set (W2 := with_this (set_config (nextLoc W)) _).
  set (W3 := match uiClassesOverride' newConfig with
             | Some _ => with_this (set_uiClasses (createUIClasses W2)) W2
             | None => W2
             end).
  intros Hr. apply rest_recheckAll_detached in Hr.
  pose proof (rest_cfg _ _ Hr) as Hc.
  assert (Hc3 : cfg W3 = merged (hostname W) (spread (cfg W) newConfig)).
  { unfold W3, W2, cfg. destruct (uiClassesOverride' newConfig); cbn;
      by rewrite lookup_insert_eq. }
  assert (Hui : createUIClasses W' = createUIClasses W2).
  { unfold createUIClasses. rewrite Hc, Hc3.
    replace (cfg W2) with (merged (hostname W) (spread (cfg W) newConfig)); [done|].
    unfold W2, cfg. cbn. by rewrite lookup_insert_eq. }
  rewrite Hui.
  injection Hr as -> -> _ Ht Hn _ _ -> Hrt -> _ ->.
  split; [unfold W3; by destruct (uiClassesOverride' newConfig)|].
  split; [by rewrite Hc|].
  split; [unfold W3; by destruct (uiClassesOverride' newConfig)|].
  split.
  { intros l Hl. unfold W3, W2. destruct (uiClassesOverride' newConfig); cbn;
      by rewrite lookup_insert_ne. }
  split; [unfold W3; by destruct (uiClassesOverride' newConfig)|].
  split.
  { unfold sched. rewrite Ht, Hn, Hrt. unfold W3.
    by destruct (uiClassesOverride' newConfig). }
  unfold W3. by destruct (uiClassesOverride' newConfig).
Qed.

(** X5. [updateConfig] installs a new configuration object holding the old
    values overridden by the fields the update mentions, with the defaults
    merged in again; the arrays and the old object are untouched.  It never
    starts or stops the observer and never touches the pending timer, so
    switching [enableMutationObserver] off leaves a running observer
    running; and the UI class names are recomputed only when the update
    mentions [uiClasses].  An empty update on a configuration that came out
    of [mergeConfig] changes no value. *)
Theorem updateConfig_frame (fuel : nat) (newConfig : PartialConfig) (W W' : World) :
  updateConfig fuel newConfig W = Some W' ->
  cfg W' = merged (hostname W) (spread (cfg W) newConfig)
  /\ config (this W') = nextLoc W
  /\ arrays W' = arrays W
  /\ (forall l, l <> nextLoc W -> objects W' !! l = objects W !! l)
  /\ mutationObserver (this W') = mutationObserver (this W)
  /\ sched W' = sched W
  /\ (uiClassesOverride' newConfig = None -> uiClasses (this W') = uiClasses (this W))
  /\ (forall userConfig,
        newConfig = emptyUpdate -> cfg W = merged (hostname W) userConfig ->
        cfg W' = cfg W).
Proof.
  intros Hr. destruct (updateConfig_effect _ _ _ _ Hr) as (Hl & Hc & Ha & Ho & Hm & Hs & Hu).
  do 6 (split; [done|]). split.
  - intros Hn. by rewrite Hn in Hu.
  - intros c -> Hm0. rewrite Hc, spread_emptyUpdate, Hm0. apply merged_idempotent.
Qed.



(** ** Adding and removing selectors *)

Lemma selectors_rest W W' : rest W' = rest W -> selectors W' = selectors W.
Proof.
  intros Hr. unfold selectors, readArray. rewrite (rest_cfg _ _ Hr).
  by injection Hr as -> _ _ _ _ _ _ _ _ _ _ _.
Qed.

Lemma selectors_addSelectors fuel added W W' :
  addSelectors fuel added W = Some W' -> selectors W' = selectors W ++ added.
Proof.
  unfold addSelectors. intros Hr. apply rest_recheckAll_detached in Hr.
  rewrite (selectors_rest _ _ Hr). unfold selectors, readArray, cfg. cbn.
  by rewrite lookup_insert_eq.
Qed.

(** X7. [addSelectors] appends to the selector array in place: the
    validator keeps the same configuration object and the same array, so
    every object that shares the array, such as one returned earlier by
    [getConfig], lists the added selectors too. *)
Theorem addSelectors_in_place (fuel : nat) (added : list string) (W W' : World) :
  addSelectors fuel added W = Some W' ->
  selectors W' = selectors W ++ added
  /\ config (this W') = config (this W)
  /\ objects W' = objects W
  /\ widgetSelectors (cfg W') = widgetSelectors (cfg W)
  /\ (forall l copy, objects W !! l = Some copy ->
        widgetSelectors copy = widgetSelectors (cfg W) ->
        readArray W' (widgetSelectors copy) = selectors W ++ added).
Proof.
  intros Hadd. pose proof (selectors_addSelectors _ _ _ _ Hadd) as Hsel.
  revert Hadd. unfold addSelectors. intros Hr. apply rest_recheckAll_detached in Hr.
  pose proof (rest_cfg _ _ Hr) as Hc.
  injection Hr as Ha Ho _ _ _ _ _ Hl _ _ _ _.
  split; [done|]. split; [done|]. split; [done|]. split; [by rewrite Hc|].
  intros l copy _ Hw. rewrite Hw. rewrite <- Hsel. unfold selectors. by rewrite Hc.
Qed.

(** X8. [removeSelectors] keeps, in order, the selectors that are not among
    the removed ones, in a new array stored in the configuration object:
    none of the removed selectors is left, and the old array still holds
    the old list, which is what an object returned earlier by [getConfig]
    goes on listing.  Removing what was just added gives back the
    selectors there were before, less those removed. *)
Theorem removeSelectors_new_array (fuel : nat) (removed : list string) (W W' : World) :
  widgetSelectors (cfg W) < nextLoc W ->
  removeSelectors fuel removed W = Some W' ->
  selectors W' = filter (fun s => s ∉ removed) (selectors W)
  /\ (forall s, s ∈ selectors W' -> s ∉ removed)
  /\ config (this W') = config (this W)
  /\ widgetSelectors (cfg W') = nextLoc W
  /\ readArray W' (widgetSelectors (cfg W)) = selectors W
  /\ (forall W0, addSelectors fuel removed W0 = Some W ->
        selectors W' = filter (fun s => s ∉ removed) (selectors W0)).
Proof.
  intros Hlt. unfold removeSelectors, alloc. cbn [fst snd].
  set (W3 := with_objects _ _). intros Hr. apply rest_recheckAll_detached in Hr.
  pose proof (selectors_rest _ _ Hr) as Hs. pose proof (rest_cfg _ _ Hr) as Hc.
  assert (Hc3 : cfg W3 = set_widgetSelectors (nextLoc W) (cfg W)).
  { unfold W3, cfg. cbn. by rewrite lookup_insert_eq. }
  assert (Hsel : selectors W' = filter (fun s => s ∉ removed) (selectors W)).
  { rewrite Hs. unfold selectors at 1. rewrite Hc3. unfold readArray, W3. cbn.
    by rewrite lookup_insert_eq. }
  assert (Hold : readArray W' (widgetSelectors (cfg W)) = selectors W).
  { injection Hr as Ha _ _ _ _ _ _ _ _ _ _ _. unfold readArray, selectors, readArray.
    rewrite Ha. unfold W3. cbn. by rewrite lookup_insert_ne by lia. }
  split; [done|]. split.
  { intros s. rewrite Hsel. intros Hin. by apply list_elem_of_filter in Hin as [? _]. }
  split; [by injection Hr as _ _ _ _ _ _ _ -> _ _ _ _|].
  split; [by rewrite Hc, Hc3|]. split; [done|].
  intros W0 Hadd. pose proof (selectors_addSelectors _ _ _ _ Hadd) as Ha.
  rewrite Hsel, Ha, filter_app.
  rewrite (nil_of_no_elem (filter _ removed)); [by rewrite app_nil_r|].
  intros s Hin. apply list_elem_of_filter in Hin as [Hn Hin]. done.
Qed.

(** ** Destroying the validator *)

Lemma halted_effect W :
  dom (halted W) = dom W
  /\ arrays (halted W) = arrays W /\ objects (halted W) = objects W
  /\ config (this (halted W)) = config (this W)
  /\ widgetCache (this (halted W)) = widgetCache (this W)
  /\ uiClasses (this (halted W)) = uiClasses (this W)
  /\ trace (halted W) = trace W
  /\ mutationObserver (this (halted W)) = false
  /\ timers (halted W) = (match recheckTimeout (this W) with
                          | Some t => delete t (timers W)
                          | None => timers W
                          end).
Proof.
  unfold halted, stopWatching.
  destruct (mutationObserver (this W)) eqn:Hm; simpl;
    destruct (recheckTimeout (this W)); simpl; auto 10.
Qed.

Lemma getAllWidgets_halted W : getAllWidgets (halted W) = getAllWidgets W.
Proof.
  destruct (halted_effect W) as (Hd & Ha & Ho & Hc & _).
  unfold getAllWidgets, getCombinedSelector, readArray, cfg. by rewrite Hd, Ha, Ho, Hc.
Qed.

Lemma detachHandlers_elems L d : Dom.elems (detachHandlers L d) = Dom.elems d.
Proof.
  revert d. induction L as [|p L IH]; intros d; simpl; [done|].
  fold (detachHandlers L). rewrite IH.
  by destruct (Dom.elems d !! p ≫= Dom.outsideClickHandler).
Qed.

Lemma detachHandlers_listeners L d x :
  x ∈ Dom.docListeners (detachHandlers L d) -> x ∈ Dom.docListeners d.
Proof.
  revert d. induction L as [|p L IH]; intros d; simpl; [done|].
  fold (detachHandlers L). intros Hin. apply IH in Hin.
  destruct (Dom.elems d !! p ≫= Dom.outsideClickHandler); [|done].
  simpl in Hin. by apply list_elem_of_filter in Hin as [_ ?].
Qed.

Lemma noUI_same_elems W W' w :
  this W' = this W -> Dom.elems (dom W') = Dom.elems (dom W) ->
  noUI W w -> noUI W' w.
Proof.
  intros Ht He (Hs & Ho & Hc). unfold noUI, getWidgetState, outlined, uiChildren in *.
  rewrite Ht, He. unfold Dom.scopeChildren, Dom.select in *. by rewrite He.
Qed.

Lemma noUI_remove W s w : noUI W w -> noUI (with_dom (Dom.remove s) W) w.
Proof.
  intros (Hs & Ho & Hc). split; [done|]. split.
  - revert Ho. unfold outlined. simpl. rewrite lookup_alter.
    case_decide; [subst|done]. by destruct (Dom.elems (dom W) !! w).
  - apply nil_of_no_elem. intros i Hin.
    assert (Hold : i ∈ uiChildren W w); [|rewrite Hc in Hold; by apply not_elem_of_nil in Hold].
    revert Hin. unfold uiChildren. simpl. rewrite !elem_of_scopeChildren.
    simpl. rewrite lookup_alter. intros [e [Hl [Hp Hcl]]].
    case_decide; [subst|by eauto].
    destruct (Dom.elems (dom W) !! i) as [e0|]; simpl in Hl; [|done].
    injection Hl as <-. done.
Qed.

Lemma destroy_unfold W :
  destroy W =
  match clearAll (halted W) with
  | (Throw e, W3) => (Throw e, W3)
  | (Ok _, W3) =>
      let W4 := with_dom (fun d =>
                  detachHandlers (Dom.byClass (POPUP (uiClasses (this W3))) d) d) W3 in
      let W5 := match Dom.getElementById "wa11y-style" (dom W4) with
                | Some s => with_dom (Dom.remove s) W4
                | None => W4
                end in
      (Ok tt, W5)
  end.
Proof. reflexivity. Qed.

(** X9. When the widget query succeeds and the UI class names are valid
    class names, [destroy] completes and leaves every matched widget
    without UI.  Whatever the class names, after [destroy] the observer is
    off, no audit is pending and none starts however much time passes, and
    no document listener has been added: the listeners left are among
    those there were. *)
Theorem destroy_effect (W : World) (widgets : list nat) :
  timersOk W ->
  getAllWidgets W = Ok widgets ->
  (wellFormedUI (uiClasses (this W)) ->
     (destroy W).1 = Ok tt
     /\ (forall w, w ∈ widgets -> noUI (destroy W).2 w))
  /\ mutationObserver (this (destroy W).2) = false
  /\ pendingAudits (destroy W).2 = []
  /\ (forall fuel dt r, advance fuel dt (destroy W).2 = Some r -> audits r.1 = 0)
  /\ (forall x, x ∈ Dom.docListeners (dom (destroy W).2)
                -> x ∈ Dom.docListeners (dom W)).
Proof.
  intros Hok Hw.
  assert (Hnone : forall i d, timers (destroy W).2 !! i = Some (d, CbRecheckAll) -> False).
  { destruct (timers_destroy W) as [Ht _]. destruct Hok as [Hinv _].
    intros i d. rewrite Ht. destruct (recheckTimeout (this W)) as [t|] eqn:Hrt.
    - intros Hl. apply lookup_delete_Some in Hl as [Hne Hl].
      apply Hinv in Hl. congruence.
    - intros Hl. apply Hinv in Hl. congruence. }
  destruct (timers_destroy W) as (_ & _ & _ & Hm).
  split; [intros _; split|split; [done|split; [|split]]].
  - rewrite destroy_unfold. unfold clearAll. by rewrite getAllWidgets_halted, Hw.
  - intros w Hin. rewrite destroy_unfold. unfold clearAll.
    rewrite getAllWidgets_halted, Hw. cbn zeta.
    set (W3 := foldl _ (halted W) widgets).
    assert (H3 : noUI W3 w) by (by apply (noUI_clearEach widgets (halted W))).
    set (W4 := with_dom _ W3).
    assert (H4 : noUI W4 w).
    { apply (noUI_same_elems W3); [done| |done]. unfold W4. simpl.
      apply detachHandlers_elems. }
    simpl. destruct (Dom.getElementById _ _); [by apply noUI_remove|done].
  - unfold pendingAudits. apply nil_of_no_elem. intros i Hi.
    apply list_elem_of_fmap in Hi as [[i' [d cb]] [-> Hin]].
    apply elem_of_map_to_list, map_lookup_filter_Some in Hin as [Hl Hcb].
    simpl in Hcb. subst cb. by eapply Hnone.
  - intros fuel dt r. unfold advance.
    destruct (runCallbacks _ _ _); simpl; [|done]. intros [= <-]. simpl.
    rewrite audits_dueAt. rewrite (nil_of_no_elem (filter _ _)); [done|].
    intros [i [d cb]] Hx. apply list_elem_of_filter in Hx as [[Hcb _] Hin].
    simpl in Hcb. subst cb. apply elem_of_map_to_list in Hin. by eapply Hnone.
  - intros x. rewrite destroy_unfold. unfold clearAll.
    rewrite getAllWidgets_halted, Hw. cbn zeta.
    set (W3 := foldl _ (halted W) widgets).
    assert (H3 : Dom.docListeners (dom W3) = Dom.docListeners (dom W)).
    { unfold W3. clear. destruct (halted_effect W) as [Hd _]. rewrite <- Hd.
      generalize (halted W). induction widgets as [|w ws IH]; intros W0; simpl; [done|].
      rewrite IH. rewrite dom_clearWidgetUI. cbn zeta.
      by rewrite docListeners_removeAll. }
    simpl. intros Hin.
    assert (Hin4 : x ∈ Dom.docListeners
              (detachHandlers (Dom.byClass (POPUP (uiClasses (this W3))) (dom W3)) (dom W3))).
    { by destruct (Dom.getElementById _ _). }
    apply detachHandlers_listeners in Hin4. by rewrite <- H3.
Qed.

(** X10. When the widget query raises (an empty or malformed selector
    list), [destroy] raises the same error after stopping the observer and
    cancelling the timer, and goes no further: the document, with its
    stylesheet, widget UI and listeners, and the widget states are left as
    they were. *)
Theorem destroy_aborts (W : World) (e : Exn) :
  getAllWidgets W = Throw e ->
  destroy W = (Throw e, halted W)
  /\ dom (halted W) = dom W
  /\ widgetCache (this (halted W)) = widgetCache (this W)
  /\ mutationObserver (this (halted W)) = false
  /\ (forall t, recheckTimeout (this W) = Some t -> timers (halted W) !! t = None).
Proof.
  intros Hw. destruct (halted_effect W) as (Hd & _ & _ & _ & Hc & _ & _ & Hm & Ht).
  split; [|split; [done|split; [done|split; [done|]]]].
  - rewrite destroy_unfold. unfold clearAll. by rewrite getAllWidgets_halted, Hw.
  - intros t Hrt. rewrite Ht, Hrt. apply lookup_delete_eq.
Qed.

(** ** The delay of a schedule request *)

Lemma toLong_id d : isLong d -> toLong d = d.
Proof. unfold isLong, toLong. intros Hd. rewrite Z.mod_small by lia. lia. Qed.

Lemma toLong_wrap d :
  (2147483647 < d <= 4294967295)%Z -> toLong d = (d - 4294967296)%Z.
Proof.
  intros Hd. unfold toLong.
  replace (d + 2147483648)%Z with ((d - 2147483648) + 1 * 4294967296)%Z by lia.
  rewrite Z_mod_plus_full. rewrite Z.mod_small by lia. lia.
Qed.

Lemma effectiveDelay_Some d W :
  d <> 0%Z -> effectiveDelay (Some d) W = Z.max 0 (toLong d).
Proof.
  intros Hd. unfold effectiveDelay, debounceArg.
  by destruct (d =? 0)%Z eqn:E; [apply Z.eqb_eq in E|].
Qed.

(** X11. The delay argument of [debounceRecheck] is used only when it is
    truthy, and the host reads the delay it is given as a 32-bit signed
    integer.  A delay of 0, like an absent one, falls back to the
    configured [debounceDelay].  A positive delay up to 2147483647
    overrides the configured one and is the time after which the request
    fires.  A negative delay down to -2147483648 starts the audit as soon
    as timers run, and so does a delay from 2147483648 to 4294967295, which
    the host reads as negative.  With a configured delay within the 32-bit
    range, a request without a delay of its own starts no audit before the
    configured delay has passed: until then only the clock moves. *)
Theorem debounceRecheck_delay (W : World) :
  effectiveDelay (Some 0%Z) W = effectiveDelay None W
  /\ (forall c, debounceDelay (cfg W) = Some c -> isLong c ->
        effectiveDelay None W = Z.max 0 c)
  /\ (forall d, d <> 0%Z -> effectiveDelay (Some d) W = Z.max 0 (toLong d))
  /\ (forall d, (0 < d <= 2147483647)%Z -> effectiveDelay (Some d) W = d)
  /\ (forall d, (-2147483648 <= d < 0)%Z -> effectiveDelay (Some d) W = 0%Z)
  /\ (forall d, (2147483647 < d <= 4294967295)%Z -> effectiveDelay (Some d) W = 0%Z)
  /\ (forall fuel g c,
        timersOk W -> debounceDelay (cfg W) = Some c -> isLong c -> (0 <= g < c)%Z ->
        advance fuel g (debounceRecheck (Some 0%Z) W)
        = Some (dueAt (now W + g) (debounceRecheck (Some 0%Z) W),
                tick (now W + g) (debounceRecheck (Some 0%Z) W))
        /\ audits (dueAt (now W + g) (debounceRecheck (Some 0%Z) W)) = 0)
  /\ (forall fuel d,
        timersOk W -> attemptsAllowed W < fuel -> (-2147483648 <= d < 0)%Z ->
        exists r, advance fuel 0 (debounceRecheck (Some d) W) = Some r
                  /\ audits r.1 = 1
                  /\ recheckAll_detached fuel (tick (now W + 0) (debounceRecheck (Some d) W))
                     = Some r.2).
Proof.
  assert (H0 : effectiveDelay (Some 0%Z) W = effectiveDelay None W) by reflexivity.
  assert (Hcfg : forall c, debounceDelay (cfg W) = Some c -> isLong c ->
                   effectiveDelay None W = Z.max 0 c).
  { intros c Hc Hl. unfold effectiveDelay, debounceArg. rewrite Hc. simpl.
    by rewrite toLong_id. }
  assert (Hneg : forall d, (-2147483648 <= d < 0)%Z -> effectiveDelay (Some d) W = 0%Z).
  { intros d Hd. rewrite effectiveDelay_Some by lia.
    rewrite toLong_id by (unfold isLong; lia). lia. }
  split; [done|]. split; [done|]. split; [intros d Hd; by apply effectiveDelay_Some|].
  split; [|split; [done|split; [|split]]].
  - intros d Hd. rewrite effectiveDelay_Some by lia.
    rewrite toLong_id by (unfold isLong; lia). lia.
  - intros d Hd. rewrite effectiveDelay_Some by lia. rewrite toLong_wrap by done. lia.
  - intros fuel g c Hok Hc Hl Hg.
    apply (advance_before_due fuel (Some 0%Z) g W Hok).
    rewrite H0, (Hcfg c Hc Hl). lia.
  - intros fuel d Hok Hf Hd.
    destruct (advance_after_due fuel (Some d) 0 W) as [r [Hr [Ha [Hd' _]]]];
      [done|done|rewrite (Hneg d Hd); lia|].
    exists r. done.
Qed.

(** ** The stylesheet is injected once *)

Lemma has_ancestor_fresh k d d' root s :
  Dom.parent_of d s = None ->
  (forall y, y <> s -> Dom.parent_of d' y = Dom.parent_of d y) ->
  forall x, Dom.has_ancestor k d root x = true -> Dom.has_ancestor k d' root x = true.
Proof.
  intros Hs Hother. induction k as [|k IH]; intros x; simpl; [done|].
  destruct (Dom.parent_of d x) as [p|] eqn:Hp; [|done].
  assert (x <> s) by (intros ->; congruence).
  rewrite Hother, Hp by done.
  intros Ho. apply orb_true_iff in Ho as [Ho|Ho]; apply orb_true_iff; auto.
Qed.

Lemma injectCSS_new_elems W :
  Dom.getElementById "wa11y-style" (dom W) = None ->
  Dom.elems (dom (injectCSS W))
  = <[Dom.nextElem (dom W) :=
        Dom.set_parentNode (Some (Dom.head (dom W))) (styleElement W)]> (Dom.elems (dom W))
  /\ Dom.documentElement (dom (injectCSS W)) = Dom.documentElement (dom W)
  /\ Dom.nextElem (dom (injectCSS W)) = S (Dom.nextElem (dom W)).
Proof.
  intros Hn. unfold injectCSS. rewrite Hn. simpl. split; [|done].
  apply map_eq. intros i. rewrite lookup_alter.
  destruct (decide (Dom.nextElem (dom W) = i)) as [<-|Hne].
  - by rewrite !lookup_insert_eq.
  - by rewrite !lookup_insert_ne.
Qed.

(** X12. On a document whose head is connected, [injectCSS] leaves a style
    element with id [wa11y-style] in the document, and a second call finds
    it and does nothing: the stylesheet is injected once, at most one
    element being created. *)
Theorem injectCSS_once (W : World) :
  domFresh (dom W) ->
  Dom.connected (dom W) (Dom.head (dom W)) = true ->
  is_Some (Dom.getElementById "wa11y-style" (dom (injectCSS W)))
  /\ injectCSS (injectCSS W) = injectCSS W
  /\ Dom.nextElem (dom (injectCSS W)) <= S (Dom.nextElem (dom W)).
Proof.
  intros Hf Hh.
  assert (Hsome : is_Some (Dom.getElementById "wa11y-style" (dom (injectCSS W)))).
  { destruct (Dom.getElementById "wa11y-style" (dom W)) as [s0|] eqn:Hg.
    { unfold injectCSS. rewrite Hg. rewrite Hg. eauto. }
    destruct (injectCSS_new_elems W Hg) as (Hel & Hroot & _).
    set (s := Dom.nextElem (dom W)) in *.
    set (d' := dom (injectCSS W)) in *.
    assert (Hnone : Dom.elems (dom W) !! s = None).
    { destruct (Dom.elems (dom W) !! s) eqn:E; [|done]. apply Hf in E. unfold s in E. lia. }
    assert (Hps : Dom.parent_of (dom W) s = None).
    { unfold Dom.parent_of. by rewrite Hnone. }
    assert (Hpo : forall y, y <> s -> Dom.parent_of d' y = Dom.parent_of (dom W) y).
    { intros y Hy. unfold Dom.parent_of. by rewrite Hel, lookup_insert_ne. }
    assert (Hsize : size (Dom.elems d') = S (size (Dom.elems (dom W)))).
    { rewrite Hel. by apply map_size_insert_None. }
    assert (Hconn : Dom.connected d' s = true).
    { unfold Dom.connected, Dom.contains. rewrite Hroot, Hsize. apply orb_true_iff. right.
      simpl. unfold Dom.parent_of at 1. rewrite Hel, lookup_insert_eq. simpl.
      unfold Dom.connected, Dom.contains in Hh.
      apply orb_true_iff in Hh as [Hh|Hh]; apply orb_true_iff.
      - left. apply bool_decide_eq_true in Hh. by apply bool_decide_eq_true.
      - right. eapply has_ancestor_fresh; eauto. }
    unfold Dom.getElementById.
    assert (Hin : s ∈ Dom.select
              (fun i e => Dom.connected d' i && bool_decide (Dom.idAttr e = "wa11y-style")) d').
    { apply elem_of_select. eexists. split; [by rewrite Hel, lookup_insert_eq|].
      rewrite Hconn. done. }
    destruct (Dom.select _ d') as [|x l]; [by apply not_elem_of_nil in Hin|]. simpl. eauto. }
  split; [done|]. split.
  - destruct Hsome as [s Hs]. unfold injectCSS at 1. by rewrite Hs.
  - unfold injectCSS. destruct (Dom.getElementById _ (dom W)); simpl; lia.
Qed.

End MoreProperties.

(** * The change watcher *)

Section WatcherProperties.

Context `{Platform} `{ElementQueries}.

Lemma shouldRecheck_cons_skipped W m ms :
  skipped W m = true -> shouldRecheck W (m :: ms) = shouldRecheck W ms.
Proof.
  unfold skipped. cbn [shouldRecheck].
  destruct (isOurUIElement W (Some (mutationTarget m))); [done|].
  destruct (isOutlineChange W m); [done|].
  destruct (isOurChildList W m); done.
Qed.

Lemma shouldRecheck_cons_reached W m ms :
  skipped W m = false ->
  shouldRecheck W (m :: ms) =
  match affectsWidget W m with
  | Throw e => Throw e
  | Ok false => shouldRecheck W ms
  | Ok true => if triggering m then Ok true else shouldRecheck W ms
  end.
Proof.
  unfold skipped, triggering. cbn [shouldRecheck].
  destruct (isOurUIElement W (Some (mutationTarget m))); [done|].
  destruct (isOutlineChange W m); [done|].
  destruct (isOurChildList W m); [done|]. intros _.
  destruct (affectsWidget W m) as [[|]|e]; try done.
  by destruct (bool_decide (mutationType m = childList)).
Qed.



(** ** The audit's own writes are not taken for page changes *)

Lemma isOurUIElement_ownUI W i : ownUI W i -> isOurUIElement W (Some i) = true.
Proof.
  intros [e [He Hc]]. unfold isOurUIElement. rewrite He. cbn zeta.
  destruct Hc as [-> | ->]; [done|]. by rewrite orb_true_r.
Qed.

Lemma skipped_removed W m c :
  ownUI W c -> mutationType m = childList -> ElementNode c ∈ removedNodes m ->
  skipped W m = true.
Proof.
  intros Ho Hty Hin. unfold skipped, isOurChildList. rewrite Hty.
  rewrite bool_decide_eq_true_2 by done.
  assert (Hex : existsb (isOurUINode W) (addedNodes m ++ removedNodes m) = true).
  { apply existsb_exists. exists (ElementNode c). split.
    - apply list_elem_of_In, elem_of_app. by right.
    - simpl. by apply isOurUIElement_ownUI. }
  rewrite Hex. simpl. by rewrite orb_true_r.
Qed.

Lemma skipped_added W m c :
  ownUI W c -> mutationType m = childList -> ElementNode c ∈ addedNodes m ->
  skipped W m = true.
Proof.
  intros Ho Hty Hin. unfold skipped, isOurChildList. rewrite Hty.
  rewrite bool_decide_eq_true_2 by done.
  assert (Hex : existsb (isOurUINode W) (addedNodes m ++ removedNodes m) = true).
  { apply existsb_exists. exists (ElementNode c). split.
    - apply list_elem_of_In, elem_of_app. by left.
    - simpl. by apply isOurUIElement_ownUI. }
  rewrite Hex. simpl. by rewrite orb_true_r.
Qed.

(** A class change is not of a kind that schedules. *)
Lemma triggering_class m :
  mutationType m = attributes -> attributeName m = Some "class" -> triggering m = false.
Proof.
  intros Hty Hn. unfold triggering, isA11yAttribute. rewrite Hty, Hn.
  by vm_compute.
Qed.

Lemma shouldRecheck_quiet W ms :
  (forall m, m ∈ ms -> skipped W m = true \/ triggering m = false) ->
  (forall m, m ∈ ms -> skipped W m = false -> exists b, affectsWidget W m = Ok b) ->
  shouldRecheck W ms = Ok false.
Proof.
  induction ms as [|m ms IH]; intros Hq Hc; [done|].
  assert (IH' : shouldRecheck W ms = Ok false).
  { apply IH; intros m' Hm'; [apply Hq|apply Hc]; by right. }
  destruct (skipped W m) eqn:Hs.
  - by rewrite shouldRecheck_cons_skipped.
  - rewrite shouldRecheck_cons_reached by done.
    destruct (Hc m) as [b Hb]; [by left|done|]. rewrite Hb.
    destruct (Hq m) as [?|Ht]; [by left|congruence|]. rewrite Ht. by destruct b.
Qed.

Lemma ownUI_step W W' i :
  distinctUI (uiClasses (this W)) -> auditStep W W' -> ownUI W i -> ownUI W' i.
Proof.
  intros [Hb Hp] Hs [e [He Hc]].
  unfold ownUI. rewrite (auditStep_ui _ _ Hs).
  destruct Hs as (_ & _ & _ & _ & _ & _ & E).
  destruct (E i e He) as [e' [He' K]]. exists e'. split; [done|].
  by rewrite (kept_has_class _ _ _ _ Hb K), (kept_has_class _ _ _ _ Hp K).
Qed.

Lemma isStyleSheet_step W W' i : auditStep W W' -> isStyleSheet W i -> isStyleSheet W' i.
Proof.
  intros (_ & _ & _ & _ & _ & _ & E) [e [He Hi]].
  destruct (E i e He) as [e' [He' (_ & I & _)]]. exists e'. split; [done|congruence].
Qed.

Lemma ownWrite_step W W' w :
  distinctUI (uiClasses (this W)) -> auditStep W W' -> ownWrite W w -> ownWrite W' w.
Proof.
  intros Hd Hs. destruct w as [| | p c | c]; simpl; try done.
  - intros [?|?]; [left; by eapply ownUI_step|right; by eapply isStyleSheet_step].
  - by apply ownUI_step.
Qed.

Lemma quietStep_refl W : domFresh (dom W) -> quietStep W W.
Proof.
  intros Hf. split; [by apply auditStep_refl|]. exists []. rewrite app_nil_r.
  split; [done|]. intros w Hw. by apply not_elem_of_nil in Hw.
Qed.

Lemma quietStep_same_dom W W' :
  domFresh (dom W) -> rest W' = rest W -> dom W' = dom W -> quietStep W W'.
Proof.
  intros Hf Hr Hd. split; [by apply auditStep_same_dom|]. exists []. rewrite app_nil_r, Hd.
  split; [done|]. intros w Hw. by apply not_elem_of_nil in Hw.
Qed.

Lemma quietStep_trans W1 W2 W3 :
  distinctUI (uiClasses (this W1)) ->
  quietStep W1 W2 -> quietStep W2 W3 -> quietStep W1 W3.
Proof.
  intros Hd [S1 [l1 [L1 O1]]] [S2 [l2 [L2 O2]]].
  split; [by eapply auditStep_trans|].
  exists (l1 ++ l2). split; [by rewrite L2, L1, app_assoc|].
  intros w Hw. apply elem_of_app in Hw as [Hw|Hw]; [|by apply O2].
  apply (ownWrite_step W2); [by rewrite (auditStep_ui _ _ S1)|done|by apply O1].
Qed.

Lemma quietStep_fresh W W' : quietStep W W' -> domFresh (dom W').
Proof. intros [S _]. by eapply auditStep_fresh. Qed.

Lemma quietStep_ui W W' : quietStep W W' -> uiClasses (this W') = uiClasses (this W).
Proof. intros [S _]. by eapply auditStep_ui. Qed.

(** What [clearWidgetUI] removes carries the badge or the popup class. *)
Lemma ownUI_cleared w W c :
  c ∈ Dom.scopeChildren w (BADGE (uiClasses (this W))) (POPUP (uiClasses (this W)))
        (unoutlined w (uiClasses (this W)) (dom W)) ->
  ownUI (clearWidgetUI w W) c.
Proof.
  intros Hin. pose proof Hin as Hin'.
  apply elem_of_scopeChildren in Hin' as [e1 [He1 [_ Hc]]].
  unfold ownUI. rewrite uiClasses_clearWidgetUI, dom_clearWidgetUI. cbn zeta.
  rewrite elems_removeAll, decide_True by done. rewrite He1. simpl.
  eexists. split; [done|]. exact Hc.
Qed.

Lemma quietStep_clearWidgetUI w W : domFresh (dom W) -> quietStep W (clearWidgetUI w W).
Proof.
  intros Hf. split; [by apply auditStep_clearWidgetUI|].
  eexists. split; [apply domWrites_clearWidgetUI|].
  intros wr Hw. apply elem_of_cons in Hw as [->|Hw]; [done|].
  apply list_elem_of_fmap in Hw as [c [-> Hc]]. simpl. by apply ownUI_cleared.
Qed.

Lemma has_class_withClass o c e :
  Dom.has_class c e = true -> Dom.has_class c (withClass o e) = true.
Proof.
  unfold withClass. destruct (Dom.has_class o e); [done|].
  unfold Dom.has_class. simpl. rewrite !bool_decide_eq_true, elem_of_app. by left.
Qed.

Lemma quietStep_renderWidgetUI w vs W :
  domFresh (dom W) -> distinctUI (uiClasses (this W)) ->
  quietStep W (renderWidgetUI w vs W).
Proof.
  intros Hf Hd.
  destruct (unchanged (getWidgetState W w) (Z.of_nat (length vs))) eqn:Hu.
  { unfold renderWidgetUI. rewrite Hu. by apply quietStep_refl. }
  destruct vs as [|v vs].
  { unfold renderWidgetUI. rewrite Hu. simpl. by apply quietStep_clearWidgetUI. }
  split; [by apply auditStep_renderWidgetUI|].
  assert (Hne : v :: vs <> []) by done.
  destruct (dom_renderWidgetUI w (v :: vs) W Hu Hne) as [Hel [Hnext Hlis]].
  assert (Hui : uiClasses (this (renderWidgetUI w (v :: vs) W)) = uiClasses (this W)).
  { pose proof (rest_renderWidgetUI w (v :: vs) W) as R.
    by injection R as _ _ _ _ _ _ _ _ _ _ _ ->. }
  assert (Hw : Dom.domWrites (dom (renderWidgetUI w (v :: vs) W)) =
               Dom.domWrites (dom W)
               ++ (Dom.WClassRemove w (OUTLINE (uiClasses (this W)))
                   :: map Dom.WRemove
                        (Dom.scopeChildren w (BADGE (uiClasses (this W)))
                           (POPUP (uiClasses (this W)))
                           (unoutlined w (uiClasses (this W)) (dom W))))
               ++ [Dom.WClassAdd w (OUTLINE (uiClasses (this W)));
                   Dom.WAppendChild w (Dom.nextElem (dom W));
                   Dom.WAppendChild w (S (Dom.nextElem (dom W)))]).
  { unfold renderWidgetUI. rewrite Hu.
    assert (Hz : (Z.of_nat (length (v :: vs)) =? 0)%Z = false) by by apply Z.eqb_neq.
    rewrite Hz. cbn -[clearWidgetUI]. rewrite domWrites_clearWidgetUI.
    rewrite !nextElem_clearWidgetUI. by rewrite <- !app_assoc. }
  eexists. split; [exact Hw|].
  intros wr Hin. apply elem_of_app in Hin as [Hin|Hin].
  - apply elem_of_cons in Hin as [->|Hin]; [done|].
    apply list_elem_of_fmap in Hin as [c [-> Hc]]. simpl.
    destruct (ownUI_cleared w W c Hc) as [ec [Hec Hcls]].
    rewrite uiClasses_clearWidgetUI in Hcls.
    assert (Hlt : c < Dom.nextElem (dom W)).
    { destruct (proj1 (elems_clearWidgetUI_is_Some w W c) (ex_intro _ ec Hec)) as [e0 He0].
      by apply (Hf c e0). }
    unfold ownUI. rewrite Hui, Hel.
    rewrite !lookup_alter_ne by lia. rewrite !lookup_insert_ne by lia.
    rewrite lookup_alter. case_decide as Hwc.
    + rewrite <- Hwc in Hec. rewrite Hec. simpl. eexists. split; [done|].
      destruct Hcls as [?|?]; [left|right]; by apply has_class_withClass.
    + by exists ec.
  - apply elem_of_cons in Hin as [->|Hin]; [done|].
    apply elem_of_cons in Hin as [->|Hin].
    { simpl. left. unfold ownUI. rewrite Hui, Hel.
      rewrite lookup_alter_ne by lia. rewrite lookup_alter_ne by lia.
      rewrite lookup_alter_eq. rewrite lookup_insert_ne by lia.
      rewrite lookup_insert_eq. simpl. eexists. split; [done|]. left.
      unfold Dom.has_class. simpl. rewrite bool_decide_eq_true.
      by apply list_elem_of_singleton. }
    apply list_elem_of_singleton in Hin as ->.
    simpl. left. unfold ownUI. rewrite Hui, Hel.
    rewrite !lookup_alter_eq. rewrite lookup_alter_ne by lia.
    rewrite lookup_insert_eq. simpl. eexists. split; [done|]. right.
    unfold Dom.has_class. simpl. rewrite bool_decide_eq_true.
    by apply list_elem_of_singleton.
Qed.

Lemma quietStep_injectCSS W : domFresh (dom W) -> quietStep W (injectCSS W).
Proof.
  intros Hf. split; [by apply auditStep_injectCSS|].
  unfold injectCSS. destruct (Dom.getElementById _ _).
  { exists []. rewrite app_nil_r. split; [done|].
    intros w Hw. by apply not_elem_of_nil in Hw. }
  simpl. eexists. split; [done|].
  intros w Hw. apply list_elem_of_singleton in Hw as ->. simpl. right.
  unfold isStyleSheet. simpl. rewrite lookup_alter_eq, lookup_insert_eq. simpl.
  eexists. split; [done|done].
Qed.

Lemma quietStep_foldl {A} (f : World -> A -> World) (l : list A) :
  (forall W a, domFresh (dom W) -> distinctUI (uiClasses (this W)) -> quietStep W (f W a)) ->
  forall W, domFresh (dom W) -> distinctUI (uiClasses (this W)) -> quietStep W (foldl f W l).
Proof.
  intros Hstep. induction l as [|a l IH]; intros W Hf Hd; simpl; [by apply quietStep_refl|].
  pose proof (Hstep W a Hf Hd) as H1.
  eapply quietStep_trans; [done|exact H1|].
  apply IH; [by eapply quietStep_fresh|]. by rewrite (quietStep_ui _ _ H1).
Qed.

Lemma quietStep_renderAll vs ws W :
  domFresh (dom W) -> distinctUI (uiClasses (this W)) ->
  quietStep W (renderAll vs ws W).2.
Proof.
  revert W. induction ws as [|w ws IH]; intros W Hf Hd; simpl; [by apply quietStep_refl|].
  destruct (widgetViolations _ _ _) as [l|e]; simpl; [|by apply quietStep_refl].
  pose proof (quietStep_renderWidgetUI w l W Hf Hd) as H1.
  eapply quietStep_trans; [done|exact H1|].
  apply IH; [by eapply quietStep_fresh|]. by rewrite (quietStep_ui _ _ H1).
Qed.

Lemma quietStep_attempt ws W :
  domFresh (dom W) -> distinctUI (uiClasses (this W)) ->
  quietStep W (attempt ws W).2.
Proof.
  intros Hf Hd. unfold attempt.
  destruct (axe_run _ _ _) as [vs|e]; simpl; [|by apply quietStep_same_dom].
  eapply quietStep_trans; [done| |apply quietStep_renderAll].
  - apply quietStep_same_dom; [done| |]; by destruct (debug _).
  - by destruct (debug _).
  - by destruct (debug _).
Qed.

Lemma quietStep_onFailure ws a err W :
  domFresh (dom W) -> distinctUI (uiClasses (this W)) ->
  quietStep W (onFailure ws a err W).
Proof.
  intros Hf Hd. unfold onFailure.
  destruct (gtMax _ _); [|by apply quietStep_same_dom].
  eapply quietStep_trans; [done| |apply quietStep_foldl].
  - apply quietStep_same_dom; [done| |]; by destruct (debug W).
  - intros; by apply quietStep_renderWidgetUI.
  - by destruct (debug W).
  - by destruct (debug W).
Qed.

Lemma quietStep_retryLoop fuel ws a W W' :
  domFresh (dom W) -> distinctUI (uiClasses (this W)) ->
  retryLoop fuel ws a W = Some W' -> quietStep W W'.
Proof.
  revert a W. induction fuel as [|fuel IH]; intros a W Hf Hd; simpl; [done|].
  destruct (leMax _ _); [|intros [= <-]; by apply quietStep_refl].
  pose proof (quietStep_attempt ws W Hf Hd) as Ha.
  destruct (attempt ws W) as [[u|err] W1]; simpl in Ha.
  - by intros [= <-].
  - intros Hl.
    assert (Hd1 : distinctUI (uiClasses (this W1))) by by rewrite (quietStep_ui _ _ Ha).
    pose proof (quietStep_onFailure ws (a + 1) err W1 (quietStep_fresh _ _ Ha) Hd1) as Ho.
    eapply quietStep_trans; [done|exact Ha|].
    eapply quietStep_trans; [done|exact Ho|].
    eapply IH; [by eapply quietStep_fresh| |exact Hl].
    by rewrite (quietStep_ui _ _ Ho).
Qed.

Lemma quietStep_recheckAll fuel W r :
  domFresh (dom W) -> distinctUI (uiClasses (this W)) ->
  recheckAll fuel W = Some r -> quietStep W r.2.
Proof.
  intros Hf Hd. pose proof (quietStep_injectCSS W Hf) as Hi.
  assert (Hdi : distinctUI (uiClasses (this (injectCSS W))))
    by by rewrite (quietStep_ui _ _ Hi).
  unfold recheckAll.
  destruct (getAllWidgets _) as [ws|e]; [|by intros [= <-]].
  destruct (length ws =? 0)%nat; [by intros [= <-]|].
  destruct (retryLoop _ _ _ _) as [W'|] eqn:E; simpl; [|done].
  intros [= <-]. simpl.
  assert (Hc : quietStep (injectCSS W)
                 (foldl (fun W widget => clearWidgetUI widget W) (injectCSS W) ws)).
  { apply quietStep_foldl; [|by eapply quietStep_fresh|done].
    intros; by apply quietStep_clearWidgetUI. }
  eapply quietStep_trans; [done|exact Hi|].
  eapply quietStep_trans; [done|exact Hc|].
  eapply quietStep_retryLoop; [by eapply quietStep_fresh| |exact E].
  by rewrite (quietStep_ui _ _ Hc).
Qed.

(** X15. An audit does not set itself off, for a validator whose UI class
    names are valid class names and whose outline class is neither the
    badge nor the popup class (the badge and the popup then carry exactly
    the class by which the callback recognises them).  Every DOM write of
    [recheckAll] is a class change, the removal of an element carrying the
    badge or the popup class, or the insertion of a badge, a popup or the
    style sheet.  So a batch of mutation records for these writes, the
    insertion of the style sheet apart, schedules no re-audit when the
    observer's callback runs on it after the audit: the callback leaves the
    world as it is, provided the selector queries it makes complete. *)
Theorem recheckAll_no_feedback (fuel : nat) (W : World) (r : Outcome unit * World) :
  wellFormedUI (uiClasses (this W)) ->
  domFresh (dom W) ->
  distinctUI (uiClasses (this W)) ->
  recheckAll fuel W = Some r ->
  exists writes,
    Dom.domWrites (dom r.2) = Dom.domWrites (dom W) ++ writes
    /\ (forall w, w ∈ writes -> ownWrite r.2 w)
    /\ forall mutations,
         Forall (fun m => exists w, w ∈ writes /\ ~ insertsStyle r.2 w /\ recordsWrite w m)
                mutations ->
         (forall m, m ∈ mutations -> skipped r.2 m = false ->
                    exists b, affectsWidget r.2 m = Ok b) ->
         observerCallback mutations r.2 = (Ok tt, r.2).
Proof.
  intros _ Hf Hd Hr.
  destruct (quietStep_recheckAll fuel W r Hf Hd Hr) as [_ [l [Hl Ho]]].
  exists l. split; [done|]. split; [done|].
  intros ms Hms Hc. unfold observerCallback.
  rewrite shouldRecheck_quiet; [done| |done].
  intros m Hm. rewrite Forall_forall in Hms.
  destruct (Hms m Hm) as [w [Hw [Hns Hrec]]]. specialize (Ho w Hw).
  destruct w as [e c|e c|p c|c]; simpl in *.
  - right. destruct Hrec as (Hty & _ & Hn). by apply triggering_class.
  - right. destruct Hrec as (Hty & _ & Hn). by apply triggering_class.
  - left. destruct Hrec as (Hty & _ & Hin).
    destruct Ho as [Ho|Ho]; [|done]. by eapply skipped_added.
  - left. destruct Hrec as [Hty Hin]. by eapply skipped_removed.
Qed.

End WatcherProperties.

(** * The click handlers *)

Section InteractionProperties.

Lemma attr_get_set_eq a v l : attr_get a (attr_set a v l) = Some v.
Proof.
  induction l as [|[k x] l IH]; simpl.
  - by rewrite decide_True.
  - destruct (decide (k = a)) as [->|Hne]; simpl.
    + by rewrite decide_True.
    + by rewrite decide_False.
Qed.

Lemma attr_get_set_ne a b v l : b <> a -> attr_get b (attr_set a v l) = attr_get b l.
Proof.
  intros Hne. induction l as [|[k x] l IH]; simpl.
  - by rewrite decide_False.
  - destruct (decide (k = a)) as [->|Hka]; simpl.
    + by rewrite !decide_False by done.
    + destruct (decide (k = b)); [done|exact IH].
Qed.



Lemma getAttribute_setAttribute_eq d i a v :
  is_Some (Dom.elems d !! i) -> getAttribute (setAttribute i a v d) i a = Some v.
Proof.
  intros [e He]. unfold getAttribute, setAttribute. simpl.
  rewrite lookup_alter_eq, He. simpl. apply attr_get_set_eq.
Qed.

Lemma getAttribute_setAttribute_ne d i j a b v :
  (i, a) <> (j, b) -> getAttribute (setAttribute i a v d) j b = getAttribute d j b.
Proof.
  intros Hne. unfold getAttribute, setAttribute. simpl.
  destruct (decide (i = j)) as [->|Hij].
  - rewrite lookup_alter_eq. destruct (Dom.elems d !! j); [|done]. simpl.
    apply attr_get_set_ne. congruence.
  - by rewrite lookup_alter_ne.
Qed.




Lemma attrsOnly_trans d1 d2 d3 : attrsOnly d1 d2 -> attrsOnly d2 d3 -> attrsOnly d1 d3.
Proof.
  intros (N1 & D1 & H1 & L1 & W1 & E1) (N2 & D2 & H2 & L2 & W2 & E2).
  unfold attrsOnly. do 5 (split; [congruence|]). intros i.
  specialize (E1 i). specialize (E2 i).
  destruct (Dom.elems d1 !! i) as [e1|], (Dom.elems d2 !! i) as [e2|],
           (Dom.elems d3 !! i) as [e3|]; try done.
  rewrite E2, E1. done.
Qed.

Lemma attrsOnly_alter d i (f : Dom.Element -> list (string * string)) :
  attrsOnly d (Dom.with_elems (alter (fun e => set_attributes (f e) e) i) d).
Proof.
  unfold attrsOnly. simpl. do 5 (split; [done|]). intros j.
  destruct (decide (i = j)) as [->|Hne].
  - rewrite lookup_alter_eq. destruct (Dom.elems d !! j); done.
  - rewrite lookup_alter_ne by done. destruct (Dom.elems d !! j) as [e|]; [|done].
    by destruct e.
Qed.

Lemma attrsOnly_setAttribute d i a v : attrsOnly d (setAttribute i a v d).
Proof. apply (attrsOnly_alter d i (fun e => attr_set a v (Dom.attributes e))). Qed.







Lemma attrsOnly_is_Some d d' i :
  attrsOnly d d' -> is_Some (Dom.elems d' !! i) <-> is_Some (Dom.elems d !! i).
Proof.
  intros (_ & _ & _ & _ & _ & E). specialize (E i).
  destruct (Dom.elems d !! i), (Dom.elems d' !! i); try done; split; by eauto.
Qed.




Lemma hasAttribute_true d i a v : getAttribute d i a = Some v -> hasAttribute d i a = true.
Proof. intros Hg. unfold hasAttribute. rewrite Hg. by apply bool_decide_eq_true. Qed.


Lemma closePopup_effect btn popup d :
  btn <> popup -> is_Some (Dom.elems d !! btn) -> is_Some (Dom.elems d !! popup) ->
  attrsOnly d (closePopup btn popup d)
  /\ getAttribute (closePopup btn popup d) popup "hidden" = Some ""
  /\ getAttribute (closePopup btn popup d) btn "aria-expanded" = Some "false"
  /\ forall i a, (i, a) <> (popup, "hidden") -> (i, a) <> (btn, "aria-expanded") ->
       getAttribute (closePopup btn popup d) i a = getAttribute d i a.
Proof.
  intros Hne Hb Hp. unfold closePopup.
  pose proof (attrsOnly_setAttribute d popup "hidden" "") as A1.
  split; [|split; [|split]].
  - eapply attrsOnly_trans; [exact A1|apply attrsOnly_setAttribute].
  - rewrite getAttribute_setAttribute_ne by congruence.
    by apply getAttribute_setAttribute_eq.
  - apply getAttribute_setAttribute_eq. by apply (attrsOnly_is_Some _ _ _ A1).
  - intros i a H1 H2. rewrite getAttribute_setAttribute_ne by congruence.
    apply getAttribute_setAttribute_ne. congruence.
Qed.



(** X17. The two closing listeners.  The close button hides the popup and
    resets the badge's [aria-expanded] to "false", touching no other
    attribute and nothing but attributes.  The document-level listener
    does the same when the click target lies outside the widget, and
    nothing at all when the target is the widget or inside it (the badge
    and the popup included) or when the event has no target; either way a
    badge and popup that agree before the click agree after it. *)
Theorem closing_listeners (W : World) (btn popup widget : nat) (target : option nat) :
  btn <> popup ->
  is_Some (Dom.elems (dom W) !! btn) ->
  is_Some (Dom.elems (dom W) !! popup) ->
  let Wc := closeClick btn popup W in
  let Wo := outsideClick (Dom.OutsideClick btn popup widget) target W in
  hasAttribute (dom Wc) popup "hidden" = true
  /\ getAttribute (dom Wc) btn "aria-expanded" = Some "false"
  /\ (forall i a, (i, a) <> (popup, "hidden") -> (i, a) <> (btn, "aria-expanded") ->
        getAttribute (dom Wc) i a = getAttribute (dom W) i a)
  /\ attrsOnly (dom W) (dom Wc)
  /\ with_dom (fun _ => dom W) Wc = W
  /\ (forall t, target = Some t -> Dom.contains (dom W) widget t = false -> Wo = Wc)
  /\ (forall t, target = Some t -> Dom.contains (dom W) widget t = true -> Wo = W)
  /\ (target = None -> Wo = W)
  /\ inSync Wc btn popup
  /\ (inSync W btn popup -> inSync Wo btn popup).
Proof.
  intros Hne Hb Hp Wc Wo.
  destruct (closePopup_effect btn popup (dom W) Hne Hb Hp) as (A & Gh & Ge & Go).
  assert (Hs : inSync Wc btn popup).
  { unfold inSync, Wc, closeClick. simpl. rewrite Ge.
    rewrite (hasAttribute_true _ _ _ _ Gh). split; done. }
  split; [by eapply hasAttribute_true|]. split; [exact Ge|]. split; [exact Go|].
  split; [exact A|]. split; [by destruct W|].
  split; [|split; [|split; [|split; [exact Hs|]]]].
  - intros t -> Hc. unfold Wo, outsideClick. by rewrite Hc.
  - intros t -> Hc. unfold Wo, outsideClick. by rewrite Hc.
  - intros ->. done.
  - intros Hsync. unfold Wo, outsideClick.
    destruct target as [t|]; [|done].
    destruct (Dom.contains (dom W) widget t); [done|exact Hs].
Qed.

End InteractionProperties.

(** * Construction and the event listeners *)

Section LifecycleProperties.

Context `{Platform}.

Lemma cmsListeners_foldl (L : list string) h :
  let h' := foldl (fun h eventName => addListener document eventName CmsListener h) h L in
  world h' = world h /\ readyState h' = readyState h
  /\ listeners h' = listeners h ++ map (fun ev => (document, ev, CmsListener)) L.
Proof.
  revert h. induction L as [|ev L IH]; intros h; cbn zeta; cbn [foldl map].
  - by rewrite app_nil_r.
  - destruct (IH (addListener document ev CmsListener h)) as (-> & -> & ->).
    simpl. by rewrite <- app_assoc.
Qed.

(** The array of event names that [setupEventListeners] walks. *)
Lemma setupEventListeners_effect h :
  world (setupEventListeners h) = world h
  /\ readyState (setupEventListeners h) = readyState h
  /\ listeners (setupEventListeners h) =
       listeners h
       ++ (window, "wa11y:recheck", RecheckListener)
          :: map (fun ev => (document, ev, CmsListener))
               (match cmsEvents (cfg (world h)) with
                | Some a => readArray (world h) a
                | None => []
                end)
          ++ [(window, "beforeunload", UnloadListener)].
Proof.
  unfold setupEventListeners.
  destruct (cmsEvents (cfg (world h))) as [a|].
  - destruct (cmsListeners_foldl (readArray (world h) a)
                (addListener window "wa11y:recheck" RecheckListener h)) as (Hw & Hr & Hl).
    cbn zeta in Hw, Hr, Hl. simpl. rewrite Hw, Hr, Hl. simpl.
    do 2 (split; [done|]). by rewrite <- !app_assoc.
  - simpl. do 2 (split; [done|]). by rewrite <- !app_assoc.
Qed.

Lemma listenersFor_app target type ls1 ls2 r w :
  listenersFor target type {| world := w; readyState := r; listeners := ls1 ++ ls2 |}
  = listenersFor target type {| world := w; readyState := r; listeners := ls1 |}
    ++ listenersFor target type {| world := w; readyState := r; listeners := ls2 |}.
Proof. unfold listenersFor. simpl. by rewrite filter_app, map_app. Qed.

Lemma elem_of_listenersFor target type h l :
  l ∈ listenersFor target type h <-> (target, type, l) ∈ listeners h.
Proof.
  unfold listenersFor. rewrite list_elem_of_fmap. split.
  - intros [[[tg ty] l'] [-> Hin]]. apply list_elem_of_filter in Hin as [Heq Hin].
    simpl in Heq. by injection Heq as -> ->.
  - intros Hin. exists (target, type, l). split; [done|].
    apply list_elem_of_filter. by split.
Qed.

(** Listeners that all schedule with the delay 500. *)
Lemma runListeners_cms fuel ls W :
  timersOk W -> (forall l, l ∈ ls -> l = CmsListener) ->
  exists W', runListeners fuel ls W = Some W'
    /\ timersOk W' /\ dom W' = dom W /\ trace W' = trace W /\ now W' = now W
    /\ (ls <> [] -> exists t, recheckTimeout (this W') = Some t
                      /\ timers W' !! t = Some ((now W + 500)%Z, CbRecheckAll)).
Proof.
  revert W. induction ls as [|l ls IH]; intros W Hok Hall.
  - exists W. simpl. by do 5 (split; [done|]).
  - assert (l = CmsListener) as -> by (apply Hall; by left).
    set (W1 := debounceRecheck (Some 500%Z) W).
    destruct (timers_debounceRecheck (Some 500%Z) W) as (Ht & Hn & Hrt & Hnow & Hcfg).
    fold W1 in Ht, Hn, Hrt, Hnow, Hcfg.
    assert (Hok1 : timersOk W1) by by apply timersOk_debounceRecheck.
    assert (Hd1 : dom W1 = dom W /\ trace W1 = trace W).
    { unfold W1, debounceRecheck. by destruct (recheckTimeout (this W)). }
    destruct (IH W1 Hok1) as (W' & Hrun & Hok' & Hdom & Htr & Hnow' & Hlast).
    { intros l Hl. apply Hall. by right. }
    exists W'. split; [exact Hrun|]. split; [done|].
    destruct Hd1 as [Hd1 Ht1].
    split; [congruence|]. split; [congruence|]. split; [congruence|].
    intros _. destruct ls as [|l2 ls].
    + simpl in Hrun. injection Hrun as <-. exists (nextTimer W). split; [done|].
      rewrite Ht. by rewrite lookup_insert_eq.
    + destruct Hlast as [t [Hr Hl]]; [done|]. exists t. split; [done|].
      by rewrite Hl, Hnow.
Qed.

Lemma pendingAudits_only W t due :
  timersOk W -> recheckTimeout (this W) = Some t ->
  timers W !! t = Some (due, CbRecheckAll) -> pendingAudits W = [t].
Proof.
  intros Hok Hr Hl. pose proof (pendingAudits_le_1 W Hok) as Hle.
  assert (Hin : t ∈ pendingAudits W).
  { unfold pendingAudits. apply list_elem_of_fmap. eexists (_, _). split; [done|].
    apply elem_of_map_to_list, map_lookup_filter_Some. split; [exact Hl|done]. }
  destruct (pendingAudits W) as [|x [|y l]]; [by apply not_elem_of_nil in Hin| |simpl in Hle; lia].
  apply list_elem_of_singleton in Hin. by subst.
Qed.

Lemma dispatch_cms fuel h ev :
  timersOk (world h) ->
  listenersFor document ev h <> [] ->
  (forall l, l ∈ listenersFor document ev h -> l = CmsListener) ->
  exists h' t,
    dispatchEvent fuel document ev h = Some h'
    /\ pendingAudits (world h') = [t]
    /\ timers (world h') !! t = Some ((now (world h) + 500)%Z, CbRecheckAll)
    /\ recheckTimeout (this (world h')) = Some t
    /\ dom (world h') = dom (world h)
    /\ trace (world h') = trace (world h)
    /\ now (world h') = now (world h)
    /\ listeners h' = listeners h
    /\ timersOk (world h').
Proof.
  intros Hok Hne Hall.
  destruct (runListeners_cms fuel _ (world h) Hok Hall)
    as (W' & Hrun & Hok' & Hdom & Htr & Hnow & Hlast).
  destruct (Hlast Hne) as [t [Hr Hl]].
  exists (with_world (fun _ => W') h), t. unfold dispatchEvent. rewrite Hrun. simpl.
  split; [done|]. split; [by eapply pendingAudits_only|]. done.
Qed.

(** X19. A CMS event.  After [setupEventListeners], an event named in
    [config.cmsEvents] that reaches the document runs no audit at once: it
    leaves exactly one re-audit pending, due 500 ms later whatever
    [debounceDelay] is configured, in place of any that was pending; as
    time passes that audit starts once, and not before the 500 ms are over.
    A name listed more than once registers as many listeners, and still one
    re-audit is pending.  [destroy] removes none of these listeners: the
    same event after [destroy] leaves a re-audit pending again. *)
Theorem cms_event_schedules (fuel : nat) (h : Host) (ev : string) (a : nat) :
  timersOk (world h) ->
  cmsEvents (cfg (world h)) = Some a ->
  ev ∈ readArray (world h) a ->
  (forall l, l ∈ listenersFor document ev h -> l = CmsListener) ->
  let h1 := setupEventListeners h in
  (exists h2 t,
     dispatchEvent fuel document ev h1 = Some h2
     /\ pendingAudits (world h2) = [t]
     /\ timers (world h2) !! t = Some ((now (world h) + 500)%Z, CbRecheckAll)
     /\ dom (world h2) = dom (world h)
     /\ trace (world h2) = trace (world h)
     /\ listeners h2 = listeners h1
     /\ (forall g, (0 <= g < 500)%Z -> audits (dueAt (now (world h) + g) (world h2)) = 0)
     /\ (forall g, (500 <= g)%Z -> audits (dueAt (now (world h) + g) (world h2)) = 1))
  /\ length (listenersFor document ev h1)
     = length (listenersFor document ev h)
       + length (filter (fun x => x = ev) (readArray (world h) a))
  /\ (let hd := with_world (fun W => (destroy W).2) h1 in
      listeners hd = listeners h1
      /\ pendingAudits (world hd) = []
      /\ exists h3 t,
           dispatchEvent fuel document ev hd = Some h3
           /\ pendingAudits (world h3) = [t]).
Proof.
  intros Hok Hcms Hev Hall h1.
  destruct (setupEventListeners_effect h) as (Hw & Hrs & Hls). fold h1 in Hw, Hrs, Hls.
  rewrite Hcms in Hls.
  assert (Hin : (document, ev, CmsListener) ∈ listeners h1).
  { rewrite Hls. apply elem_of_app. right. right. apply elem_of_app. left.
    apply list_elem_of_fmap. by exists ev. }
  assert (Hne : forall w r, listenersFor document ev
                  {| world := w; readyState := r; listeners := listeners h1 |} <> []).
  { intros w r Hnil.
    assert (Hx : CmsListener ∈ listenersFor document ev
                   {| world := w; readyState := r; listeners := listeners h1 |})
      by by apply elem_of_listenersFor.
    rewrite Hnil in Hx. by apply not_elem_of_nil in Hx. }
  assert (Hall1 : forall w r l, l ∈ listenersFor document ev
                    {| world := w; readyState := r; listeners := listeners h1 |} ->
                  l = CmsListener).
  { intros w r l Hl. apply elem_of_listenersFor in Hl. cbn [listeners] in Hl. rewrite Hls in Hl.
    apply elem_of_app in Hl as [Hl|Hl].
    - apply Hall. by apply elem_of_listenersFor.
    - apply elem_of_cons in Hl as [[=]|Hl].
      apply elem_of_app in Hl as [Hl|Hl].
      + apply list_elem_of_fmap in Hl as [ev' [[= _ ->] _]]. done.
      + apply list_elem_of_singleton in Hl. by injection Hl. }
  assert (Hh1 : h1 = {| world := world h1; readyState := readyState h1;
                        listeners := listeners h1 |}) by by destruct h1.
  split; [|split].
  - destruct (dispatch_cms fuel h1 ev) as (h2 & t & Hd & Hp & Hl & Hr & Hdom & Htr & Hnow & Hlis & Hok2).
    + by rewrite Hw.
    + rewrite Hh1. apply Hne.
    + rewrite Hh1. apply Hall1.
    + rewrite Hw in Hl, Hdom, Htr, Hnow.
      exists h2, t. do 6 (split; [done|]). split.
      * intros g Hg.
        apply (audits_dueAt_none _ _ t (now (world h) + 500)%Z); [done|done|done|lia].
      * intros g Hg.
        apply (audits_dueAt_one _ _ t (now (world h) + 500)%Z); [done|done|done|lia].
  - unfold listenersFor. rewrite Hls. rewrite !filter_app, !map_app, !length_app.
    rewrite filter_cons_False by (simpl; congruence).
    rewrite filter_app, map_app, length_app.
    rewrite (filter_cons_False _ (window, "beforeunload", UnloadListener)) by (simpl; congruence).
    rewrite filter_nil. simpl. rewrite Nat.add_0_r. f_equal.
    rewrite !length_map. clear.
    induction (readArray (world h) a) as [|x l IH]; [done|].
    simpl. destruct (decide (x = ev)) as [->|Hne].
    + rewrite !filter_cons_True by done. simpl. by rewrite IH.
    + rewrite !filter_cons_False by (simpl; congruence). exact IH.
  - cbn zeta. split; [done|].
    assert (Hokd : timersOk (destroy (world h1)).2).
    { apply timersOk_destroy. by rewrite Hw. }
    split.
    + destruct (timers_destroy (world h1)) as (Ht & _ & Hrt & _).
      apply nil_of_no_elem. intros i Hi. unfold pendingAudits in Hi.
      apply list_elem_of_fmap in Hi as [[i' [due cb]] [-> Hx]].
      apply elem_of_map_to_list, map_lookup_filter_Some in Hx as [Hl Hcb].
      simpl in Hcb. subst cb. cbn [world with_world] in Hl.
      pose proof (proj1 Hokd _ _ Hl) as Hs. rewrite Hrt in Hs.
      rewrite Ht, Hs in Hl. simpl in Hl. by rewrite lookup_delete_eq in Hl.
    + destruct (dispatch_cms fuel (with_world (fun W => (destroy W).2) h1) ev)
        as (h3 & t & Hd & Hp & _).
      * exact Hokd.
      * apply Hne.
      * apply Hall1.
      * by exists h3, t.
Qed.

Lemma rest_fields W W' :
  rest W' = rest W ->
  arrays W' = arrays W /\ objects W' = objects W /\ timers W' = timers W
  /\ config (this W') = config (this W)
  /\ recheckTimeout (this W') = recheckTimeout (this W)
  /\ mutationObserver (this W') = mutationObserver (this W)
  /\ isInitialized (this W') = isInitialized (this W)
  /\ uiClasses (this W') = uiClasses (this W).
Proof. unfold rest. intros [= -> -> _ -> _ _ _ -> -> -> -> ->]. done. Qed.

Lemma createUIClasses_cfg W W' : cfg W = cfg W' -> createUIClasses W = createUIClasses W'.
Proof. unfold createUIClasses. by intros ->. Qed.

Lemma initialize_again fuel h : isInitialized (this (world h)) = true -> initialize fuel h = Some h.
Proof. intros Hi. unfold initialize. by rewrite Hi. Qed.

(** X18. Construction, for a configuration object in which an option that
    is not set is left out.  [new AccessibilityValidator(config)] stores
    the merged configuration in a new object, derives the UI classes from
    it and registers, in this order, the listener for [wa11y:recheck], one
    listener per entry of [cmsEvents] and the listener for [beforeunload];
    it schedules no re-audit and remembers no timer, and a later
    [initialize] does nothing.  While the document is loading it audits
    nothing and observes nothing: it only adds a [DOMContentLoaded]
    listener.  Otherwise, once the first audit has settled, whatever its
    outcome, it observes exactly when the merged configuration has
    [enableMutationObserver] true; the merged value is the caller's when
    the caller gives one, and true when the option is left out. *)
Theorem construct_effect (fuel : nat) (userConfig : AccessibilityValidatorConfig) (h : Host) :
  Z.to_nat (default 1%Z (maxRetries userConfig) + 1) < fuel ->
  exists h',
    construct fuel userConfig h = Some h'
    /\ cfg (world h') = merged (hostname (world h)) userConfig
    /\ config (this (world h')) = nextLoc (world h)
    /\ uiClasses (this (world h')) = createUIClasses (world h')
    /\ isInitialized (this (world h')) = true
    /\ initialize fuel h' = Some h'
    /\ pendingAudits (world h') = pendingAudits (world h)
    /\ recheckTimeout (this (world h')) = None
    /\ listeners h' =
         listeners h
         ++ (window, "wa11y:recheck", RecheckListener)
            :: map (fun ev => (document, ev, CmsListener))
                 (readArray (world h) (default DEFAULT_CMS_EVENTS (cmsEvents userConfig)))
            ++ [(window, "beforeunload", UnloadListener)]
            ++ match readyState h with
               | loading => [(document, "DOMContentLoaded", ReadyListener)]
               | _ => []
               end
    /\ (readyState h = loading ->
          trace (world h') = trace (world h)
          /\ mutationObserver (this (world h')) = false
          /\ widgetCache (this (world h')) = ∅)
    /\ (readyState h <> loading ->
          mutationObserver (this (world h'))
          = default false (enableMutationObserver (cfg (world h')))
          /\ enableMutationObserver (cfg (world h'))
             = Some (default true (enableMutationObserver userConfig))).
Proof.
  intros Hfuel. unfold construct, mergeConfig, alloc. cbn zeta.
  set (W3 := with_this _ _).
  assert (Hcfg : cfg W3 = merged (hostname (world h)) userConfig).
  { unfold cfg, W3. simpl. by rewrite lookup_insert_eq. }
  set (h3 := with_world (fun _ => W3) h).
  set (Wi := injectCSS W3).
  assert (Ri : rest Wi = rest W3) by apply rest_injectCSS.
  destruct (setupEventListeners_effect (with_world injectCSS h3)) as (Sw & Sr & Sl).
  set (hs := setupEventListeners (with_world injectCSS h3)) in *.
  cbn [world with_world readyState listeners h3] in Sw, Sr, Sl. fold Wi in Sw, Sl.
  assert (Hcfgi : cfg Wi = merged (hostname (world h)) userConfig)
    by by rewrite (rest_cfg _ _ Ri).
  rewrite Hcfgi in Sl.
  assert (Harr : forall a, readArray Wi a = readArray (world h) a).
  { intros a. unfold readArray. by injection Ri as -> _ _ _ _ _ _ _ _ _ _ _. }
  assert (Hcms : cmsEvents (merged (hostname (world h)) userConfig)
                 = Some (default DEFAULT_CMS_EVENTS (cmsEvents userConfig))).
  { simpl. by destruct (cmsEvents userConfig). }
  rewrite Hcms, Harr in Sl.
  assert (Hinit : initialize fuel h3 =
            h4 ← match readyState h with
                 | loading => Some (addListener document "DOMContentLoaded" ReadyListener hs)
                 | _ => W' ← start fuel Wi; Some (with_world (fun _ => W') hs)
                 end;
            Some (with_world (with_this (set_isInitialized true)) h4)).
  { unfold initialize. cbn [h3 world with_world W3 this with_this set_uiClasses isInitialized].
    fold h3. fold hs. rewrite Sr, Sw. done. }
  rewrite Hinit. clear Hinit.
  assert (Hu3 : uiClasses (this W3) = createUIClasses W3) by reflexivity.
  (* what a world with the frame of [Wi] gives after the last assignments *)
  assert (Hframe : forall W' (f : Validator -> Validator),
            rest W' = rest Wi ->
            (forall v, config (f v) = config v /\ uiClasses (f v) = uiClasses v
                       /\ recheckTimeout (f v) = recheckTimeout v
                       /\ isInitialized (f v) = true) ->
            let W'' := with_this f W' in
            cfg W'' = merged (hostname (world h)) userConfig
            /\ config (this W'') = nextLoc (world h)
            /\ uiClasses (this W'') = createUIClasses W''
            /\ isInitialized (this W'') = true
            /\ timers W'' = timers (world h)
            /\ recheckTimeout (this W'') = None).
  { intros W' f R Hf. rewrite Ri in R. pose proof (rest_cfg _ _ R) as Hc.
    destruct (rest_fields _ _ R) as (Ra & Ro & Rt & Rc & Rr & Rm & Ri' & Ru).
    destruct (Hf (this W')) as (Fc & Fu & Fr & Fi).
    assert (Hc' : cfg (with_this f W') = cfg W3).
    { unfold cfg. cbn [this with_this objects]. rewrite Fc, Rc, Ro. done. }
    cbn zeta. split; [by rewrite Hc'|].
    cbn [this with_this]. rewrite Fc, Fu, Fr.
    split; [exact Rc|]. split; [|split; [done|split; [exact Rt|exact Rr]]].
    rewrite Ru, Hu3. apply createUIClasses_cfg. symmetry. exact Hc'. }
  assert (Hstart : exists Wo,
            start fuel Wi = Some Wo
            /\ (let W'' := with_this (set_isInitialized true) Wo in
                cfg W'' = merged (hostname (world h)) userConfig
                /\ config (this W'') = nextLoc (world h)
                /\ uiClasses (this W'') = createUIClasses W''
                /\ isInitialized (this W'') = true
                /\ timers W'' = timers (world h)
                /\ recheckTimeout (this W'') = None)
            /\ mutationObserver (this Wo) = default true (enableMutationObserver userConfig)).
  { destruct (recheckAll_detached_total fuel Wi) as [W1 Hr].
    { unfold attemptsAllowed. rewrite Hcfgi. simpl.
      by destruct (maxRetries userConfig). }
    pose proof (rest_recheckAll_detached _ _ _ Hr) as R1.
    pose proof (rest_cfg _ _ R1) as Hc1. rewrite Hcfgi in Hc1.
    destruct (rest_fields _ _ R1) as (_ & _ & _ & _ & _ & Rm1 & _).
    destruct (rest_fields _ _ Ri) as (_ & _ & _ & _ & _ & Rmi & _).
    assert (Hm1 : mutationObserver (this W1) = false) by by rewrite Rm1, Rmi.
    unfold start. rewrite Hr. cbn [mbind option_bind].
    unfold startWatching, setupMutationObserver. rewrite Hc1, Hm1.
    destruct (enableMutationObserver userConfig) as [[|]|] eqn:He; simpl; rewrite ?He; simpl.
    - eexists. split; [reflexivity|]. split; [|done].
      by apply (Hframe W1 (fun v => set_isInitialized true (set_mutationObserver true v))).
    - eexists. split; [reflexivity|]. split; [|done].
      by apply (Hframe W1 (set_isInitialized true)).
    - eexists. split; [reflexivity|]. split; [|done].
      by apply (Hframe W1 (fun v => set_isInitialized true (set_mutationObserver true v))). }
  assert (Hloaded : readyState h <> loading ->
            match readyState h with
            | loading => Some (addListener document "DOMContentLoaded" ReadyListener hs)
            | _ => W' ← start fuel Wi; Some (with_world (fun _ => W') hs)
            end = (W' ← start fuel Wi; Some (with_world (fun _ => W') hs))
            /\ match readyState h with
               | loading => [(document, "DOMContentLoaded", ReadyListener)]
               | _ => []
               end = []).
  { by destruct (readyState h). }
  destruct (decide (readyState h = loading)) as [Hrs|Hrs].
  2:{ destruct (Hloaded Hrs) as [-> ->]. clear Hloaded.
      destruct Hstart as (Wo & Hs & (F1 & F2 & F3 & F4 & F5 & F6) & Hm).
      rewrite Hs. cbn [mbind option_bind].
      eexists. split; [reflexivity|].
      cbn [world with_world listeners].
      do 4 (split; [done|]). split; [by apply initialize_again|].
      split; [unfold pendingAudits; by rewrite <- F5|].
      split; [done|]. split; [by rewrite Sl, app_nil_r|].
      split; [done|]. intros _.
      assert (He : enableMutationObserver (cfg (with_this (set_isInitialized true) Wo))
                   = Some (default true (enableMutationObserver userConfig))).
      { rewrite F1. simpl. by destruct (enableMutationObserver userConfig). }
      split; [|exact He]. rewrite He. exact Hm. }
  clear Hloaded Hstart. rewrite Hrs.
  { (* the document is loading *)
    cbn [mbind option_bind].
    eexists. split; [reflexivity|].
    cbn [world with_world addListener listeners]. rewrite Sw.
    destruct (Hframe Wi (set_isInitialized true) eq_refl) as (F1 & F2 & F3 & F4 & F5 & F6);
      [done|].
    do 4 (split; [done|]). split; [by apply initialize_again|].
    split; [unfold pendingAudits; by rewrite <- F5|].
    split; [done|].
    split; [rewrite Sl, <- !app_assoc; simpl; by rewrite <- ?app_assoc|].
    split; [|done]. intros _.
    destruct (rest_fields _ _ Ri) as (_ & _ & _ & _ & _ & Rm & _).
    split; [|split].
    + unfold Wi, injectCSS. by destruct (Dom.getElementById _ _).
    + exact Rm.
    + unfold Wi, injectCSS. by destruct (Dom.getElementById _ _). }
Qed.

End LifecycleProperties.

(** * A successful audit *)

Section SuccessProperties.

Context `{Platform}.

Lemma NoDup_select p d : NoDup (Dom.select p d).
Proof.
  unfold Dom.select. eapply sublist_NoDup; [apply (NoDup_fst_map_to_list (Dom.elems d))|].
  apply fmap_sublist, sublist_filter.
Qed.

Lemma same_members_length {A} (l k : list A) :
  NoDup l -> NoDup k -> (forall x, x ∈ l <-> x ∈ k) -> length l = length k.
Proof. intros Hl Hk Hm. apply Permutation_length. by apply NoDup_Permutation. Qed.

Lemma rendered_noUI W w : noUI W w -> rendered W w 0.
Proof. intros (Hs & Ho & Hc). unfold rendered. by rewrite Hs, Ho, Hc. Qed.

(** A render on a widget without UI. *)
Lemma rendered_renderWidgetUI w vs W :
  domFresh (dom W) -> is_Some (Dom.elems (dom W) !! w) ->
  Dom.parent_of (dom W) w <> Some w -> noUI W w ->
  rendered (renderWidgetUI w vs W) w (length vs).
Proof.
  intros Hf He Hp Hn. destruct vs as [|v vs].
  - assert (renderWidgetUI w [] W = W) as ->; [|by apply rendered_noUI].
    unfold renderWidgetUI. destruct Hn as (-> & _). done.
  - assert (Hu : unchanged (getWidgetState W w) (Z.of_nat (length (v :: vs))) = false).
    { by destruct Hn as (-> & _). }
    assert (Hnn : v :: vs <> []) by done.
    split; [|split].
    + apply getWidgetState_renderWidgetUI.
    + by apply renderWidgetUI_outlined.
    + simpl.
      rewrite (same_members_length _ [Dom.nextElem (dom W); S (Dom.nextElem (dom W))]).
      * done.
      * apply NoDup_select.
      * apply NoDup_cons. split; [|apply NoDup_singleton].
        intros Hin. apply list_elem_of_singleton in Hin. lia.
      * intros i. rewrite (renderWidgetUI_uiChildren W w (v :: vs)) by done.
        rewrite elem_of_cons, list_elem_of_singleton. done.
Qed.


Lemma has_class_unoutlined (o c : string) (e : Dom.Element) :
  o <> c ->
  Dom.has_class c (Dom.set_classList (filter (fun x => x ≠ o) (Dom.classList e)) e)
  = Dom.has_class c e.
Proof.
  intros Hne. unfold Dom.has_class. simpl. apply bool_decide_ext.
  rewrite list_elem_of_filter. split; [by intros [_ ?]|].
  intros Hin. split; [|done]. by intros ->.
Qed.

Lemma has_class_withClass_other (o c : string) (e : Dom.Element) :
  o <> c -> Dom.has_class c (withClass o e) = Dom.has_class c e.
Proof.
  intros Hne. unfold withClass. destruct (Dom.has_class o e); [done|].
  unfold Dom.has_class. simpl. apply bool_decide_ext.
  rewrite elem_of_app, list_elem_of_singleton. split; [|by left].
  intros [?|?]; [done|]. by subst.
Qed.

(** What clearing [w] leaves of another widget [x]. *)
Lemma clearWidgetUI_other_widget w x W :
  x <> w -> distinctUI (uiClasses (this W)) ->
  getWidgetState (clearWidgetUI w W) x = getWidgetState W x
  /\ outlined (clearWidgetUI w W) x = outlined W x
  /\ (forall i, i ∈ uiChildren (clearWidgetUI w W) x <-> i ∈ uiChildren W x).
Proof.
  intros Hne [Hb Hp]. split; [|split].
  - rewrite getWidgetState_clearWidgetUI. by rewrite decide_False.
  - unfold outlined. rewrite uiClasses_clearWidgetUI, dom_clearWidgetUI. cbn zeta.
    rewrite elems_removeAll. unfold unoutlined at 2 3. simpl.
    rewrite lookup_alter_ne by done.
    case_decide; destruct (Dom.elems (dom W) !! x); done.
  - intros i. split; [apply uiChildren_clearWidgetUI_sub|].
    unfold uiChildren. rewrite uiClasses_clearWidgetUI, !elem_of_scopeChildren.
    intros [e [He [Hpar Hc]]].
    rewrite dom_clearWidgetUI. cbn zeta. rewrite elems_removeAll.
    assert (Hl : exists e1,
              Dom.elems (unoutlined w (uiClasses (this W)) (dom W)) !! i = Some e1
              /\ Dom.parentNode e1 = Some x
              /\ (Dom.has_class (BADGE (uiClasses (this W))) e1 = true
                  \/ Dom.has_class (POPUP (uiClasses (this W))) e1 = true)).
    { unfold unoutlined. simpl. destruct (decide (w = i)) as [<-|Hwi].
      - rewrite lookup_alter_eq, He. simpl. eexists. split; [done|]. split; [done|].
        by rewrite !has_class_unoutlined.
      - rewrite lookup_alter_ne by done. by exists e. }
    destruct Hl as (e1 & He1 & Hp1 & Hc1).
    rewrite decide_False; [by exists e1|].
    intros Hin. apply parent_of_scopeChildren in Hin.
    unfold Dom.parent_of in Hin. rewrite He1 in Hin. simpl in Hin. congruence.
Qed.

(** What a render on [w] leaves of another widget [x] of the document. *)
Lemma renderWidgetUI_other_widget w x vs W :
  x <> w -> domFresh (dom W) -> distinctUI (uiClasses (this W)) ->
  is_Some (Dom.elems (dom W) !! w) ->
  is_Some (Dom.elems (dom W) !! x) ->
  getWidgetState (renderWidgetUI w vs W) x = getWidgetState W x
  /\ outlined (renderWidgetUI w vs W) x = outlined W x
  /\ (forall i, i ∈ uiChildren (renderWidgetUI w vs W) x <-> i ∈ uiChildren W x).
Proof.
  intros Hne Hf Hd [ew Hew] [ex Hex].
  destruct (unchanged (getWidgetState W w) (Z.of_nat (length vs))) eqn:Hu.
  { unfold renderWidgetUI. by rewrite Hu. }
  destruct vs as [|v vs].
  { unfold renderWidgetUI. rewrite Hu. simpl. by apply clearWidgetUI_other_widget. }
  assert (Hnn : v :: vs <> []) by done.
  destruct (dom_renderWidgetUI w (v :: vs) W Hu Hnn) as [Hel [Hnext Hlis]].
  destruct (clearWidgetUI_other_widget w x W Hne Hd) as (Cs & Co & Cc).
  destruct Hd as [Hb Hp].
  assert (Hui : uiClasses (this (renderWidgetUI w (v :: vs) W)) = uiClasses (this W)).
  { pose proof (rest_renderWidgetUI w (v :: vs) W) as R.
    by injection R as _ _ _ _ _ _ _ _ _ _ _ ->. }
  assert (Hxlt : x < Dom.nextElem (dom W)) by by apply (Hf x ex).
  assert (Hwlt : w < Dom.nextElem (dom W)) by by apply (Hf w ew).
  assert (Hlo : forall i, i <> w -> i < Dom.nextElem (dom W) ->
            Dom.elems (dom (renderWidgetUI w (v :: vs) W)) !! i
            = Dom.elems (dom (clearWidgetUI w W)) !! i).
  { intros i Hiw Hi. rewrite Hel. rewrite !lookup_alter_ne by lia.
    rewrite !lookup_insert_ne by lia. by rewrite lookup_alter_ne. }
  assert (Hlw : Dom.elems (dom (renderWidgetUI w (v :: vs) W)) !! w
                = withClass (OUTLINE (uiClasses (this W)))
                    <$> Dom.elems (dom (clearWidgetUI w W)) !! w).
  { rewrite Hel. rewrite !lookup_alter_ne by lia. rewrite !lookup_insert_ne by lia.
    by rewrite lookup_alter_eq. }
  assert (Hfc : forall i e, Dom.elems (dom (clearWidgetUI w W)) !! i = Some e ->
            i < Dom.nextElem (dom W)).
  { intros i e Hi.
    destruct (proj1 (elems_clearWidgetUI_is_Some w W i) (ex_intro _ e Hi)) as [e0 He0].
    by apply (Hf i e0). }
  split; [|split].
  - rewrite <- Cs. unfold renderWidgetUI. rewrite Hu.
    assert (Hz : (Z.of_nat (length (v :: vs)) =? 0)%Z = false) by by apply Z.eqb_neq.
    rewrite Hz. unfold getWidgetState at 1. cbn -[clearWidgetUI].
    by rewrite lookup_insert_ne.
  - rewrite <- Co. unfold outlined. rewrite Hui, uiClasses_clearWidgetUI.
    by rewrite Hlo.
  - intros i. rewrite <- Cc. unfold uiChildren.
    rewrite Hui, uiClasses_clearWidgetUI, !elem_of_scopeChildren.
    destruct (decide (i = w)) as [->|Hiw].
    + (* the widget itself: only its outline class differs *)
      rewrite Hlw. destruct (Dom.elems (dom (clearWidgetUI w W)) !! w) as [ec|]; simpl.
      2:{ split; intros [e [? _]]; done. }
      split.
      * intros [e [[= <-] [Hpar Hc]]]. exists ec. split; [done|].
        rewrite !has_class_withClass_other in Hc by done.
        split; [|done]. revert Hpar. unfold withClass.
        by destruct (Dom.has_class (OUTLINE (uiClasses (this W))) ec).
      * intros [e [[= <-] [Hpar Hc]]]. eexists. split; [done|].
        rewrite !has_class_withClass_other by done.
        split; [|done]. unfold withClass.
        by destruct (Dom.has_class (OUTLINE (uiClasses (this W))) ec).
    + destruct (decide (i < Dom.nextElem (dom W))) as [Hi|Hi].
      { by rewrite Hlo. }
      (* a new element: a child of [w], and absent before *)
      split.
      * intros [e [He [Hpar _]]]. exfalso. revert He. rewrite Hel.
        destruct (decide (i = S (Dom.nextElem (dom W)))) as [->|Hip].
        { rewrite !lookup_alter_eq. rewrite lookup_alter_ne by lia.
          rewrite lookup_insert_eq. simpl. intros [= <-]. simpl in Hpar. congruence. }
        destruct (decide (i = Dom.nextElem (dom W))) as [->|Hib].
        { rewrite lookup_alter_ne by lia. rewrite lookup_alter_ne by lia.
          rewrite lookup_alter_eq. rewrite lookup_insert_ne by lia.
          rewrite lookup_insert_eq. simpl. intros [= <-]. simpl in Hpar. congruence. }
        rewrite !lookup_alter_ne by lia. rewrite !lookup_insert_ne by lia.
        rewrite lookup_alter_ne by done. intros He. apply Hfc in He. lia.
      * intros [e [He _]]. apply Hfc in He. lia.
Qed.

Lemma auditStep_keeps_widget W W' x :
  auditStep W W' ->
  is_Some (Dom.elems (dom W) !! x) -> Dom.parent_of (dom W) x <> Some x ->
  is_Some (Dom.elems (dom W') !! x) /\ Dom.parent_of (dom W') x <> Some x.
Proof.
  intros (_ & _ & _ & _ & _ & _ & E) [e He] Hp.
  destruct (E x e He) as [e' [He' K]]. split; [by eauto|].
  unfold Dom.parent_of in *. rewrite He in Hp. rewrite He'. simpl in *.
  destruct K as (_ & _ & _ & _ & _ & _ & [-> | [-> _]]); done.
Qed.

Lemma noUI_other_render w x vs W :
  x <> w -> domFresh (dom W) -> distinctUI (uiClasses (this W)) ->
  is_Some (Dom.elems (dom W) !! w) -> is_Some (Dom.elems (dom W) !! x) ->
  noUI W x -> noUI (renderWidgetUI w vs W) x.
Proof.
  intros Hne Hf Hd Hw Hx (Hs & Ho & Hc).
  destruct (renderWidgetUI_other_widget w x vs W Hne Hf Hd Hw Hx) as (Rs & Ro & Rc).
  split; [congruence|]. split; [congruence|].
  apply nil_of_no_elem. intros i Hi. apply Rc in Hi. rewrite Hc in Hi.
  by apply not_elem_of_nil in Hi.
Qed.

Lemma rendered_other_render w x vs n W :
  x <> w -> domFresh (dom W) -> distinctUI (uiClasses (this W)) ->
  is_Some (Dom.elems (dom W) !! w) -> is_Some (Dom.elems (dom W) !! x) ->
  rendered W x n -> rendered (renderWidgetUI w vs W) x n.
Proof.
  intros Hne Hf Hd Hw Hx (Hs & Ho & Hc).
  destruct (renderWidgetUI_other_widget w x vs W Hne Hf Hd Hw Hx) as (Rs & Ro & Rc).
  split; [congruence|]. split; [congruence|].
  rewrite <- Hc. apply same_members_length; [apply NoDup_select|apply NoDup_select|exact Rc].
Qed.

Lemma widgetViolations_complete d vs w :
  lookupsComplete d vs -> exists l, widgetViolations d vs w = Ok l.
Proof.
  intros Hc. unfold widgetViolations.
  destruct (filterO_complete (fun violation => some (nodeInWidget d w) (nodes violation)) vs)
    as [l [Hl _]]; [|by exists l].
  intros v Hv.
  destruct (some_complete (nodeInWidget d w) (nodes v)) as [b [Hb _]]; [|by exists b].
  intros n Hn. destruct (Hc v n Hv Hn) as [r Hr]. unfold nodeInWidget. rewrite Hr.
  destruct r; by eauto.
Qed.

(** The renders of one successful attempt, widget by widget. *)
Lemma renderAll_renders vs ws W :
  domFresh (dom W) -> distinctUI (uiClasses (this W)) -> NoDup ws ->
  (forall d, lookupsComplete d vs) ->
  (forall w, w ∈ ws ->
     is_Some (Dom.elems (dom W) !! w) /\ Dom.parent_of (dom W) w <> Some w /\ noUI W w) ->
  exists W',
    renderAll vs ws W = (Ok tt, W')
    /\ (forall x n, x ∉ ws -> is_Some (Dom.elems (dom W) !! x) ->
          rendered W x n -> rendered W' x n)
    /\ (forall w, w ∈ ws ->
          exists Wd l, auditStep W Wd
            /\ widgetViolations (dom Wd) vs w = Ok l
            /\ rendered W' w (length l)).
Proof.
  intros Hf Hd Hnd Hc. revert W Hf Hd.
  induction ws as [|w ws IH]; intros W Hf Hd Hws.
  - exists W. split; [done|]. split; [done|].
    intros w Hw. by apply not_elem_of_nil in Hw.
  - apply NoDup_cons in Hnd as [Hnin Hnd].
    destruct (Hws w) as (Hew & Hpw & Hnw); [by left|].
    destruct (widgetViolations_complete (dom W) vs w (Hc _)) as [l Hl].
    set (W1 := renderWidgetUI w l W).
    pose proof (auditStep_renderWidgetUI w l W Hf Hd) as S1. fold W1 in S1.
    assert (Hf1 : domFresh (dom W1)) by by eapply auditStep_fresh.
    assert (Hd1 : distinctUI (uiClasses (this W1))) by by rewrite (auditStep_ui _ _ S1).
    destruct (IH Hnd W1 Hf1 Hd1) as (W' & Hr & Hkeep & Hall).
    { intros x Hx. destruct (Hws x) as (Hex & Hpx & Hnx); [by right|].
      assert (x <> w) by (intros ->; done).
      destruct (auditStep_keeps_widget W W1 x S1 Hex Hpx) as [? ?].
      split; [done|]. split; [done|]. by apply noUI_other_render. }
    exists W'. split; [|split].
    + simpl. by rewrite Hl.
    + intros x n Hx Hex Hrx. apply not_elem_of_cons in Hx as [Hxw Hx].
      apply Hkeep; [done| |].
      * destruct (S1) as (_ & _ & _ & _ & _ & _ & E). destruct Hex as [e He].
        destruct (E x e He) as [e' [He' _]]. by eauto.
      * by apply rendered_other_render.
    + intros x Hx. apply elem_of_cons in Hx as [->|Hx].
      * exists W, l. split; [by apply auditStep_refl|]. split; [done|].
        apply Hkeep; [done| |].
        -- apply (auditStep_keeps_widget W W1 w S1 Hew Hpw).
        -- by apply rendered_renderWidgetUI.
      * destruct (Hall x Hx) as (Wd & l' & Sd & Hv & Hrd).
        exists Wd, l'. split; [by eapply auditStep_trans|]. done.
Qed.

(** X20. A successful audit, for a validator whose UI class names are valid
    class names and whose outline class is neither the badge nor the popup
    class.  When the selectors match widgets of the
    document, the first engine invocation answers with a list of violations
    and every descriptor lookup completes, [recheckAll] resolves after that
    one invocation, and every matched widget is left as a render of the
    violations attributed to it leaves it: the number of its violations is
    stored, and it is outlined and has two children carrying the badge or
    the popup class when that number is positive, and is not outlined and
    has none when it is zero.  The attribution of a widget is made
    against the document as the renders of the widgets before it left it,
    which differs from the original one by the validator's own UI only. *)
Theorem recheckAll_renders (fuel : nat) (W : World) (widgets : list nat)
    (violations : list AxeViolation) :
  wellFormedUI (uiClasses (this W)) ->
  domFresh (dom W) ->
  distinctUI (uiClasses (this W)) ->
  getAllWidgets (injectCSS W) = Ok widgets ->
  widgets <> [] ->
  NoDup widgets ->
  (forall w, w ∈ widgets ->
     is_Some (Dom.elems (dom W) !! w) /\ Dom.parent_of (dom W) w <> Some w) ->
  0 < attemptsAllowed W ->
  (forall d o, axe_run (engineCalls W) d o = Ok violations) ->
  (forall d, lookupsComplete d violations) ->
  0 < fuel ->
  exists W',
    recheckAll fuel W = Some (Ok tt, W')
    /\ engineCalls W' = S (engineCalls W)
    /\ (forall w, w ∈ widgets ->
          exists Wd attributed,
            auditStep W Wd
            /\ widgetViolations (dom Wd) violations w = Ok attributed
            /\ rendered W' w (length attributed)).
Proof.
  intros _ Hf Hd Hw Hne Hnd Hex Hatt Haxe Hc Hfuel.
  rewrite (recheckAll_widgets fuel W widgets Hw Hne).
  pose proof (auditStep_injectCSS W Hf) as S1.
  assert (Hd1 : distinctUI (uiClasses (this (injectCSS W))))
    by by rewrite (auditStep_ui _ _ S1).
  assert (S2 : auditStep (injectCSS W) (clearEach widgets (injectCSS W))).
  { unfold clearEach. apply auditStep_foldl; [|by eapply auditStep_fresh|done].
    intros; by apply auditStep_clearWidgetUI. }
  set (W2 := clearEach widgets (injectCSS W)) in *.
  assert (S12 : auditStep W W2) by by eapply auditStep_trans.
  assert (Hf2 : domFresh (dom W2)) by by eapply auditStep_fresh.
  assert (Hd2 : distinctUI (uiClasses (this W2))) by by rewrite (auditStep_ui _ _ S12).
  assert (Hcfg : cfg W2 = cfg W).
  { apply rest_cfg. unfold W2. by rewrite rest_clearEach, rest_injectCSS. }
  assert (Hec : engineCalls W2 = engineCalls W).
  { unfold engineCalls, W2. by rewrite trace_clearEach, trace_injectCSS. }
  destruct fuel as [|fuel]; [lia|]. cbn [retryLoop].
  assert (Hle : leMax 0 (maxRetries (cfg W2)) = true).
  { rewrite Hcfg. unfold attemptsAllowed in Hatt. destruct (maxRetries (cfg W)) as [m|]; [|lia].
    simpl. apply Z.leb_le. lia. }
  rewrite Hle. unfold attempt. rewrite Hec, Haxe.
  set (W3 := if debug (emit (AxeRun (axeOptions W2)) W2)
             then emit (ConsoleLog (ruleInfo (emit (AxeRun (axeOptions W2)) W2))
                          (map summarize violations))
                       (emit (AxeRun (axeOptions W2)) W2)
             else emit (AxeRun (axeOptions W2)) W2).
  assert (H3 : dom W3 = dom W2 /\ this W3 = this W2 /\ rest W3 = rest W2
               /\ engineCalls W3 = S (engineCalls W2)).
  { unfold W3. destruct (debug _); rewrite ?engineCalls_emit; simpl;
      rewrite ?engineCalls_emit; done. }
  destruct H3 as (Hdom3 & Hthis3 & Hrest3 & Hec3).
  assert (S3 : auditStep W2 W3) by by apply auditStep_same_dom.
  assert (S13 : auditStep W W3) by by eapply auditStep_trans.
  destruct (renderAll_renders violations widgets W3) as (W' & Hr & _ & Hall).
  - by eapply auditStep_fresh.
  - by rewrite (auditStep_ui _ _ S13).
  - done.
  - done.
  - intros w Hin. destruct (Hex w Hin) as [Hew Hpw].
    destruct (auditStep_keeps_widget W W3 w S13 Hew Hpw) as [? ?].
    split; [done|]. split; [done|].
    pose proof (noUI_clearEach widgets (injectCSS W) w Hin) as Hn. fold W2 in Hn.
    unfold noUI, getWidgetState, outlined, uiChildren in *. by rewrite Hdom3, Hthis3.
  - rewrite Hr. cbn [mbind option_bind]. exists W'. split; [done|]. split.
    + assert (Ht : trace W' = trace W3).
      { change W' with (Ok tt, W').2. rewrite <- Hr. apply trace_renderAll. }
      unfold engineCalls in *. rewrite Ht. congruence.
    + intros w Hin. destruct (Hall w Hin) as (Wd & l & Sd & Hv & Hrd).
      exists Wd, l. split; [by eapply auditStep_trans|]. done.
Qed.

Lemma docListeners_clearEach ws W :
  Dom.docListeners (dom (clearEach ws W)) = Dom.docListeners (dom W).
Proof.
  revert W. induction ws as [|w ws IH]; intros W; simpl; [done|].
  fold (clearEach ws (clearWidgetUI w W)). rewrite IH.
  rewrite dom_clearWidgetUI. cbn zeta. by rewrite docListeners_removeAll.
Qed.

(** X21. For a validator whose UI class names are valid class names,
    [clearAll] completes when the selector query does, and removes the UI
    of every matched widget and resets its stored state to zero violations.
    It does nothing else: the engine is not run, configuration, observer
    and timers are untouched, so a re-audit that is pending stays pending,
    and the outside-click listeners of the popups it removes stay
    registered.  When the selector query raises, the exception reaches the
    caller and nothing has changed. *)
Theorem clearAll_effect (W : World) :
  (forall widgets,
     getAllWidgets W = Ok widgets ->
     (wellFormedUI (uiClasses (this W)) ->
        (clearAll W).1 = Ok tt
        /\ (forall w, w ∈ widgets -> noUI (clearAll W).2 w))
     /\ rest (clearAll W).2 = rest W
     /\ trace (clearAll W).2 = trace W
     /\ pendingAudits (clearAll W).2 = pendingAudits W
     /\ Dom.docListeners (dom (clearAll W).2) = Dom.docListeners (dom W)
     /\ (domFresh (dom W) -> distinctUI (uiClasses (this W)) ->
         forall i e, Dom.elems (dom W) !! i = Some e ->
           exists e', Dom.elems (dom (clearAll W).2) !! i = Some e'
                      /\ kept (uiClasses (this W)) e e'))
  /\ (forall e, getAllWidgets W = Throw e -> clearAll W = (Throw e, W)).
Proof.
  split.
  - intros widgets Hw. unfold clearAll. rewrite Hw. cbn [fst snd].
    fold (clearEach widgets W).
    split; [intros _; split; [done|intros w Hin; by apply noUI_clearEach]|].
    split; [apply rest_clearEach|]. split; [apply trace_clearEach|].
    split.
    { unfold pendingAudits.
      pose proof (rest_clearEach widgets W) as R.
      by injection R as _ _ _ -> _ _ _ _ _ _ _ _. }
    split; [apply docListeners_clearEach|].
    intros Hf Hd.
    assert (S : auditStep W (clearEach widgets W)).
    { unfold clearEach. apply auditStep_foldl; [|done|done].
      intros; by apply auditStep_clearWidgetUI. }
    by destruct S as (_ & _ & _ & _ & _ & _ & E).
  - intros e Hw. unfold clearAll. by rewrite Hw.
Qed.

End SuccessProperties.

(** * The coherence of state and UI *)

Section CoherenceProperties.

Context `{Platform}.

Lemma noUI_rendered W w : rendered W w 0 -> noUI W w.
Proof.
  intros (Hs & Ho & Hc). split; [done|]. split; [done|].
  by destruct (uiChildren W w).
Qed.

(** A render on a widget whose state and UI agree. *)
Lemma rendered_render_any w vs n W :
  domFresh (dom W) -> is_Some (Dom.elems (dom W) !! w) ->
  Dom.parent_of (dom W) w <> Some w -> rendered W w n ->
  rendered (renderWidgetUI w vs W) w (length vs).
Proof.
  intros Hf He Hp Hr.
  destruct (unchanged (getWidgetState W w) (Z.of_nat (length vs))) eqn:Hu.
  - assert (renderWidgetUI w vs W = W) as -> by (unfold renderWidgetUI; by rewrite Hu).
    apply unchanged_spec in Hu as [Hc _]. destruct Hr as (Hs & Ho & Hl).
    rewrite Hs in Hc. simpl in Hc. apply Nat2Z.inj in Hc. by subst n.
  - destruct vs as [|v vs].
    + assert (renderWidgetUI w [] W = clearWidgetUI w W) as ->
        by (unfold renderWidgetUI; by rewrite Hu).
      apply rendered_noUI, noUI_clearWidgetUI.
    + assert (Hnn : v :: vs <> []) by done.
      split; [|split].
      * apply getWidgetState_renderWidgetUI.
      * by apply renderWidgetUI_outlined.
      * simpl.
        rewrite (same_members_length _ [Dom.nextElem (dom W); S (Dom.nextElem (dom W))]).
        -- done.
        -- apply NoDup_select.
        -- apply NoDup_cons. split; [|apply NoDup_singleton].
           intros Hin. apply list_elem_of_singleton in Hin. lia.
        -- intros i. rewrite (renderWidgetUI_uiChildren W w (v :: vs)) by done.
           rewrite elem_of_cons, list_elem_of_singleton. done.
Qed.

Lemma coherentAt_render ws w vs W :
  w ∈ ws -> coherentAt ws W -> coherentAt ws (renderWidgetUI w vs W).
Proof.
  intros Hw (Hf & Hd & Hall).
  pose proof (auditStep_renderWidgetUI w vs W Hf Hd) as S1.
  destruct (Hall w Hw) as (Hew & Hpw & [nw Hrw]).
  split; [by eapply auditStep_fresh|]. split; [by rewrite (auditStep_ui _ _ S1)|].
  intros x Hx. destruct (Hall x Hx) as (Hex & Hpx & [n Hrx]).
  destruct (auditStep_keeps_widget W _ x S1 Hex Hpx) as [? ?].
  split; [done|]. split; [done|].
  destruct (decide (x = w)) as [->|Hne].
  - exists (length vs). by eapply rendered_render_any.
  - exists n. by apply rendered_other_render.
Qed.

Lemma coherentAt_same ws W W' :
  dom W' = dom W -> this W' = this W -> coherentAt ws W -> coherentAt ws W'.
Proof.
  intros Hd Ht. unfold coherentAt, rendered, getWidgetState, outlined, uiChildren.
  by rewrite Hd, Ht.
Qed.

Lemma coherentAt_renderEach ws vs0 ws0 W :
  (forall w, w ∈ ws0 -> w ∈ ws) -> coherentAt ws W ->
  coherentAt ws (foldl (fun W widget => renderWidgetUI widget vs0 W) W ws0).
Proof.
  revert W. induction ws0 as [|w ws0 IH]; intros W Hsub Hc; simpl; [done|].
  apply IH; [intros x Hx; apply Hsub; by right|].
  apply coherentAt_render; [apply Hsub; by left|done].
Qed.

Lemma coherentAt_renderAll ws vs ws0 W :
  (forall w, w ∈ ws0 -> w ∈ ws) -> coherentAt ws W ->
  coherentAt ws (renderAll vs ws0 W).2.
Proof.
  revert W. induction ws0 as [|w ws0 IH]; intros W Hsub Hc; simpl; [done|].
  destruct (widgetViolations _ _ _) as [l|e]; simpl; [|done].
  apply IH; [intros x Hx; apply Hsub; by right|].
  apply coherentAt_render; [apply Hsub; by left|done].
Qed.

Lemma coherentAt_attempt ws W : coherentAt ws W -> coherentAt ws (attempt ws W).2.
Proof.
  intros Hc. unfold attempt.
  destruct (axe_run _ _ _) as [vs|e]; simpl.
  - apply coherentAt_renderAll; [done|].
    destruct (debug _); by eapply coherentAt_same.
  - by eapply coherentAt_same.
Qed.

Lemma coherentAt_onFailure ws a err W :
  coherentAt ws W -> coherentAt ws (onFailure ws a err W).
Proof.
  intros Hc. unfold onFailure. destruct (gtMax _ _).
  - apply coherentAt_renderEach; [done|].
    destruct (debug W); by eapply coherentAt_same.
  - by eapply coherentAt_same.
Qed.

Lemma coherentAt_retryLoop fuel ws a W W' :
  coherentAt ws W -> retryLoop fuel ws a W = Some W' -> coherentAt ws W'.
Proof.
  revert a W. induction fuel as [|fuel IH]; intros a W Hc; simpl; [done|].
  destruct (leMax _ _); [|by intros [= <-]].
  pose proof (coherentAt_attempt ws W Hc) as Ha.
  destruct (attempt ws W) as [[u|err] W1]; simpl in Ha.
  - by intros [= <-].
  - apply IH. by apply coherentAt_onFailure.
Qed.

(** The widgets after the clearing that opens an audit. *)
Lemma coherentAt_cleared ws W :
  domFresh (dom W) -> distinctUI (uiClasses (this W)) ->
  (forall w, w ∈ ws ->
     is_Some (Dom.elems (dom W) !! w) /\ Dom.parent_of (dom W) w <> Some w) ->
  auditStep W (clearEach ws (injectCSS W))
  /\ coherentAt ws (clearEach ws (injectCSS W))
  /\ forall w, w ∈ ws -> noUI (clearEach ws (injectCSS W)) w.
Proof.
  intros Hf Hd Hex.
  pose proof (auditStep_injectCSS W Hf) as S1.
  assert (Hd1 : distinctUI (uiClasses (this (injectCSS W))))
    by by rewrite (auditStep_ui _ _ S1).
  assert (S2 : auditStep (injectCSS W) (clearEach ws (injectCSS W))).
  { unfold clearEach. apply auditStep_foldl; [|by eapply auditStep_fresh|done].
    intros; by apply auditStep_clearWidgetUI. }
  assert (S12 : auditStep W (clearEach ws (injectCSS W))) by by eapply auditStep_trans.
  split; [done|]. split; [|intros w Hw; by apply noUI_clearEach].
  split; [by eapply auditStep_fresh|]. split; [by rewrite (auditStep_ui _ _ S12)|].
  intros w Hw. destruct (Hex w Hw) as [He Hp].
  destruct (auditStep_keeps_widget W _ w S12 He Hp) as [? ?].
  split; [done|]. split; [done|]. exists 0. by apply rendered_noUI, noUI_clearEach.
Qed.

(** X22. State and UI agree after every audit, for a validator whose UI
    class names are valid class names and whose outline class is neither
    the badge nor the popup class.  Whatever the engine and the descriptor
    lookups do, succeed or raise, in any attempt, each matched widget is
    left by [recheckAll] with a stored count [n], with the outline and two
    children carrying the badge or the popup class when [n > 0], and with
    no outline and no such child when [n = 0]. *)
Theorem recheckAll_coherent (fuel : nat) (W : World) (widgets : list nat)
    (r : Outcome unit * World) :
  wellFormedUI (uiClasses (this W)) ->
  domFresh (dom W) ->
  distinctUI (uiClasses (this W)) ->
  getAllWidgets (injectCSS W) = Ok widgets ->
  (forall w, w ∈ widgets ->
     is_Some (Dom.elems (dom W) !! w) /\ Dom.parent_of (dom W) w <> Some w) ->
  recheckAll fuel W = Some r ->
  forall w, w ∈ widgets ->
    exists n, rendered r.2 w n
              /\ (hasUI (getWidgetState r.2 w) = true <-> outlined r.2 w = true)
              /\ (hasUI (getWidgetState r.2 w) = false <-> uiChildren r.2 w = []).
Proof.
  intros _ Hf Hd Hw Hex Hr w Hin.
  assert (Hne : widgets <> []) by (intros ->; by apply not_elem_of_nil in Hin).
  rewrite (recheckAll_widgets fuel W widgets Hw Hne) in Hr.
  destruct (coherentAt_cleared widgets W Hf Hd Hex) as (_ & Hc & _).
  destruct (retryLoop fuel widgets 0 (clearEach widgets (injectCSS W))) as [W'|] eqn:E;
    simpl in Hr; [|done].
  injection Hr as <-. simpl.
  destruct (coherentAt_retryLoop _ _ _ _ _ Hc E) as (_ & _ & Hall).
  destruct (Hall w Hin) as (_ & _ & [n Hn]). exists n. split; [done|].
  destruct Hn as (Hs & Ho & Hl). rewrite Hs, Ho. simpl.
  destruct n as [|n]; simpl.
  - split; [done|]. split; [|done]. intros _. by destruct (uiChildren W' w).
  - split; [done|]. split; [done|]. intros Hnil. by rewrite Hnil in Hl.
Qed.

Lemma noUI_render_nil ws w x W :
  coherentAt ws W -> w ∈ ws -> x ∈ ws ->
  (x = w \/ noUI W x) -> noUI (renderWidgetUI w [] W) x.
Proof.
  intros (Hf & Hd & Hall) Hw Hx Hor.
  destruct (Hall w Hw) as (Hew & Hpw & [nw Hrw]).
  destruct (Hall x Hx) as (Hex & _).
  destruct (decide (x = w)) as [->|Hne].
  - apply noUI_rendered. by apply (rendered_render_any w [] nw W).
  - destruct Hor as [?|Hn]; [done|]. by apply noUI_other_render.
Qed.

Lemma noUI_renderEach_nil ws ws0 W :
  (forall w, w ∈ ws0 -> w ∈ ws) -> coherentAt ws W ->
  forall x, x ∈ ws -> (x ∈ ws0 \/ noUI W x) ->
    noUI (foldl (fun W widget => renderWidgetUI widget [] W) W ws0) x.
Proof.
  revert W. induction ws0 as [|w ws0 IH]; intros W Hsub Hc x Hx Hor; simpl.
  - destruct Hor as [Hin|?]; [by apply not_elem_of_nil in Hin|done].
  - assert (Hw : w ∈ ws) by (apply Hsub; by left).
    apply IH; [intros y Hy; apply Hsub; by right|by apply coherentAt_render|done|].
    destruct Hor as [Hin|Hn].
    + apply elem_of_cons in Hin as [->|Hin]; [|by left].
      right. apply (noUI_render_nil ws w w W); auto.
    + right. apply (noUI_render_nil ws w x W); auto.
Qed.

(** The loop when each of its attempts fails, whatever makes it fail. *)
Lemma retryLoop_attempts_fail fuel ws W :
  forall a,
  coherentAt ws W ->
  (forall k, k < remaining a W ->
     exists e, (attempt ws (attemptStart ws k a W)).1 = Throw e) ->
  remaining a W < fuel ->
  exists W',
    retryLoop fuel ws a W = Some W'
    /\ engineCalls W' = engineCalls W + remaining a W
    /\ (forall w, w ∈ ws -> noUI W w \/ 0 < remaining a W -> noUI W' w).
Proof.
  revert W. induction fuel as [|fuel IH]; intros W a Hc Hfail Hf; [lia|]. simpl.
  destruct (leMax a (maxRetries (cfg W))) eqn:Hle.
  2:{ exists W. split; [done|].
      assert (remaining a W = 0) as ->.
      { unfold leMax, remaining in *. destruct (maxRetries (cfg W)); [|done].
        apply Z.leb_gt in Hle. lia. }
      split; [lia|]. intros w _ [?|?]; [done|lia]. }
  pose proof (leMax_remaining _ _ Hle) as Hrem.
  pose proof (engineCalls_attempt ws W) as Hcalls.
  pose proof (rest_attempt ws W) as Hrest.
  pose proof (coherentAt_attempt ws W Hc) as Hca.
  destruct (Hfail 0) as [err Herr]; [lia|]. cbn [attemptStart] in Herr.
  destruct (attempt ws W) as [[u|err'] W1] eqn:Hatt; simpl in *; [done|].
  assert (Hnext : forall k, attemptStart ws (S k) a W
                    = attemptStart ws k (a + 1) (onFailure ws (a + 1) err' W1)).
  { intros k. cbn [attemptStart]. by rewrite Hatt. }
  set (W2 := onFailure ws (a + 1) err' W1).
  assert (Hc2 : coherentAt ws W2) by by apply coherentAt_onFailure.
  assert (Hr2 : rest W2 = rest W) by (unfold W2; by rewrite rest_onFailure).
  assert (Hrem2 : remaining (a + 1) W2 = remaining (a + 1) W) by by apply rest_remaining.
  destruct (IH W2 (a + 1)%Z Hc2) as (W' & Hl & He & Hn).
  { intros k Hk. rewrite <- Hnext. apply Hfail. lia. }
  { lia. }
  exists W'. split; [done|]. split.
  { rewrite He, Hrem2, Hrem. unfold W2. rewrite engineCalls_onFailure. lia. }
  intros w Hw _. apply Hn; [done|].
  destruct (gtMax (a + 1) (maxRetries (cfg W1))) eqn:Hgt.
  - left. unfold W2, onFailure. rewrite Hgt.
    apply (noUI_renderEach_nil ws ws); [done| |done|by left].
    destruct (debug W1); [|done]. by eapply coherentAt_same.
  - right. rewrite Hrem2. rewrite (rest_cfg _ _ Hrest) in Hgt.
    unfold gtMax, leMax, remaining in *. destruct (maxRetries (cfg W)) as [m|]; [|done].
    apply Z.ltb_ge in Hgt. lia.
Qed.

(** X23. Failures of the descriptor lookups are absorbed like failures of
    the engine, for a validator whose UI class names are valid class names
    and whose outline class is neither the badge nor the popup class.  When
    each of the [maxRetries + 1] attempts of an audit fails in the world in
    which it starts, because the engine raises or because a descriptor
    lookup raises while the widgets are rendered, [recheckAll] still
    resolves, after [maxRetries + 1] engine invocations, and every matched
    widget is left without UI, also those that an attempt had rendered
    before a lookup raised. *)
Theorem recheckAll_attempts_fail (fuel : nat) (W : World) (widgets : list nat) :
  wellFormedUI (uiClasses (this W)) ->
  domFresh (dom W) ->
  distinctUI (uiClasses (this W)) ->
  getAllWidgets (injectCSS W) = Ok widgets ->
  widgets <> [] ->
  (forall w, w ∈ widgets ->
     is_Some (Dom.elems (dom W) !! w) /\ Dom.parent_of (dom W) w <> Some w) ->
  (forall k, k < attemptsAllowed W ->
     exists e,
       (attempt widgets
          (attemptStart widgets k 0 (clearEach widgets (injectCSS W)))).1 = Throw e) ->
  attemptsAllowed W < fuel ->
  exists W',
    recheckAll fuel W = Some (Ok tt, W')
    /\ engineCalls W' = engineCalls W + attemptsAllowed W
    /\ (forall w, w ∈ widgets -> noUI W' w).
Proof.
  intros _ Hf Hd Hw Hne Hex Hfail Hfuel.
  rewrite (recheckAll_widgets fuel W widgets Hw Hne).
  destruct (coherentAt_cleared widgets W Hf Hd Hex) as (S12 & Hc & Hn).
  set (W2 := clearEach widgets (injectCSS W)) in *.
  assert (Hrest : rest W2 = rest W).
  { unfold W2. by rewrite rest_clearEach, rest_injectCSS. }
  assert (Hrem : remaining 0 W2 = attemptsAllowed W).
  { by rewrite (rest_remaining _ _ W), attemptsAllowed_remaining. }
  destruct (retryLoop_attempts_fail fuel widgets W2 0 Hc) as (W' & Hl & He & Hno).
  { intros k Hk. apply Hfail. by rewrite <- Hrem. }
  { by rewrite Hrem. }
  rewrite Hl. cbn [mbind option_bind]. exists W'. split; [done|]. split.
  - rewrite He, Hrem. unfold engineCalls, W2. by rewrite trace_clearEach, trace_injectCSS.
  - intros w Hin. apply Hno; [done|]. left. by apply Hn.
Qed.

End CoherenceProperties.

Lemma domFreshb_spec d : domFreshb d = true -> domFresh d.
Proof.
  unfold domFreshb, domFresh. rewrite forallb_forall. intros Hall i e Hl.
  apply elem_of_map_to_list, list_elem_of_In in Hl. apply Hall in Hl.
  simpl in Hl. by apply Nat.ltb_lt.
Qed.
(** * The further properties on the concrete page *)

(** X1 at the page: the audit settles within the allowed invocations. *)
Lemma recheckAll_always_settles_witness :
  wellFormedUI (uiClasses (this (Page.world [".card-video"])))
  /\ attemptsAllowed (Page.world [".card-video"]) < 3
  /\ exists r W',
       recheckAll (H := Page.reporting) 3 (Page.world [".card-video"]) = Some (r, W')
       /\ engineCalls W' <= 2.
Proof.
  assert (Hwf : wellFormedUI (uiClasses (this (Page.world [".card-video"]))))
    by by vm_compute.
  assert (Hf : attemptsAllowed (Page.world [".card-video"]) < 3) by (vm_compute; lia).
  split; [exact Hwf|]. split; [exact Hf|].
  destruct (recheckAll_always_settles (H := Page.reporting) 3 (Page.world [".card-video"])
              Hwf Hf)
    as (r & W' & Hr & _ & Hc & _).
  exists r, W'. split; [exact Hr|]. exact Hc.
Defined.

(** X2 at the page, with an engine that fails once: one retry, then no
    violation and no UI. *)
Lemma recheckAll_recovers_witness :
  wellFormedUI (uiClasses (this (Page.world [".card-video"])))
  /\ getAllWidgets (H := failingOnce) (injectCSS (Page.world [".card-video"])) = Ok [3]
  /\ exists W',
       recheckAll (H := failingOnce) 3 (Page.world [".card-video"]) = Some (Ok tt, W')
       /\ engineCalls W' = 2
       /\ noUI W' 3.
Proof.
  assert (Hw : getAllWidgets (H := failingOnce) (injectCSS (Page.world [".card-video"]))
               = Ok [3]) by (vm_compute; reflexivity).
  assert (Hwf : wellFormedUI (uiClasses (this (Page.world [".card-video"]))))
    by by vm_compute.
  split; [exact Hwf|]. split; [exact Hw|].
  destruct (recheckAll_recovers (H := failingOnce) 3 1 (Page.world [".card-video"]) [3]
              Hwf Hw)
    as (W' & Hr & _ & Hc & _ & Hn).
  - discriminate.
  - intros i d o Hi. assert (i = 0) as -> by lia. eexists. reflexivity.
  - intros d o. reflexivity.
  - vm_compute; lia.
  - vm_compute; lia.
  - exists W'. split; [exact Hr|]. split; [exact Hc|]. apply Hn. left.
Defined.

(** X3 at the page: the first render of one violation on the video card
    builds badge 7 and popup 8, the popup hidden. *)
Lemma renderWidgetUI_builds_witness :
  wellFormedUI (uiClasses (this (Page.world [".card-video"])))
  /\ domFresh (dom (Page.world [".card-video"]))
  /\ outlined (renderWidgetUI 3 [Page.imageAlt] (Page.world [".card-video"])) 3 = true
  /\ hasAttribute (dom (renderWidgetUI 3 [Page.imageAlt] (Page.world [".card-video"])))
                  8 "hidden" = true
  /\ forall i, i ∈ uiChildren (renderWidgetUI 3 [Page.imageAlt] (Page.world [".card-video"])) 3
               <-> i = 7 \/ i = 8.
Proof.
  assert (Hwf : wellFormedUI (uiClasses (this (Page.world [".card-video"]))))
    by by vm_compute.
  assert (Hf : domFresh (dom (Page.world [".card-video"]))).
  { apply domFreshb_spec. vm_compute. reflexivity. }
  split; [exact Hwf|]. split; [exact Hf|].
  destruct (renderWidgetUI_builds (Page.world [".card-video"]) 3 [Page.imageAlt] Hwf Hf)
    as (Ho & _ & _ & _ & Hh & _ & Hu & _).
  - eexists. vm_compute. reflexivity.
  - vm_compute. discriminate.
  - vm_compute. reflexivity.
  - discriminate.
  - split; [exact Ho|]. split; [exact Hh|exact Hu].
Defined.


(** X5 at the page: an update of [maxRetries], [customCSS] and the badge
    class allocates object 4, overrides these values and leaves observer
    and timers alone; the empty update changes no value. *)
Lemma updateConfig_frame_witness :
  (exists W',
     updateConfig (H := Page.reporting) 3 richUpdate (Page.world [".card-video"]) = Some W'
     /\ config (this W') = 4
     /\ maxRetries (cfg W') = Some 3%Z
     /\ customCSS (cfg W') = Some ".x{}"
     /\ mutationObserver (this W') = mutationObserver (this (Page.world [".card-video"]))
     /\ sched W' = sched (Page.world [".card-video"]))
  /\ (exists W',
        updateConfig (H := Page.reporting) 3 emptyUpdate (Page.world [".card-video"])
        = Some W'
        /\ config (this W') = 4
        /\ cfg W' = cfg (Page.world [".card-video"])).
Proof.
  split.
  - destruct (updateConfig (H := Page.reporting) 3 richUpdate (Page.world [".card-video"]))
      as [W'|] eqn:E; [|vm_compute in E; discriminate].
    exists W'. split; [reflexivity|].
    destruct (updateConfig_frame (H := Page.reporting) 3 richUpdate
                (Page.world [".card-video"]) W' E) as (Hm & Hc & _ & _ & Ho & Hs & _).
    split; [exact Hc|]. split; [rewrite Hm; reflexivity|].
    split; [rewrite Hm; reflexivity|]. split; [exact Ho|exact Hs].
  - destruct (updateConfig (H := Page.reporting) 3 emptyUpdate (Page.world [".card-video"]))
      as [W'|] eqn:E; [|vm_compute in E; discriminate].
    exists W'. split; [reflexivity|].
    destruct (updateConfig_frame (H := Page.reporting) 3 emptyUpdate
                (Page.world [".card-video"]) W' E) as (_ & Hc & _ & _ & _ & _ & _ & He).
    split; [exact Hc|].
    apply (He Page.userConfig); reflexivity.
Defined.


(** X7 at the page: the audio card is added to the validator's own
    array. *)
Lemma addSelectors_in_place_witness :
  exists W',
    addSelectors (H := Page.reporting) 3 [".card-audio"] (Page.world [".card-video"])
    = Some W'
    /\ selectors W' = [".card-video"; ".card-audio"]
    /\ objects W' = objects (Page.world [".card-video"]).
Proof.
  destruct (addSelectors (H := Page.reporting) 3 [".card-audio"]
              (Page.world [".card-video"])) as [W'|] eqn:E;
    [|vm_compute in E; discriminate].
  exists W'. split; [reflexivity|].
  destruct (addSelectors_in_place (H := Page.reporting) 3 [".card-audio"]
              (Page.world [".card-video"]) W' E) as (Hs & _ & Ho & _).
  split; [exact Hs|exact Ho].
Defined.

(** X8 at the page with two selectors: the audio card is removed into a
    new array at location 4. *)
Lemma removeSelectors_new_array_witness :
  widgetSelectors (cfg (Page.world [".card-video"; ".card-audio"]))
  < nextLoc (Page.world [".card-video"; ".card-audio"])
  /\ exists W',
       removeSelectors (H := Page.reporting) 3 [".card-audio"]
         (Page.world [".card-video"; ".card-audio"]) = Some W'
       /\ selectors W' = [".card-video"]
       /\ widgetSelectors (cfg W') = 4.
Proof.
  assert (Hlt : widgetSelectors (cfg (Page.world [".card-video"; ".card-audio"]))
                < nextLoc (Page.world [".card-video"; ".card-audio"])).
  { vm_compute; lia. }
  split; [exact Hlt|].
  destruct (removeSelectors (H := Page.reporting) 3 [".card-audio"]
              (Page.world [".card-video"; ".card-audio"])) as [W'|] eqn:E;
    [|vm_compute in E; discriminate].
  exists W'. split; [reflexivity|].
  destruct (removeSelectors_new_array (H := Page.reporting) 3 [".card-audio"]
              (Page.world [".card-video"; ".card-audio"]) W' Hlt E)
    as (Hs & _ & _ & Hn & _).
  split; [|exact Hn]. rewrite Hs. vm_compute. reflexivity.
Defined.

(** X9 at the page after its first audit, with the UI of the video card in
    place, the observer running and a re-audit pending: [destroy] undoes
    the three. *)
Lemma destroy_effect_witness :
  wellFormedUI (uiClasses (this busyPage))
  /\ timersOk busyPage
  /\ getAllWidgets (H := Page.reporting) busyPage = Ok [3]
  /\ uiChildren busyPage 3 = [8; 9]
  /\ mutationObserver (this busyPage) = true
  /\ pendingAudits busyPage = [0]
  /\ (destroy (H := Page.reporting) busyPage).1 = Ok tt
  /\ mutationObserver (this (destroy (H := Page.reporting) busyPage).2) = false
  /\ pendingAudits (destroy (H := Page.reporting) busyPage).2 = []
  /\ noUI (destroy (H := Page.reporting) busyPage).2 3.
Proof.
  assert (Hwf : wellFormedUI (uiClasses (this busyPage))) by by vm_compute.
  assert (Hok : timersOk busyPage).
  { apply (timersOk_run (H := Page.reporting) 3
             [RecheckAll; StartWatching; DebounceRecheck None] (Page.world [".card-video"])).
    - vm_compute. reflexivity.
    - split; [|split].
      + intros t due Hl. vm_compute in Hl. discriminate.
      + intros t x Hl. vm_compute in Hl. discriminate.
      + intros t Hl. vm_compute in Hl. discriminate. }
  assert (Hw : getAllWidgets (H := Page.reporting) busyPage = Ok [3])
    by (vm_compute; reflexivity).
  split; [exact Hwf|]. split; [exact Hok|]. split; [exact Hw|].
  split; [vm_compute; reflexivity|]. split; [vm_compute; reflexivity|].
  split; [vm_compute; reflexivity|].
  destruct (destroy_effect (H := Page.reporting) busyPage [3] Hok Hw)
    as (Hc & Hm & Hp & _).
  destruct (Hc Hwf) as (Hr & Hn).
  split; [exact Hr|]. split; [exact Hm|]. split; [exact Hp|]. apply Hn. left.
Defined.

(** X10 at the page with a string that is no selector: destroy raises. *)
Lemma destroy_aborts_witness :
  getAllWidgets (H := Std.failing) (Page.world ["???"]) = Throw SyntaxError
  /\ (destroy (H := Std.failing) (Page.world ["???"])).1 = Throw SyntaxError
  /\ dom (destroy (H := Std.failing) (Page.world ["???"])).2 = dom (Page.world ["???"]).
Proof.
  assert (Hw : getAllWidgets (H := Std.failing) (Page.world ["???"]) = Throw SyntaxError)
    by (vm_compute; reflexivity).
  split; [exact Hw|].
  destruct (destroy_aborts (H := Std.failing) (Page.world ["???"]) SyntaxError Hw)
    as (Hd & Hdom & _).
  rewrite Hd. split; [reflexivity|exact Hdom].
Defined.

(** X11 at the page: a request with delay 0 waits for the configured
    300 ms, and only the clock moves before that; a request with a delay
    of 3000000000 ms fires at once. *)
Lemma debounceRecheck_delay_witness :
  debounceDelay (cfg (Page.world [".card-video"])) = Some 300%Z
  /\ isLong 300
  /\ effectiveDelay (Some 0%Z) (Page.world [".card-video"]) = 300%Z
  /\ effectiveDelay (Some 3000000000%Z) (Page.world [".card-video"]) = 0%Z
  /\ advance (H := Page.reporting) 3 299
       (debounceRecheck (Some 0%Z) (Page.world [".card-video"]))
     = Some (dueAt (now (Page.world [".card-video"]) + 299)
               (debounceRecheck (Some 0%Z) (Page.world [".card-video"])),
             tick (now (Page.world [".card-video"]) + 299)
               (debounceRecheck (Some 0%Z) (Page.world [".card-video"])))
  /\ audits (dueAt (now (Page.world [".card-video"]) + 299)
               (debounceRecheck (Some 0%Z) (Page.world [".card-video"]))) = 0.
Proof.
  assert (Hc : debounceDelay (cfg (Page.world [".card-video"])) = Some 300%Z)
    by (vm_compute; reflexivity).
  assert (Hl : isLong 300) by (unfold isLong; lia).
  assert (Hok : timersOk (Page.world [".card-video"])).
  { split; [|split].
    - intros t due Ht. vm_compute in Ht. discriminate.
    - intros t x Ht. vm_compute in Ht. discriminate.
    - intros t Ht. vm_compute in Ht. discriminate. }
  destruct (debounceRecheck_delay (H := Page.reporting) (Page.world [".card-video"]))
    as (H0 & H1 & _ & _ & _ & Hw & Hb & _).
  split; [exact Hc|]. split; [exact Hl|]. split; [|split].
  - rewrite H0, (H1 300%Z Hc Hl). reflexivity.
  - apply Hw. lia.
  - apply (Hb 3 299%Z 300%Z Hok Hc Hl). lia.
Defined.

(** X12 at the page: the style sheet becomes element 7, once. *)
Lemma injectCSS_once_witness :
  Dom.connected (dom (Page.world [".card-video"]))
    (Dom.head (dom (Page.world [".card-video"]))) = true
  /\ is_Some (Dom.getElementById "wa11y-style" (dom (injectCSS (Page.world [".card-video"]))))
  /\ injectCSS (injectCSS (Page.world [".card-video"])) = injectCSS (Page.world [".card-video"]).
Proof.
  assert (Hc : Dom.connected (dom (Page.world [".card-video"]))
                 (Dom.head (dom (Page.world [".card-video"]))) = true)
    by (vm_compute; reflexivity).
  split; [exact Hc|].
  destruct (injectCSS_once (Page.world [".card-video"])) as (Hs & Hi & _).
  - apply domFreshb_spec. vm_compute. reflexivity.
  - exact Hc.
  - split; [exact Hs|exact Hi].
Defined.



(** X15 at the page: the writes of the first audit are the validator's
    own. *)
Lemma recheckAll_no_feedback_witness :
  wellFormedUI (uiClasses (this (Page.world [".card-video"])))
  /\ domFresh (dom (Page.world [".card-video"]))
  /\ distinctUI (uiClasses (this (Page.world [".card-video"])))
  /\ exists r writes,
       recheckAll (H := Page.reporting) 3 (Page.world [".card-video"]) = Some r
       /\ Dom.domWrites (dom r.2)
          = Dom.domWrites (dom (Page.world [".card-video"])) ++ writes
       /\ forall w, w ∈ writes -> ownWrite r.2 w.
Proof.
  assert (Hf : domFresh (dom (Page.world [".card-video"]))).
  { apply domFreshb_spec. vm_compute. reflexivity. }
  assert (Hd : distinctUI (uiClasses (this (Page.world [".card-video"])))).
  { split; discriminate. }
  assert (Hwf : wellFormedUI (uiClasses (this (Page.world [".card-video"]))))
    by by vm_compute.
  split; [exact Hwf|]. split; [exact Hf|]. split; [exact Hd|].
  destruct (recheckAll (H := Page.reporting) 3 (Page.world [".card-video"])) as [r|] eqn:E;
    [|vm_compute in E; discriminate].
  destruct (recheckAll_no_feedback (H := Page.reporting) (H0 := classQueries) 3
              (Page.world [".card-video"]) r Hwf Hf Hd E) as (writes & Hw & Ho & _).
  exists r, writes. split; [reflexivity|]. split; [exact Hw|exact Ho].
Defined.


(** X17 at the same page with popup 8 shown: a click on the body hides
    it. *)
Lemma closing_listeners_witness :
  Dom.contains (dom (badgeClick 7 8 renderedPage)) 3 2 = false
  /\ hasAttribute (dom (badgeClick 7 8 renderedPage)) 8 "hidden" = false
  /\ hasAttribute
       (dom (outsideClick (Dom.OutsideClick 7 8 3) (Some 2) (badgeClick 7 8 renderedPage)))
       8 "hidden" = true.
Proof.
  assert (Hc : Dom.contains (dom (badgeClick 7 8 renderedPage)) 3 2 = false)
    by (vm_compute; reflexivity).
  split; [exact Hc|]. split; [vm_compute; reflexivity|].
  destruct (closing_listeners (badgeClick 7 8 renderedPage) 7 8 3 (Some 2))
    as (Hh & _ & _ & _ & _ & Ho & _).
  - discriminate.
  - eexists. vm_compute. reflexivity.
  - eexists. vm_compute. reflexivity.
  - rewrite (Ho 2 eq_refl Hc). exact Hh.
Defined.

(** X18 at the page.  While it is loading, nothing is audited and nothing
    observed; once it is loaded, the first audit runs, the observer is on
    and no re-audit is scheduled. *)
Lemma construct_effect_witness :
  Z.to_nat (default 1%Z (maxRetries Page.userConfig) + 1) < 3
  /\ (exists h',
        construct (H := Page.reporting) 3 Page.userConfig (pageHost [".card-video"] loading)
        = Some h'
        /\ isInitialized (this (world h')) = true
        /\ trace (world h') = []
        /\ mutationObserver (this (world h')) = false)
  /\ (exists h',
        construct (H := Page.reporting) 3 Page.userConfig (pageHost [".card-video"] complete)
        = Some h'
        /\ isInitialized (this (world h')) = true
        /\ mutationObserver (this (world h')) = true
        /\ pendingAudits (world h') = []
        /\ recheckTimeout (this (world h')) = None).
Proof.
  assert (Hf : Z.to_nat (default 1%Z (maxRetries Page.userConfig) + 1) < 3)
    by (vm_compute; lia).
  split; [exact Hf|]. split.
  - destruct (construct_effect (H := Page.reporting) 3 Page.userConfig
                (pageHost [".card-video"] loading) Hf)
      as (h' & Hc & _ & _ & _ & Hi & _ & _ & _ & _ & Hl & _).
    exists h'. split; [exact Hc|]. split; [exact Hi|].
    destruct (Hl eq_refl) as (Ht & Hm & _). split; [exact Ht|exact Hm].
  - destruct (construct_effect (H := Page.reporting) 3 Page.userConfig
                (pageHost [".card-video"] complete) Hf)
      as (h' & Hc & _ & _ & _ & Hi & _ & Hp & Hr & _ & _ & Ho).
    exists h'. split; [exact Hc|]. split; [exact Hi|].
    destruct Ho as [Hm He]; [discriminate|].
    split; [rewrite Hm, He; reflexivity|]. split; [|exact Hr].
    rewrite Hp. vm_compute. reflexivity.
Defined.

(** X19 at the page: [sf:contentSaved] leaves one re-audit pending. *)
Lemma cms_event_schedules_witness :
  timersOk (world (validatorHost [".card-video"]))
  /\ cmsEvents (cfg (world (validatorHost [".card-video"]))) = Some 1
  /\ "sf:contentSaved" ∈ readArray (world (validatorHost [".card-video"])) 1
  /\ exists h2 t,
       dispatchEvent (H := Page.reporting) 3 document "sf:contentSaved"
         (setupEventListeners (validatorHost [".card-video"])) = Some h2
       /\ pendingAudits (world h2) = [t]
       /\ timers (world h2) !! t = Some (500%Z, CbRecheckAll).
Proof.
  assert (Hok : timersOk (world (validatorHost [".card-video"]))).
  { split; [|split].
    - intros t due Hl. vm_compute in Hl. discriminate.
    - intros t x Hl. vm_compute in Hl. discriminate.
    - intros t Hl. vm_compute in Hl. discriminate. }
  assert (Hc : cmsEvents (cfg (world (validatorHost [".card-video"]))) = Some 1)
    by (vm_compute; reflexivity).
  assert (He : "sf:contentSaved" ∈ readArray (world (validatorHost [".card-video"])) 1).
  { apply list_elem_of_In. vm_compute. do 4 right. left. reflexivity. }
  split; [exact Hok|]. split; [exact Hc|]. split; [exact He|].
  destruct (cms_event_schedules (H := Page.reporting) 3 (validatorHost [".card-video"])
              "sf:contentSaved" 1 Hok Hc He) as ((h2 & t & Hd & Hp & Ht & _) & _).
  - intros l Hl. vm_compute in Hl. by apply not_elem_of_nil in Hl.
  - exists h2, t. split; [exact Hd|]. split; [exact Hp|exact Ht].
Defined.

(** X20 at the page: the audit that reports the missing text alternative
    of the thumbnail. *)
Lemma recheckAll_renders_witness :
  wellFormedUI (uiClasses (this (Page.world [".card-video"])))
  /\ getAllWidgets (H := Page.reporting) (injectCSS (Page.world [".card-video"])) = Ok [3]
  /\ exists W',
       recheckAll (H := Page.reporting) 1 (Page.world [".card-video"]) = Some (Ok tt, W')
       /\ engineCalls W' = 1
       /\ exists Wd attributed,
            widgetViolations (H := Page.reporting) (dom Wd) [Page.imageAlt] 3 = Ok attributed
            /\ rendered W' 3 (length attributed).
Proof.
  assert (Hw : getAllWidgets (H := Page.reporting) (injectCSS (Page.world [".card-video"]))
               = Ok [3]) by (vm_compute; reflexivity).
  assert (Hwf : wellFormedUI (uiClasses (this (Page.world [".card-video"]))))
    by by vm_compute.
  split; [exact Hwf|]. split; [exact Hw|].
  destruct (recheckAll_renders (H := Page.reporting) 1 (Page.world [".card-video"]) [3]
              [Page.imageAlt]) as (W' & Hr & Hc & Hall).
  - exact Hwf.
  - apply domFreshb_spec. vm_compute. reflexivity.
  - split; discriminate.
  - exact Hw.
  - discriminate.
  - apply NoDup_singleton.
  - intros w Hin. apply list_elem_of_singleton in Hin. subst w. split.
    + eexists. vm_compute. reflexivity.
    + vm_compute. discriminate.
  - vm_compute. lia.
  - intros d o. reflexivity.
  - intros d v n Hv Hn. apply list_elem_of_singleton in Hv. subst v.
    apply list_elem_of_singleton in Hn. subst n. eexists. reflexivity.
  - lia.
  - exists W'. split; [exact Hr|]. split; [exact Hc|].
    destruct (Hall 3) as (Wd & l & _ & Hv & Hrd); [left|].
    exists Wd, l. split; [exact Hv|exact Hrd].
Defined.

(** X21 at the page after a render: the UI of the video card is removed. *)
Lemma clearAll_effect_witness :
  wellFormedUI (uiClasses (this renderedPage))
  /\ getAllWidgets (H := Page.reporting) renderedPage = Ok [3]
  /\ outlined renderedPage 3 = true
  /\ (clearAll (H := Page.reporting) renderedPage).1 = Ok tt
  /\ noUI (clearAll (H := Page.reporting) renderedPage).2 3.
Proof.
  assert (Hwf : wellFormedUI (uiClasses (this renderedPage))) by by vm_compute.
  assert (Hw : getAllWidgets (H := Page.reporting) renderedPage = Ok [3])
    by (vm_compute; reflexivity).
  split; [exact Hwf|]. split; [exact Hw|]. split; [vm_compute; reflexivity|].
  destruct (proj1 (clearAll_effect (H := Page.reporting) renderedPage) [3] Hw)
    as (Hc & _).
  destruct (Hc Hwf) as (Hr & Hn).
  split; [exact Hr|]. apply Hn. left.
Defined.

(** X22 at the page with both cards, with an engine whose violation makes
    the lookup for the audio card raise in every attempt: state and UI of
    each card agree after the audit. *)
Lemma recheckAll_coherent_witness :
  wellFormedUI (uiClasses (this (Page.world [".card-video"; ".card-audio"])))
  /\ getAllWidgets (H := misreporting)
       (injectCSS (Page.world [".card-video"; ".card-audio"])) = Ok [3; 5]
  /\ exists r,
       recheckAll (H := misreporting) 3 (Page.world [".card-video"; ".card-audio"]) = Some r
       /\ (exists n, rendered r.2 3 n)
       /\ (exists n, rendered r.2 5 n).
Proof.
  assert (Hwf : wellFormedUI (uiClasses (this (Page.world [".card-video"; ".card-audio"]))))
    by by vm_compute.
  assert (Hw : getAllWidgets (H := misreporting)
                 (injectCSS (Page.world [".card-video"; ".card-audio"])) = Ok [3; 5])
    by (vm_compute; reflexivity).
  split; [exact Hwf|]. split; [exact Hw|].
  destruct (recheckAll (H := misreporting) 3 (Page.world [".card-video"; ".card-audio"]))
    as [r|] eqn:E; [|vm_compute in E; discriminate].
  exists r. split; [reflexivity|].
  assert (Hall : forall w, w ∈ [3; 5] -> exists n, rendered r.2 w n).
  { intros w Hin.
    destruct (recheckAll_coherent (H := misreporting) 3
                (Page.world [".card-video"; ".card-audio"]) [3; 5] r)
      with (w := w) as (n & Hn & _).
    - exact Hwf.
    - apply domFreshb_spec. vm_compute. reflexivity.
    - split; discriminate.
    - exact Hw.
    - intros x Hx. apply elem_of_cons in Hx as [->|Hx];
        [|apply list_elem_of_singleton in Hx; subst x].
      + split; [eexists; vm_compute; reflexivity|vm_compute; discriminate].
      + split; [eexists; vm_compute; reflexivity|vm_compute; discriminate].
    - exact E.
    - exact Hin.
    - exists n. exact Hn. }
  split; apply Hall; [left|right; left].
Defined.

(** X23 at the page with both cards, with an engine that reports a
    violation whose first node lies in the video card and whose second
    node has a target that is no selector: each attempt renders the video
    card and then raises at the audio card; after two invocations neither
    card has UI. *)
Lemma recheckAll_attempts_fail_witness :
  wellFormedUI (uiClasses (this (Page.world [".card-video"; ".card-audio"])))
  /\ getAllWidgets (H := misreporting)
       (injectCSS (Page.world [".card-video"; ".card-audio"])) = Ok [3; 5]
  /\ (attempt (H := misreporting) [3; 5]
        (clearEach [3; 5] (injectCSS (Page.world [".card-video"; ".card-audio"])))).1
     = Throw SyntaxError
  /\ outlined
       (attempt (H := misreporting) [3; 5]
          (clearEach [3; 5] (injectCSS (Page.world [".card-video"; ".card-audio"])))).2 3
     = true
  /\ exists W',
       recheckAll (H := misreporting) 3 (Page.world [".card-video"; ".card-audio"])
       = Some (Ok tt, W')
       /\ engineCalls W' = 2
       /\ noUI W' 3
       /\ noUI W' 5.
Proof.
  assert (Hwf : wellFormedUI (uiClasses (this (Page.world [".card-video"; ".card-audio"]))))
    by by vm_compute.
  assert (Hw : getAllWidgets (H := misreporting)
                 (injectCSS (Page.world [".card-video"; ".card-audio"])) = Ok [3; 5])
    by (vm_compute; reflexivity).
  assert (Ha : attemptsAllowed (Page.world [".card-video"; ".card-audio"]) = 2)
    by (vm_compute; reflexivity).
  split; [exact Hwf|]. split; [exact Hw|].
  split; [vm_compute; reflexivity|]. split; [vm_compute; reflexivity|].
  destruct (recheckAll_attempts_fail (H := misreporting) 3
              (Page.world [".card-video"; ".card-audio"]) [3; 5])
    as (W' & Hr & Hc & Hn).
  - exact Hwf.
  - apply domFreshb_spec. vm_compute. reflexivity.
  - split; discriminate.
  - exact Hw.
  - discriminate.
  - intros x Hx. apply elem_of_cons in Hx as [->|Hx];
      [|apply list_elem_of_singleton in Hx; subst x].
    + split; [eexists; vm_compute; reflexivity|vm_compute; discriminate].
    + split; [eexists; vm_compute; reflexivity|vm_compute; discriminate].
  - rewrite Ha. intros k Hk. exists SyntaxError.
    destruct k as [|[|k]]; [vm_compute; reflexivity|vm_compute; reflexivity|lia].
  - rewrite Ha. lia.
  - exists W'. split; [exact Hr|]. split; [by rewrite Hc, Ha|].
    split; apply Hn; [left|right; left].
Defined.
